(** * gha-otel: workflow history re-emitted as run / job / step spans

    A shallow embedding of [main_otel.py].  The Python program reads the
    runs of one workflow through a hosting client, and opens one span per
    run, per job and per step at the historical timestamps of the records.

    Reading guide for the embedding:
    - Python exceptions are the constructors of [exn]; a call that may
      raise returns a [result].
    - The module globals [g] (hosting client) and [tracer] live in a
      [world]: the log of client calls, the span objects created so far,
      the ambient current span and the number of wall-clock reads.
      Functions of the program are computations in the monad [M].
    - A span is a mutable object; span handles are indices into the
      world's span store and every [set_attribute], [set_status],
      [add_event] and [end] updates the store in place.
    - [datetime.timestamp() * 1e9] is binary64 arithmetic; it is modelled
      with the IEEE 754 specification of the Standard Library
      ([SpecFloat], precision 53, emax 1024), not with exact integers.
    - [print] calls write to stdout only and are left out.

    What is taken from the libraries, which are not part of the program:
    - the client hands out timezone-aware [datetime] objects, so that
      [timestamp()] is the distance from the epoch in microseconds
      divided by [10**6], correctly rounded;
    - a failing client call raises an instance of [Exception] (a
      [GithubException] or an error of the HTTP layer);
    - the collections of runs, jobs, steps and annotations are read as
      the lists of their elements, and [get_annotations()] either raises
      when it is called or yields its list. *)

From Stdlib Require Import ZArith Lia Bool Ascii String.
From Stdlib Require Import Floats.SpecFloat.
From stdpp Require Import gmap strings list pretty.

Open Scope string_scope.
Open Scope list_scope.
Open Scope Z_scope.

(** ** Exceptions and results *)

Inductive exn : Type :=
| AttributeError            (* attribute access on [None] *)
| OverflowError             (* [int(inf)], int / int too large *)
| ValueError                (* [int(nan)] *)
| ZeroDivisionError
| SystemExit                (* [sys.exit()] *)
| GithubException (msg : string).   (* failure raised by the client *)

Inductive result (A : Type) : Type :=
| Ok (a : A)
| Raise (e : exn).
Arguments Ok {A} a.
Arguments Raise {A} e.

(** ** Binary64 floats as Python uses them *)

Module Float64.

Definition prec : Z := 53.
Definition emax : Z := 1024.

Definition float : Type := spec_float.

(** A float literal with an integral value, such as [1e9]. *)
Definition of_int (n : Z) : float := binary_normalize prec emax n 0 false.

(** [a / b] on Python ints: the exact quotient, correctly rounded. *)
Definition truediv (a b : Z) : result float :=
  if b =? 0 then Raise ZeroDivisionError
  else
    let negate := xorb (a <? 0) (b <? 0) in
    if a =? 0 then Ok (S754_zero negate)
    else
      let '(q, e, l) := SFdiv_core_binary prec emax (Z.abs a) 0 (Z.abs b) 0 in
      match binary_round_aux prec emax negate q e l with
      | S754_infinity _ => Raise OverflowError
      | x => Ok x
      end.

Definition mul (x y : float) : float := SFmul prec emax x y.

(** [int(x)]: truncation toward zero. *)
Definition to_int (x : float) : result Z :=
  match x with
  | S754_nan => Raise ValueError
  | S754_infinity _ => Raise OverflowError
  | S754_zero _ => Ok 0
  | S754_finite s m e => Ok (cond_Zopp s (Z.shiftl (Zpos m) e))
  end.

End Float64.

(** ** Timestamps

    The client hands out timezone-aware [datetime] objects.  Such an object
    is determined by its distance from the epoch in microseconds, which is
    what [timestamp()] starts from: [(self - _EPOCH).total_seconds()] is
    the int division [microseconds / 10**6]. *)

Record datetime : Type := Datetime { epoch_us : Z }.

Definition is_leap (y : Z) : bool :=
  (y mod 4 =? 0) && (negb (y mod 100 =? 0) || (y mod 400 =? 0)).

Definition days_before_year (y : Z) : Z :=
  let p := y - 1 in p * 365 + p / 4 - p / 100 + p / 400.

Definition days_before_month (y m : Z) : Z :=
  nth (Z.to_nat (m - 1)) [0; 31; 59; 90; 120; 151; 181; 212; 243; 273; 304; 334] 0
  + (if (2 <? m) && is_leap y then 1 else 0).

Definition ymd2ord (y m d : Z) : Z := days_before_year y + days_before_month y m + d.

(** [datetime(y, m, d, hh, mm, ss, us, tzinfo=timezone.utc)]. *)
Definition utc (y m d hh mm ss us : Z) : datetime :=
  Datetime ((((ymd2ord y m d - ymd2ord 1970 1 1) * 86400
              + hh * 3600 + mm * 60 + ss) * 1000000) + us).

(** The range of [datetime]: years 1 to 9999. *)
Definition datetime_min : datetime := utc 1 1 1 0 0 0 0.
Definition datetime_max : datetime := utc 9999 12 31 23 59 59 999999.

Definition valid_datetime (t : datetime) : Prop :=
  epoch_us datetime_min <= epoch_us t <= epoch_us datetime_max.

Definition timestamp (t : datetime) : result Float64.float :=
  Float64.truediv (epoch_us t) 1000000.

(** [convert_time(time)]: [int(time.timestamp() * 1e9)].  There is no test
    for [None]: the attribute access on it raises. *)
Definition convert_time (time : option datetime) : result Z :=
  match time with
  | None => Raise AttributeError
  | Some t =>
      match timestamp t with
      | Ok secs => Float64.to_int (Float64.mul secs (Float64.of_int 1000000000))
      | Raise e => Raise e
      end
  end.

(** ** Python values that reach attributes and keyword arguments *)

Inductive value : Type :=
| VNone
| VBool (b : bool)
| VInt (n : Z)
| VFloat (x : Float64.float)
| VStr (s : string).

Definition is_none (v : value) : bool :=
  match v with VNone => true | _ => false end.

(** Truth value of an object, as [if v:] tests it. *)
Definition truthy (v : value) : bool :=
  match v with
  | VNone => false
  | VBool b => b
  | VInt n => negb (n =? 0)
  | VFloat x => match x with S754_zero _ => false | _ => true end
  | VStr s => negb (String.eqb s "")
  end.

Definition of_opt_int (o : option Z) : value :=
  match o with Some n => VInt n | None => VNone end.

Definition of_opt_str (o : option string) : value :=
  match o with Some s => VStr s | None => VNone end.

(** [f"{v}"] for a string or [None]. *)
Definition format_opt_str (o : option string) : string :=
  match o with Some s => s | None => "None" end.

(** [s.split(sep)] for a separator of one character: never empty. *)
Fixpoint split (sep : Ascii.ascii) (s : string) : list string :=
  match s with
  | EmptyString => [EmptyString]
  | String c rest =>
      if Ascii.eqb c sep then EmptyString :: split sep rest
      else match split sep rest with
           | piece :: pieces => String c piece :: pieces
           | [] => [String c EmptyString]
           end
  end.

(** ** Records of the hosting API *)

(** The [labels] attribute of a job as the code distinguishes it. *)
Inductive labels : Type :=
| LabelsNone
| LabelsStr (s : string)
| LabelsList (items : list string)
| LabelsTuple (items : list string).

Definition labels_items (l : labels) : list string :=
  match l with
  | LabelsNone => []
  | LabelsStr s => [s]
  | LabelsList items | LabelsTuple items => items
  end.

Module WorkflowStep.
Record t : Type := Build {
  name : string;
  number : Z;
  started_at : option datetime;
  completed_at : option datetime;
  conclusion : option string
}.
End WorkflowStep.

Module WorkflowJob.
Record t : Type := Build {
  id : Z;
  name : string;
  run_id : Z;
  run_attempt : option Z;
  labels : labels;
  runner_group_id : option Z;
  runner_group_name : option string;
  runner_name : option string;
  started_at : option datetime;
  completed_at : option datetime;
  created_at : option datetime;
  conclusion : option string;
  steps : list WorkflowStep.t
}.
End WorkflowJob.

Module WorkflowRun.
Record t : Type := Build {
  id : Z;
  run_number : Z;
  run_attempt : option Z;
  html_url : string;
  event : string;
  name : string;
  run_started_at : option datetime;
  updated_at : option datetime;
  status : option string;
  conclusion : option string;
  path : string;
  jobs : list WorkflowJob.t          (* what [run.jobs()] lists *)
}.
End WorkflowRun.

Module Workflow.
Record t : Type := Build {
  id : Z;
  name : string;
  (* [get_runs()] and [get_runs(created=...)] *)
  get_runs : option string -> list WorkflowRun.t
}.
End Workflow.

(** A call to the client either answers or raises a [GithubException]
    (or another [Exception] of the HTTP layer) with text [str(e)]. *)
Inductive api_result (A : Type) : Type :=
| ApiOk (a : A)
| ApiFail (str_e : string).
Arguments ApiOk {A} a.
Arguments ApiFail {A} str_e.

Module Annotation.
Record t : Type := Build {
  message : string;
  annotation_level : string;
  title : string
}.
End Annotation.

Module CheckRun.
Record t : Type := Build {
  (* [check_run.get_annotations()]: the listing, or the failure to list *)
  get_annotations : api_result (list Annotation.t)
}.
End CheckRun.

Module Repository.
Record t : Type := Build {
  name : string;
  get_check_run : Z -> api_result CheckRun.t
}.
End Repository.

Module Github.
Record t : Type := Build {
  (* [g.get_user().login]: the answer to GET /user *)
  login : api_result string
}.
End Github.

(** ** Spans

    A span object is what the program has told the tracer about it: the
    name, parent and start time it was opened with, the attribute, event
    and status calls made on it, and the end time once [end] was called.
    Attribute values are kept as they were passed. *)

Inductive status : Type :=
| StatusUnset
| StatusError (description : string).

Module Event.
Record t : Type := Build {
  name : value;
  attributes : gmap string value;
  timestamp : Z
}.
End Event.

Module Span.
Record t : Type := Build {
  name : string;
  parent : option nat;              (* handle of the parent span *)
  start_time : Z;
  end_time : option Z;
  attributes : gmap string value;
  events : list Event.t;
  status : status
}.

Definition start (name : string) (parent : option nat) (start_time : Z) : t :=
  Build name parent start_time None ∅ [] StatusUnset.

Definition set_attribute (key : string) (v : value) (sp : t) : t :=
  Build (name sp) (parent sp) (start_time sp) (end_time sp)
        (<[key := v]> (attributes sp)) (events sp) (status sp).

Definition set_status (description : string) (sp : t) : t :=
  Build (name sp) (parent sp) (start_time sp) (end_time sp)
        (attributes sp) (events sp) (StatusError description).

Definition add_event (ev : Event.t) (sp : t) : t :=
  Build (name sp) (parent sp) (start_time sp) (end_time sp)
        (attributes sp) (events sp ++ [ev]) (status sp).

Definition end_ (t_end : Z) (sp : t) : t :=
  Build (name sp) (parent sp) (start_time sp) (Some t_end)
        (attributes sp) (events sp) (status sp).
End Span.

(** ** The world: client log, span store, ambient span, clock *)

Inductive api_call : Type :=
| Call_get_user
| Call_user_login
| Call_get_runs (created : option string)
| Call_jobs (run_id : Z)
| Call_get_check_run (job_id : Z)
| Call_get_annotations (job_id : Z).

Record world : Type := World {
  calls : list api_call;        (* calls made to the client, oldest first *)
  spans : list Span.t;          (* span objects; a handle is an index *)
  current : option nat;         (* span of the ambient context *)
  clock_reads : nat             (* reads of [datetime.today()] so far *)
}.

Definition initial_world : world := World [] [] None 0.

Definition M (A : Type) : Type := world -> result A * world.

Definition ret {A} (a : A) : M A := fun w => (Ok a, w).

Definition bind {A B} (m : M A) (k : A -> M B) : M B :=
  fun w => match m w with
           | (Ok a, w') => k a w'
           | (Raise e, w') => (Raise e, w')
           end.

Definition raise {A} (e : exn) : M A := fun w => (Raise e, w).

Definition lift {A} (r : result A) : M A := fun w => (r, w).

Declare Scope py_scope.
Delimit Scope py_scope with py.
Notation "x <- m ;; k" := (bind m (fun x => k))
  (at level 100, m at next level, right associativity) : py_scope.
Notation "m ;; k" := (bind m (fun _ => k))
  (at level 100, right associativity) : py_scope.
Open Scope py_scope.

(** [for x in l: body(x)], collecting what each round produces. *)
Fixpoint for_each {A B} (body : A -> M B) (l : list A) : M (list B) :=
  match l with
  | [] => ret []
  | x :: rest =>
      b <- body x ;;
      bs <- for_each body rest ;;
      ret (b :: bs)
  end.

(** [sys.exit()] *)
Definition sys_exit {A} : M A := raise SystemExit.

(** Which exceptions [except Exception] catches. *)
Definition is_Exception (e : exn) : bool :=
  match e with SystemExit => false | _ => true end.

Definition str_exn (e : exn) : string :=
  match e with
  | AttributeError => "'NoneType' object has no attribute 'timestamp'"
  | OverflowError => "cannot convert float infinity to integer"
  | ValueError => "cannot convert float NaN to integer"
  | ZeroDivisionError => "division by zero"
  | SystemExit => ""
  | GithubException msg => msg
  end.

(** [try: body  except Exception as e: handler(e)] *)
Definition try_except {A} (body : M A) (handler : exn -> M A) : M A :=
  fun w => match body w with
           | (Raise e, w') =>
               if is_Exception e then handler e w' else (Raise e, w')
           | r => r
           end.

(** A request to the client: logged, then answered or raised. *)
Definition call {A} (c : api_call) (answer : api_result A) : M A :=
  fun w =>
    let w' := World (calls w ++ [c]) (spans w) (current w) (clock_reads w) in
    match answer with
    | ApiOk a => (Ok a, w')
    | ApiFail msg => (Raise (GithubException msg), w')
    end.

(** A client method that only builds a lazy object: logged, no request. *)
Definition touch (c : api_call) : M unit :=
  fun w => (Ok tt, World (calls w ++ [c]) (spans w) (current w) (clock_reads w)).

(** [tracer.start_as_current_span(name, start_time=.., context=..,
    end_on_exit=False).__enter__()]: a new span object, child of the span
    of [context] (of the ambient context when none is given), which
    becomes the ambient span.  The token is what [__exit__] restores. *)
Definition start_as_current_span (name : string) (start_time : Z)
    (context : option nat) : M (nat * option nat) :=
  fun w =>
    let parent := match context with Some p => Some p | None => current w end in
    let handle := length (spans w) in
    (Ok (handle, current w),
     World (calls w) (spans w ++ [Span.start name parent start_time])
           (Some handle) (clock_reads w)).

(** [__exit__(None, None, None)] of that context manager. *)
Definition exit_context (token : option nat) : M unit :=
  fun w => (Ok tt, World (calls w) (spans w) token (clock_reads w)).

(** In-place update of the span object behind a handle. *)
Definition update_span (handle : nat) (f : Span.t -> Span.t) : M unit :=
  fun w => (Ok tt, World (calls w) (alter f handle (spans w))
                         (current w) (clock_reads w)).

Definition set_attribute (handle : nat) (key : string) (v : value) : M unit :=
  update_span handle (Span.set_attribute key v).

Definition set_status (handle : nat) (description : string) : M unit :=
  update_span handle (Span.set_status description).

Definition add_event (handle : nat) (ev : Event.t) : M unit :=
  update_span handle (Span.add_event ev).

Definition end_span (handle : nat) (end_time : Z) : M unit :=
  update_span handle (Span.end_ end_time).

(** ** The program *)

Section Program.

(** Module globals: [execution_id = str(uuid.uuid4())], the client [g],
    and what [str(datetime.today())] reads at its n-th call. *)
Variable execution_id : string.
Variable g : Github.t.
Variable today_str : nat -> string.

Definition datetime_today : M string :=
  fun w => (Ok (today_str (clock_reads w)),
            World (calls w) (spans w) (current w) (S (clock_reads w))).

Definition kwargs_get (kwargs : gmap string value) (key : string) : value :=
  default VNone (kwargs !! key).

Definition get_args (kwargs : gmap string value)
  : M (value * value * value * value * value * bool) :=
  let repo_name := kwargs_get kwargs "repo" in
  let workflow_name := kwargs_get kwargs "workflow" in
  if is_none repo_name || is_none workflow_name then sys_exit
  else
    org <- (let org := kwargs_get kwargs "org" in
            if is_none org then
              touch Call_get_user ;;
              login <- call Call_user_login (Github.login g) ;;
              ret (VStr login)
            else ret org) ;;
    let start := kwargs_get kwargs "start" in
    let end_ := kwargs_get kwargs "end" in
    if (is_none start && negb (is_none end_))
       || (negb (is_none start) && is_none end_)
    then sys_exit
    else
      let skip := if truthy (kwargs_get kwargs "skipsteps") then true else false in
      ret (org, repo_name, workflow_name, start, end_, skip).

(** [run.path.split("/")[-1].split(".")[0]] *)
Definition run_name (path : string) : string :=
  hd "" (split "."%char (List.last (split "/"%char path) "")).

Definition is_failure (conclusion : option string) : bool :=
  bool_decide (conclusion = Some "failure").

(** Body of the loop of [process_runs]; the value is the handle appended
    to [run_spans]. *)
Definition process_run (workflow : Workflow.t) (run : WorkflowRun.t) : M nat :=
  run_start_time <- lift (convert_time (WorkflowRun.run_started_at run)) ;;
  run_completed_at <-
    (if bool_decide (WorkflowRun.status run = Some "completed") then
       t <- lift (convert_time (WorkflowRun.updated_at run)) ;; ret (VInt t)
     else ret VNone) ;;
  entered <- start_as_current_span (run_name (WorkflowRun.path run))
                                   run_start_time None ;;
  let parent_span := fst entered in
  today <- datetime_today ;;
  set_attribute parent_span "execution.id" (VStr execution_id) ;;
  set_attribute parent_span "workflow.id" (VInt (Workflow.id workflow)) ;;
  set_attribute parent_span "run.id" (VInt (WorkflowRun.id run)) ;;
  set_attribute parent_span "run.run_number" (VInt (WorkflowRun.run_number run)) ;;
  match WorkflowRun.run_attempt run with
  | None => set_attribute parent_span "run.run_attempt" (VInt 1)
  | Some attempt => set_attribute parent_span "run.run_attempt" (VInt attempt)
  end ;;
  set_attribute parent_span "run.html_url" (VStr (WorkflowRun.html_url run)) ;;
  set_attribute parent_span "run.event" (VStr (WorkflowRun.event run)) ;;
  set_attribute parent_span "run.name" (VStr (WorkflowRun.name run)) ;;
  set_attribute parent_span "run.run_started_at" (VInt run_start_time) ;;
  set_attribute parent_span "run.updated_at" run_completed_at ;;
  set_attribute parent_span "my_date" (VStr today) ;;
  set_attribute parent_span "run.conclusion"
                (of_opt_str (WorkflowRun.conclusion run)) ;;
  (if is_failure (WorkflowRun.conclusion run) then
     let text := "Run " +:+ pretty (WorkflowRun.run_number run) +:+ " failed" in
     set_status parent_span text ;;
     set_attribute parent_span "error" (VBool true) ;;
     set_attribute parent_span "error.message" (VStr text)
   else ret tt) ;;
  (if truthy run_completed_at then
     match run_completed_at with
     | VInt t => end_span parent_span t
     | _ => ret tt
     end ;;
     exit_context (snd entered)
   else ret tt) ;;
  ret parent_span.

Definition process_runs (workflow : Workflow.t) (start end_ : option string)
  : M (list WorkflowRun.t * list nat) :=
  runs <- (match start, end_ with
           | None, None =>
               call (Call_get_runs None) (ApiOk (Workflow.get_runs workflow None))
           | _, _ =>
               let created := format_opt_str start +:+ ".." +:+ format_opt_str end_ in
               call (Call_get_runs (Some created))
                    (ApiOk (Workflow.get_runs workflow (Some created)))
           end) ;;
  run_spans <- for_each (process_run workflow) runs ;;
  ret (runs, run_spans).

(** [fetch_annotations(repo, job_id)] *)
Definition fetch_annotations (repo : Repository.t) (job_id : Z)
  : M (list Annotation.t * option string) :=
  try_except
    (check_run <- call (Call_get_check_run job_id)
                       (Repository.get_check_run repo job_id) ;;
     annotations <- call (Call_get_annotations job_id)
                         (CheckRun.get_annotations check_run) ;;
     ret (annotations, None))
    (fun e => ret ([], Some (str_exn e))).

(** The [if job.labels is None: ... else: ...] block of [process_jobs]:
    the object bound to [job_labels]. *)
Definition job_labels (l : labels) : labels :=
  match l with
  | LabelsNone => LabelsList []
  | LabelsList _ | LabelsTuple _ => l
  | LabelsStr _ => LabelsList (labels_items l)
  end.

Definition annotation_event (job : WorkflowJob.t) (job_started_at : Z)
    (item : Annotation.t) : Event.t :=
  Event.Build (of_opt_str (WorkflowJob.conclusion job))
    (<["title" := VStr (Annotation.title item)]>
       (<["annotation_level" := VStr (Annotation.annotation_level item)]>
          (<["message" := VStr (Annotation.message item)]> ∅)))
    job_started_at.

(** Body of the inner loop of [process_jobs]. *)
Definition process_job (repo : Repository.t) (parent_span : nat)
    (job : WorkflowJob.t) : M nat :=
  job_started_at <- lift (convert_time (WorkflowJob.started_at job)) ;;
  job_completed_at <- lift (convert_time (WorkflowJob.completed_at job)) ;;
  job_created_at <- lift (convert_time (WorkflowJob.created_at job)) ;;
  queue_time <- lift (Float64.truediv (job_started_at - job_created_at) 1000000000) ;;
  entered <- start_as_current_span (WorkflowJob.name job) job_started_at
                                   (Some parent_span) ;;
  let child_span := fst entered in
  set_attribute child_span "runs_on"
    (VStr (String.concat "" (labels_items (job_labels (WorkflowJob.labels job))))) ;;
  set_attribute child_span "execution.id" (VStr execution_id) ;;
  set_attribute child_span "job.id" (VInt (WorkflowJob.id job)) ;;
  set_attribute child_span "job.run_id" (VInt (WorkflowJob.run_id job)) ;;
  match WorkflowJob.run_attempt job with
  | None => set_attribute child_span "job.run_attempt" (VInt 1)
  | Some attempt => set_attribute child_span "job.run_attempt" (VInt attempt)
  end ;;
  match WorkflowJob.runner_group_id job with
  | Some group => set_attribute child_span "job.runner_group_id" (VInt group)
  | None => ret tt
  end ;;
  match WorkflowJob.runner_group_id job with
  | Some _ => set_attribute child_span "job.runner_group_name"
                            (of_opt_str (WorkflowJob.runner_group_name job))
  | None => ret tt
  end ;;
  match WorkflowJob.runner_name job with
  | Some runner => set_attribute child_span "job.runner_name" (VStr runner)
  | None => ret tt
  end ;;
  set_attribute child_span "job.started_at" (VInt job_started_at) ;;
  set_attribute child_span "job.completed_at" (VInt job_completed_at) ;;
  set_attribute child_span "job.created_at" (VInt job_created_at) ;;
  set_attribute child_span "job.queue_time_seconds" (VFloat queue_time) ;;
  fetched <- fetch_annotations repo (WorkflowJob.id job) ;;
  (if truthy (of_opt_str (snd fetched)) then ret tt
   else
     for_each (fun item => add_event child_span
                             (annotation_event job job_started_at item))
              (fst fetched) ;;
     ret tt) ;;
  (if is_failure (WorkflowJob.conclusion job) then
     let text := "Job " +:+ WorkflowJob.name job +:+ " failed" in
     set_status child_span text ;;
     set_attribute child_span "error" (VBool true) ;;
     set_attribute child_span "error.message" (VStr text)
   else ret tt) ;;
  end_span child_span job_completed_at ;;
  exit_context (snd entered) ;;
  ret child_span.

(** [process_jobs(runs, run_spans, repo)]: [all_jobs] and [job_spans]
    grow in step, run by run. *)
Definition process_jobs (runs : list WorkflowRun.t) (run_spans : list nat)
    (repo : Repository.t) : M (list WorkflowJob.t * list nat) :=
  per_run <- for_each
    (fun pair : WorkflowRun.t * nat =>
       jobs <- call (Call_jobs (WorkflowRun.id (fst pair)))
                    (ApiOk (WorkflowRun.jobs (fst pair))) ;;
       handles <- for_each (process_job repo (snd pair)) jobs ;;
       ret (jobs, handles))
    (zip runs run_spans) ;;
  ret (concat (map fst per_run), concat (map snd per_run)).

(** Body of the inner loop of [process_steps]. *)
Definition process_step (parent_span : nat) (step : WorkflowStep.t) : M nat :=
  step_started_at <- lift (convert_time (WorkflowStep.started_at step)) ;;
  step_completed_at <- lift (convert_time (WorkflowStep.completed_at step)) ;;
  entered <- start_as_current_span (WorkflowStep.name step) step_started_at
                                   (Some parent_span) ;;
  let grandchild_span := fst entered in
  set_attribute grandchild_span "execution.id" (VStr execution_id) ;;
  set_attribute grandchild_span "step.name" (VStr (WorkflowStep.name step)) ;;
  set_attribute grandchild_span "step.number" (VInt (WorkflowStep.number step)) ;;
  set_attribute grandchild_span "step.started_at" (VInt step_started_at) ;;
  set_attribute grandchild_span "step.completed_at" (VInt step_completed_at) ;;
  (if is_failure (WorkflowStep.conclusion step) then
     let text := "Step " +:+ WorkflowStep.name step +:+ " failed" in
     set_status grandchild_span text ;;
     set_attribute grandchild_span "error" (VBool true) ;;
     set_attribute grandchild_span "error.message" (VStr text)
   else ret tt) ;;
  end_span grandchild_span step_completed_at ;;
  exit_context (snd entered) ;;
  ret grandchild_span.

(** The loops of [process_steps], keeping the handle of every span they
    open next to the step it was opened for. *)
Definition process_steps_spans (jobs : list WorkflowJob.t) (job_spans : list nat)
  : M (list WorkflowStep.t * list nat) :=
  per_job <- for_each
    (fun pair : WorkflowJob.t * nat =>
       handles <- for_each (process_step (snd pair)) (WorkflowJob.steps (fst pair)) ;;
       ret (WorkflowJob.steps (fst pair), handles))
    (zip jobs job_spans) ;;
  ret (concat (map fst per_job), concat (map snd per_job)).

(** [process_steps(jobs, job_spans)] returns [all_steps] only. *)
Definition process_steps (jobs : list WorkflowJob.t) (job_spans : list nat)
  : M (list WorkflowStep.t) :=
  emitted <- process_steps_spans jobs job_spans ;;
  ret (fst emitted).

End Program.

(** ** Vocabulary of the statements *)

(** The three error markers of a span, with the text they carry. *)
Definition has_error_markers (sp : Span.t) (text : string) : Prop :=
  Span.status sp = StatusError text /\
  Span.attributes sp !! "error" = Some (VBool true) /\
  Span.attributes sp !! "error.message" = Some (VStr text).

Definition no_error_markers (sp : Span.t) : Prop :=
  Span.status sp = StatusUnset /\
  Span.attributes sp !! "error" = None /\
  Span.attributes sp !! "error.message" = None.

(** The span object behind a handle. *)
Definition span_at (w : world) (handle : nat) (sp : Span.t) : Prop :=
  spans w !! handle = Some sp.

(** [w'] holds every span object of [w], unchanged, and maybe more. *)
Definition extends (w w' : world) : Prop := spans w `prefix_of` spans w'.

(** Exactly one of [start], [end] was given. *)
Definition half_specified (kwargs : gmap string value) : Prop :=
  is_none (kwargs_get kwargs "start") <> is_none (kwargs_get kwargs "end").

(** What [fetch_annotations] hands back, read off the client's answers. *)
Definition fetched (repo : Repository.t) (job_id : Z)
  : list Annotation.t * option string :=
  match Repository.get_check_run repo job_id with
  | ApiFail msg => ([], Some msg)
  | ApiOk check_run =>
      match CheckRun.get_annotations check_run with
      | ApiFail msg => ([], Some msg)
      | ApiOk annotations => (annotations, None)
      end
  end.

Definition fetch_failed (repo : Repository.t) (job_id : Z) : Prop :=
  exists msg, fetched repo job_id = ([], Some msg).



(** The binary64 value of a positive integer below [2^53]. *)
Definition float_of_small_int (m : Z) : Float64.float :=
  S754_finite false (Z.to_pos (m * 2 ^ (53 - Zdigits2 m))) (Zdigits2 m - 53).

(** All events of a list added to a span, oldest first. *)
Definition add_events (evs : list Event.t) (sp : Span.t) : Span.t :=
  fold_left (fun sp ev => Span.add_event ev sp) evs sp.

(** When [process_runs] ends the span of a run, and at which time. *)
Definition run_end_time (run : WorkflowRun.t) : option Z :=
  if bool_decide (WorkflowRun.status run = Some "completed") then
    match convert_time (WorkflowRun.updated_at run) with
    | Ok t => if t =? 0 then None else Some t
    | Raise _ => None
    end
  else None.

(** What the span of a run, a job and a step looks like once its loop
    body is through. *)
Definition run_span_ok (run : WorkflowRun.t) (sp : Span.t) : Prop :=
  Span.name sp = run_name (WorkflowRun.path run) /\
  convert_time (WorkflowRun.run_started_at run) = Ok (Span.start_time sp) /\
  Span.end_time sp = run_end_time run /\
  Span.attributes sp !! "run.run_attempt"
    = Some (VInt (default 1 (WorkflowRun.run_attempt run))) /\
  (WorkflowRun.conclusion run = Some "failure" ->
   has_error_markers sp
     ("Run " +:+ pretty (WorkflowRun.run_number run) +:+ " failed")) /\
  (WorkflowRun.conclusion run <> Some "failure" -> no_error_markers sp).

Definition job_span_ok (repo : Repository.t) (job : WorkflowJob.t)
    (sp : Span.t) : Prop :=
  Span.name sp = WorkflowJob.name job /\
  convert_time (WorkflowJob.started_at job) = Ok (Span.start_time sp) /\
  (exists t, convert_time (WorkflowJob.completed_at job) = Ok t /\
             Span.end_time sp = Some t /\
             Span.attributes sp !! "job.completed_at" = Some (VInt t)) /\
  Span.attributes sp !! "job.run_attempt"
    = Some (VInt (default 1 (WorkflowJob.run_attempt job))) /\
  Span.attributes sp !! "runs_on"
    = Some (VStr (String.concat ""
                    (labels_items (job_labels (WorkflowJob.labels job))))) /\
  Span.events sp
    = (if truthy (of_opt_str (snd (fetched repo (WorkflowJob.id job)))) then []
       else map (annotation_event job (Span.start_time sp))
                (fst (fetched repo (WorkflowJob.id job)))) /\
  (WorkflowJob.conclusion job = Some "failure" ->
   has_error_markers sp ("Job " +:+ WorkflowJob.name job +:+ " failed")) /\
  (WorkflowJob.conclusion job <> Some "failure" -> no_error_markers sp).

Definition step_span_ok (step : WorkflowStep.t) (sp : Span.t) : Prop :=
  Span.name sp = WorkflowStep.name step /\
  (exists t, convert_time (WorkflowStep.completed_at step) = Ok t /\
             Span.end_time sp = Some t) /\
  (WorkflowStep.conclusion step = Some "failure" ->
   has_error_markers sp ("Step " +:+ WorkflowStep.name step +:+ " failed")) /\
  (WorkflowStep.conclusion step <> Some "failure" -> no_error_markers sp).



(** The failure contract of a span: the three markers with [text] exactly
    when the conclusion is "failure", and none of them otherwise. *)
Definition error_contract (conclusion : option string) (text : string)
    (sp : Span.t) : Prop :=
  (has_error_markers sp text <-> conclusion = Some "failure") /\
  (conclusion <> Some "failure" -> no_error_markers sp).

(** The attempt attribute holds an integer: 1 for an absent attempt
    number, the attempt number otherwise. *)
Definition attempt_attribute (key : string) (attempt : option Z)
    (sp : Span.t) : Prop :=
  exists n, Span.attributes sp !! key = Some (VInt n) /\
            (attempt = None -> n = 1) /\
            (forall a, attempt = Some a -> n = a).

(** Whole seconds after the epoch. *)
Definition at_second (s : Z) : datetime := Datetime (s * 1000000).

(** *** The display name as the specification words it

    "The filename component of the run's path, stripped of extension
    (basename minus suffix)": the suffix is the last dot of the name and
    what follows it. *)

Definition basename (path : string) : string :=
  List.last (split "/"%char path) "".

Fixpoint has_dot (s : string) : bool :=
  match s with
  | EmptyString => false
  | String c rest => Ascii.eqb c "."%char || has_dot rest
  end.

Fixpoint strip_suffix (name : string) : string :=
  match name with
  | EmptyString => EmptyString
  | String c rest =>
      if Ascii.eqb c "."%char && negb (has_dot rest) then EmptyString
      else String c (strip_suffix rest)
  end.

Definition spec_run_name (path : string) : string := strip_suffix (basename path).

(** The part of a name before its first dot. *)
Fixpoint before_first_dot (name : string) : string :=
  match name with
  | EmptyString => EmptyString
  | String c rest =>
      if Ascii.eqb c "."%char then EmptyString else String c (before_first_dot rest)
  end.

Fixpoint count_dots (s : string) : nat :=
  match s with
  | EmptyString => 0
  | String c rest => ((if Ascii.eqb c "."%char then 1 else 0) + count_dots rest)%nat
  end.

(** ** Concrete records used in the examples *)

Module Examples.

Definition execution_id : string := "0f8fad5b-d9cb-469f-a165-70867728950e".
Definition today_str (n : nat) : string := "2024-06-01 09:00:00.000000".

Definition run (number : Z) (updated : datetime) (status conclusion : string)
    (jobs : list WorkflowJob.t) : WorkflowRun.t :=
  WorkflowRun.Build (1000 + number) number (Some 1) "http://example.com" "push"
    "mock-run" (Some (utc 2024 1 1 12 0 0 0)) (Some updated)
    (Some status) (Some conclusion) ".github/workflows/ci.yml" jobs.

Definition step_ok : WorkflowStep.t :=
  WorkflowStep.Build "Checkout" 1 (Some (utc 2024 1 1 12 0 5 0))
    (Some (utc 2024 1 1 12 0 9 0)) (Some "success").

Definition step_failed : WorkflowStep.t :=
  WorkflowStep.Build "Test" 2 (Some (utc 2024 1 1 12 0 9 0))
    (Some (utc 2024 1 1 12 20 0 0)) (Some "failure").

Definition job (id : Z) (name : string) (attempt : option Z) (l : labels)
    (completed : option datetime) (conclusion : string) : WorkflowJob.t :=
  WorkflowJob.Build id name 1042 attempt l None None (Some "runner-1")
    (Some (utc 2024 1 1 12 0 5 0)) completed (Some (utc 2024 1 1 12 0 0 0))
    (Some conclusion) [step_ok; step_failed].

Definition job_failed : WorkflowJob.t :=
  job 7 "build" None (LabelsList ["ubuntu-latest"; "x64"])
      (Some (utc 2024 1 1 12 20 0 0)) "failure".

Definition job_ok : WorkflowJob.t :=
  job 8 "lint" (Some 3) (LabelsStr "self-hosted")
      (Some (utc 2024 1 1 12 10 0 0)) "success".

Definition job_in_progress : WorkflowJob.t :=
  WorkflowJob.Build 9 "deploy" 1044 None LabelsNone None None None
    (Some (utc 2024 1 1 12 20 0 0)) None (Some (utc 2024 1 1 12 19 0 0))
    None [].

Definition run_failed : WorkflowRun.t :=
  run 42 (utc 2024 1 1 12 30 0 0) "completed" "failure" [job_failed; job_ok].

Definition run_ok : WorkflowRun.t :=
  WorkflowRun.Build 1043 43 None "http://example.com" "push" "mock-run"
    (Some (utc 2024 1 1 12 0 0 0)) (Some (utc 2024 1 1 12 30 0 0))
    (Some "completed") (Some "success") "some/workflow/run/path/file.ext" [].

Definition run_in_progress : WorkflowRun.t :=
  run 44 (utc 2024 1 1 12 30 0 0) "in_progress" "failure" [job_in_progress].


Definition workflow (runs : list WorkflowRun.t) : Workflow.t :=
  Workflow.Build 7 "CI" (fun _ => runs).


Definition repo_forbidden : Repository.t :=
  Repository.Build "test-repo"
    (fun _ => ApiOk (CheckRun.Build (ApiFail "403 Forbidden"))).

Definition repo_annotated : Repository.t :=
  Repository.Build "test-repo"
    (fun _ => ApiOk (CheckRun.Build
                (ApiOk [Annotation.Build "Sample message" "warning" "Sample title"]))).

Definition client : Github.t := Github.Build (ApiOk "octocat").

(** [--repo r --workflow w --start 2024-01-01], no [--org], no [--end]. *)
Definition kwargs_start_only : gmap string value :=
  <["repo" := VStr "gha-otel"]>
    (<["workflow" := VStr "CI"]>
       (<["org" := VNone]>
          (<["start" := VStr "2024-01-01"]>
             (<["end" := VNone]>
                (<["skipsteps" := VBool false]> ∅))))).

Definition kwargs_start_only_org : gmap string value :=
  <["org" := VStr "isismoura"]> kwargs_start_only.

(** The emitters run one after the other from the initial world. *)
Definition runs : list WorkflowRun.t := [run_failed; run_ok].

Definition after_runs : result (list WorkflowRun.t * list nat) * world :=
  process_runs execution_id today_str (workflow runs) None None initial_world.

Definition after_jobs (repo : Repository.t)
  : result (list WorkflowJob.t * list nat) * world :=
  process_jobs execution_id runs [0%nat; 1%nat] repo (snd after_runs).

Definition after_steps : result (list WorkflowStep.t * list nat) * world :=
  process_steps_spans execution_id [job_failed; job_ok] [2%nat; 3%nat]
                      (snd (after_jobs repo_annotated)).

End Examples.

(** ** The rest of the program: the lookups and [main]

    [get_repo] and [get_workflow] ask the client for the repository and
    for its workflows.  What the client answers is a [Hosting.t]; these two
    requests are not entered in the call log of the world, which keeps the
    calls of [get_args] and of the emitters. *)

Module Hosting.
Record t : Type := Build {
  (* [g.get_repo(full_name)]: a repository, or the exception raised *)
  get_repo : string -> result Repository.t;
  (* [repo.get_workflows()], as the list it iterates to *)
  get_workflows : Repository.t -> list Workflow.t
}.
End Hosting.

Definition is_GithubException (e : exn) : bool :=
  match e with GithubException _ => true | _ => false end.

(** [try: body  except GithubException: handler] *)
Definition try_except_github {A} (body handler : M A) : M A :=
  fun w => match body w with
           | (Raise e, w') =>
               if is_GithubException e then handler w' else (Raise e, w')
           | r => r
           end.

(** [name == v] for a string [name] and an object [v]. *)
Definition str_eq_value (name : string) (v : value) : bool :=
  match v with
  | VStr s => String.eqb name s
  | _ => false
  end.

Section Orchestration.

Variable execution_id : string.
Variable g : Github.t.
Variable today_str : nat -> string.
Variable hosting : Hosting.t.
(** [repr] of a float, as the interpreter prints it in an f-string. *)
Variable float_repr : Float64.float -> string.

(** [f"{v}"] *)
Definition format_value (v : value) : string :=
  match v with
  | VNone => "None"
  | VBool true => "True"
  | VBool false => "False"
  | VInt n => pretty n
  | VFloat x => float_repr x
  | VStr s => s
  end.

(** [get_repo(org, repo_name)] *)
Definition get_repo (org repo_name : value) : M Repository.t :=
  try_except_github
    (repo <- lift (Hosting.get_repo hosting
                     (format_value org +:+ "/" +:+ format_value repo_name)) ;;
     ret repo)
    sys_exit.

(** The [for wf in workflows] loop of [get_workflow], which returns from
    the function at the first workflow of that name. *)
Fixpoint first_named (workflow_name : value) (workflows : list Workflow.t)
  : option Workflow.t :=
  match workflows with
  | [] => None
  | wf :: rest =>
      if str_eq_value (Workflow.name wf) workflow_name then Some wf
      else first_named workflow_name rest
  end.

(** [get_workflow(workflow_name, repo)]: after the loop [workflow] is still
    [None], and the process exits. *)
Definition get_workflow (workflow_name : value) (repo : Repository.t)
  : M Workflow.t :=
  match first_named workflow_name (Hosting.get_workflows hosting repo) with
  | Some workflow => ret workflow
  | None => sys_exit
  end.

(** An argument as [process_runs] sees it: [None], or an object that it
    only formats. *)
Definition as_opt_str (v : value) : option string :=
  match v with
  | VNone => None
  | _ => Some (format_value v)
  end.

(** [main], called with the keyword arguments [kwargs]. *)
Definition main (kwargs : gmap string value) : M unit :=
  args <- get_args g kwargs ;;
  let '(org, repo_name, workflow_name, start, end_, skip) := args in
  repo <- get_repo org repo_name ;;
  workflow <- get_workflow workflow_name repo ;;
  emitted_runs <- process_runs execution_id today_str workflow
                               (as_opt_str start) (as_opt_str end_) ;;
  emitted_jobs <- process_jobs execution_id (fst emitted_runs) (snd emitted_runs)
                               repo ;;
  (if negb skip then
     steps <- process_steps execution_id (fst emitted_jobs) (snd emitted_jobs) ;;
     ret tt
   else ret tt) ;;
  ret tt.

End Orchestration.

(** ** Vocabulary of the further statements *)

(** The [created] filter [process_runs] passes to [get_runs]. *)
Definition created_filter (start end_ : option string) : option string :=
  match start, end_ with
  | None, None => None
  | _, _ => Some (format_opt_str start +:+ ".." +:+ format_opt_str end_)
  end.

Fixpoint has_char (c : Ascii.ascii) (s : string) : bool :=
  match s with
  | EmptyString => false
  | String c' rest => Ascii.eqb c' c || has_char c rest
  end.

(** Every job (step) that a pairing of runs (jobs) with span handles goes
    through, next to the handle its record was paired with. *)
Definition jobs_with_parents (runs : list WorkflowRun.t) (run_spans : list nat)
  : list (WorkflowJob.t * nat) :=
  concat (map (fun pair : WorkflowRun.t * nat =>
                 map (fun job => (job, snd pair)) (WorkflowRun.jobs (fst pair)))
              (zip runs run_spans)).

Definition steps_with_parents (jobs : list WorkflowJob.t) (job_spans : list nat)
  : list (WorkflowStep.t * nat) :=
  concat (map (fun pair : WorkflowJob.t * nat =>
                 map (fun step => (step, snd pair)) (WorkflowJob.steps (fst pair)))
              (zip jobs job_spans)).

(** A span that has been ended. *)
Definition ended (sp : Span.t) : Prop := is_Some (Span.end_time sp).

(** The binary64 value of an integer of magnitude below [2^53]. *)
Definition float_of_exact_int (d : Z) : Float64.float :=
  match d with
  | Z0 => S754_zero false
  | Zpos _ => float_of_small_int d
  | Zneg _ => SFopp (float_of_small_int (- d))
  end.

(** An event that mirrors an annotation of a job. *)
Definition event_of_annotation (job : WorkflowJob.t) (sp : Span.t)
    (item : Annotation.t) (ev : Event.t) : Prop :=
  Event.name ev = of_opt_str (WorkflowJob.conclusion job) /\
  Event.timestamp ev = Span.start_time sp /\
  Event.attributes ev !! "message" = Some (VStr (Annotation.message item)) /\
  Event.attributes ev !! "annotation_level"
    = Some (VStr (Annotation.annotation_level item)) /\
  Event.attributes ev !! "title" = Some (VStr (Annotation.title item)) /\
  dom (Event.attributes ev) = ({["message"; "annotation_level"; "title"]} : gset string).

(** Further facts about the span of a job opened under [parent]: its
    parent, the queue time, and the runner attributes. *)
Definition job_span_more (parent : nat) (job : WorkflowJob.t) (sp : Span.t) : Prop :=
  Span.parent sp = Some parent /\
  (exists t0 t2 q,
      convert_time (WorkflowJob.started_at job) = Ok t0 /\
      convert_time (WorkflowJob.created_at job) = Ok t2 /\
      Float64.truediv (t0 - t2) 1000000000 = Ok q /\
      Span.attributes sp !! "job.queue_time_seconds" = Some (VFloat q)) /\
  Span.attributes sp !! "job.runner_group_id"
    = VInt <$> WorkflowJob.runner_group_id job /\
  Span.attributes sp !! "job.runner_group_name"
    = (fun _ => of_opt_str (WorkflowJob.runner_group_name job))
        <$> WorkflowJob.runner_group_id job /\
  Span.attributes sp !! "job.runner_name" = VStr <$> WorkflowJob.runner_name job.

Definition step_span_more (parent : nat) (step : WorkflowStep.t) (sp : Span.t)
  : Prop :=
  Span.parent sp = Some parent /\
  convert_time (WorkflowStep.started_at step) = Ok (Span.start_time sp).

(** From [w] to [w'] the span store has only grown, by spans that
    satisfy [Q]. *)
Definition adds_spans (Q : Span.t -> Prop) (w w' : world) : Prop :=
  exists sps, spans w' = spans w ++ sps /\ Forall Q sps.

(** The ambient span and the clock are the same in [w'] as in [w]. *)
Definition keeps_context (w w' : world) : Prop :=
  current w' = current w /\ clock_reads w' = clock_reads w.

(** A span that carries the ID of the execution. *)
Definition carries_execution_id (execution_id : string) (sp : Span.t) : Prop :=
  Span.attributes sp !! "execution.id" = Some (VStr execution_id).

(** What one round of the loops of [process_jobs] and [process_steps]
    keeps and adds, whatever its outcome. *)
Definition quiet (execution_id : string) (w w' : world) : Prop :=
  keeps_context w w' /\
  adds_spans (fun sp => ended sp /\ carries_execution_id execution_id sp) w w'.





(** ** Scenarios of the further statements *)

Module Scenarios.



(** A client that knows one repository, which has two workflows named
    "CI". *)
Definition workflows : list Workflow.t :=
  [Workflow.Build 3 "Release" (fun _ => []);
   Examples.workflow Examples.runs;
   Workflow.Build 9 "CI" (fun _ => [])].

Definition hosting : Hosting.t :=
  Hosting.Build
    (fun full_name =>
       if String.eqb full_name "isismoura/gha-otel" then Ok Examples.repo_annotated
       else Raise (GithubException "404 Not Found"))
    (fun _ => workflows).

(** No argument of the scenarios is a float. *)
Definition float_repr (x : Float64.float) : string := "nan".

(** [--org isismoura --repo gha-otel --workflow CI --skipsteps] *)
Definition kwargs : gmap string value :=
  <["repo" := VStr "gha-otel"]>
    (<["workflow" := VStr "CI"]>
       (<["org" := VStr "isismoura"]>
          (<["start" := VNone]>
             (<["end" := VNone]>
                (<["skipsteps" := VBool true]> ∅))))).

(** The same without [--skipsteps], and for a repository that is not
    there. *)
Definition kwargs_all_steps : gmap string value :=
  <["skipsteps" := VBool false]> kwargs.

Definition kwargs_unknown_repo : gmap string value :=
  <["repo" := VStr "nowhere"]> kwargs.

Definition run_main (kwargs : gmap string value) : result unit * world :=
  main Examples.execution_id Examples.client Examples.today_str hosting float_repr
       kwargs initial_world.

End Scenarios.

(** * Proofs *)

(** ** Binary64 rounding *)

Lemma digits2_pos_log2 (p : positive) : Z.pos (digits2_pos p) = Z.log2 (Z.pos p) + 1.
Proof.
  induction p as [p IH | p IH |]; simpl; try rewrite Pos2Z.inj_succ; try reflexivity.
  all: destruct p; simpl in *; lia.
Qed.

Lemma Zdigits2_log2 (m : Z) : 0 < m -> Zdigits2 m = Z.log2 m + 1.
Proof. destruct m; try lia. intros _. apply digits2_pos_log2. Qed.

Lemma Zdigits2_nonneg (m : Z) : 0 <= Zdigits2 m.
Proof. destruct m; simpl; lia. Qed.

Lemma Zdigits2_bound (m : Z) : 0 <= m -> m < 2 ^ Zdigits2 m.
Proof.
  intros Hm. destruct (Z.eq_dec m 0) as [-> | Hne]; [reflexivity |].
  rewrite Zdigits2_log2 by lia.
  pose proof (Z.log2_spec m ltac:(lia)) as [_ H].
  replace (Z.log2 m + 1) with (Z.succ (Z.log2 m)) by lia. exact H.
Qed.

Lemma Zdigits2_le (m : Z) (k : Z) : 0 <= k -> 0 <= m -> m < 2 ^ k -> Zdigits2 m <= k.
Proof.
  intros Hk Hm Hlt. destruct (Z.eq_dec m 0) as [-> | Hne]; [simpl; lia |].
  rewrite Zdigits2_log2 by lia.
  assert (Z.log2 m < k); [| lia].
  apply Z.log2_lt_pow2; lia.
Qed.

Lemma iter_pos_nat {A} (f : A -> A) (p : positive) (x : A) :
  SpecFloat.iter_pos f p x = Nat.iter (Pos.to_nat p) f x.
Proof.
  revert x. induction p as [p IH | p IH |]; intros x.
  - change (SpecFloat.iter_pos f p~1 x)
      with (SpecFloat.iter_pos f p (SpecFloat.iter_pos f p (f x))).
    rewrite !IH, Pos2Nat.inj_xI, <- Nat.iter_add, <- Nat.iter_succ_r.
    f_equal. lia.
  - change (SpecFloat.iter_pos f p~0 x)
      with (SpecFloat.iter_pos f p (SpecFloat.iter_pos f p x)).
    rewrite !IH, Pos2Nat.inj_xO, <- Nat.iter_add. f_equal. lia.
  - reflexivity.
Qed.




Lemma fexp64 (x : Z) : fexp 53 1024 x = Z.max (x - 53) (-1074).
Proof. reflexivity. Qed.






Lemma shr_iter_exact (n : nat) (k : Z) :
  0 <= k ->
  Nat.iter n shr_1 (Build_shr_record (k * 2 ^ Z.of_nat n) false false)
  = Build_shr_record k false false.
Proof.
  revert k. induction n as [| n IH]; intros k Hk.
  - simpl. now rewrite Z.mul_1_r.
  - simpl Nat.iter. rewrite Nat2Z.inj_succ, Z.pow_succ_r by lia.
    replace (k * (2 * 2 ^ Z.of_nat n)) with ((2 * k) * 2 ^ Z.of_nat n) by ring.
    rewrite IH by lia. destruct k as [| p | p]; [reflexivity | reflexivity | lia].
Qed.

Lemma binary_round_aux_exact (s : bool) (k n e : Z) :
  2 ^ 52 <= k < 2 ^ 53 -> 0 <= n -> -1074 <= e + n <= 971 ->
  binary_round_aux 53 1024 s (k * 2 ^ n) e loc_Exact
  = S754_finite s (Z.to_pos k) (e + n).
Proof.
  intros Hk Hn He.
  assert (Hdk : Zdigits2 k = 53).
  { rewrite Zdigits2_log2 by lia.
    assert (Z.log2 k = 52); [| lia].
    apply Z.log2_unique; lia. }
  assert (Hd : Zdigits2 (k * 2 ^ n) = 53 + n).
  { rewrite Zdigits2_log2 by (apply Z.mul_pos_pos; [lia | apply Z.pow_pos_nonneg; lia]).
    rewrite Z.log2_mul_pow2 by lia.
    rewrite Zdigits2_log2 in Hdk by lia. lia. }
  unfold binary_round_aux, shr_fexp. rewrite Hd, fexp64.
  replace (Z.max (53 + n + e - 53) (-1074) - e) with n by lia.
  assert (Hshr : shr (shr_record_of_loc (k * 2 ^ n) loc_Exact) e n
                 = (Build_shr_record k false false, e + n)).
  { destruct n as [| p | p]; [| | lia].
    - simpl. rewrite Z.mul_1_r. f_equal. lia.
    - unfold shr. rewrite iter_pos_nat. simpl shr_record_of_loc.
      rewrite <- (positive_nat_Z p) at 1. rewrite shr_iter_exact by lia.
      reflexivity. }
  rewrite Hshr. simpl shr_m. simpl loc_of_shr_record. simpl round_nearest_even.
  rewrite Hdk, fexp64.
  replace (Z.max (53 + (e + n) - 53) (-1074) - (e + n)) with 0 by lia.
  simpl shr. destruct k as [| p | p]; [lia | | lia].
  simpl. change (1024 - 53) with 971.
  replace (e + n <=? 971) with true by (symmetry; apply Z.leb_le; lia).
  reflexivity.
Qed.






Lemma of_int_1e9 :
  Float64.of_int 1000000000 = S754_finite false 8388608000000000 (-23).
Proof. reflexivity. Qed.


Lemma Zdigits2_lower (m : Z) : 0 < m -> 2 ^ (Zdigits2 m - 1) <= m.
Proof.
  intros Hm. rewrite Zdigits2_log2 by assumption.
  replace (Z.log2 m + 1 - 1) with (Z.log2 m) by lia.
  apply Z.log2_spec. assumption.
Qed.

Lemma normalized_bounds (m : Z) :
  0 < m -> Zdigits2 m <= 53 ->
  2 ^ 52 <= m * 2 ^ (53 - Zdigits2 m) < 2 ^ 53.
Proof.
  intros Hm Hd.
  pose proof (Zdigits2_lower m Hm) as Hlo.
  pose proof (Zdigits2_bound m ltac:(lia)) as Hhi.
  assert (Hd1 : 1 <= Zdigits2 m) by (rewrite Zdigits2_log2 by lia; pose proof (Z.log2_nonneg m); lia).
  assert (Hp : 0 < 2 ^ (53 - Zdigits2 m)) by (apply Z.pow_pos_nonneg; lia).
  replace (2 ^ 52) with (2 ^ (Zdigits2 m - 1) * 2 ^ (53 - Zdigits2 m))
    by (rewrite <- Z.pow_add_r by lia; f_equal; lia).
  replace (2 ^ 53) with (2 ^ Zdigits2 m * 2 ^ (53 - Zdigits2 m))
    by (rewrite <- Z.pow_add_r by lia; f_equal; lia).
  split; nia.
Qed.

Lemma truediv_whole_seconds (s : Z) :
  0 < s -> s * 1000000 < 2 ^ 53 ->
  Float64.truediv (s * 1000000) 1000000 = Ok (float_of_small_int s).
Proof.
  intros Hs Hlt. unfold Float64.truediv.
  change (1000000 =? 0) with false. cbv iota.
  replace (s * 1000000 =? 0) with false by (symmetry; apply Z.eqb_neq; lia).
  replace (s * 1000000 <? 0) with false by (symmetry; apply Z.ltb_ge; lia).
  change (1000000 <? 0) with false. cbv iota.
  rewrite Z.abs_eq by lia. change (Z.abs 1000000) with 1000000.
  set (ds := Zdigits2 s). set (d1 := Zdigits2 (s * 1000000)).
  assert (Hds : ds <= 53) by (apply Zdigits2_le; lia).
  assert (Hds1 : 1 <= ds).
  { unfold ds. rewrite Zdigits2_log2 by lia. pose proof (Z.log2_nonneg s). lia. }
  assert (Hd1 : ds <= d1 <= ds + 20).
  { split.
    - unfold ds. apply Zdigits2_le; [unfold d1; apply Zdigits2_nonneg | lia |].
      pose proof (Zdigits2_bound (s * 1000000) ltac:(lia)). fold d1 in H. lia.
    - unfold d1. apply Zdigits2_le; [lia | lia |].
      rewrite Z.pow_add_r by lia. pose proof (Zdigits2_bound s ltac:(lia)) as Hb.
      fold ds in Hb. change (2 ^ 20) with 1048576. lia. }
  assert (Hd153 : d1 <= 53) by (apply Zdigits2_le; lia).
  assert (Hcore : SFdiv_core_binary Float64.prec Float64.emax (s * 1000000) 0 1000000 0
                  = (s * 2 ^ (73 - d1), d1 - 73, loc_Exact)).
  { unfold SFdiv_core_binary, Float64.prec, Float64.emax. fold d1.
    change (Zdigits2 1000000) with 20. rewrite fexp64.
    replace (Z.min (Z.max (d1 + 0 - (20 + 0) - 53) (-1074)) (0 - 0)) with (d1 - 73) by lia.
    destruct (0 - 0 - (d1 - 73)) as [| p | p] eqn:Hsh; [lia | | lia].
    rewrite Z.shiftl_mul_pow2 by lia. rewrite <- Hsh.
    replace (0 - 0 - (d1 - 73)) with (73 - d1) by lia.
    pose proof (Z_div_mod (s * 1000000 * 2 ^ (73 - d1)) 1000000 ltac:(lia)) as Hdm.
    destruct (Z.div_eucl (s * 1000000 * 2 ^ (73 - d1)) 1000000) as [q r].
    destruct Hdm as [Hdm Hr].
    assert (q = s * 2 ^ (73 - d1) /\ r = 0) as [-> ->].
    { generalize dependent (2 ^ (73 - d1)). intros X HX. nia. }
    reflexivity. }
  rewrite Hcore.
  replace (s * 2 ^ (73 - d1)) with ((s * 2 ^ (53 - ds)) * 2 ^ (20 + ds - d1))
    by (rewrite <- Z.mul_assoc, <- Z.pow_add_r by lia; do 2 f_equal; lia).
  unfold Float64.prec, Float64.emax.
  rewrite binary_round_aux_exact;
    [| apply normalized_bounds; [lia | exact Hds] | lia | lia].
  unfold float_of_small_int. fold ds. do 2 f_equal. lia.
Qed.

Lemma mul_1e9_whole_seconds (s : Z) :
  0 < s -> s * 1000000000 < 2 ^ 62 ->
  Float64.to_int (Float64.mul (float_of_small_int s) (Float64.of_int 1000000000))
  = Ok (s * 1000000000).
Proof.
  intros Hs Hlt. rewrite of_int_1e9.
  set (Q := s * 1953125).
  assert (HQ : 0 < Q < 2 ^ 53) by (unfold Q; lia).
  set (ds := Zdigits2 s). set (dQ := Zdigits2 Q).
  assert (Hds : 1 <= ds <= 33).
  { split.
    - unfold ds. rewrite Zdigits2_log2 by lia. pose proof (Z.log2_nonneg s). lia.
    - apply Zdigits2_le; lia. }
  assert (HdQ : 1 <= dQ <= 53).
  { split.
    - unfold dQ. rewrite Zdigits2_log2 by lia. pose proof (Z.log2_nonneg Q). lia.
    - apply Zdigits2_le; lia. }
  pose proof (normalized_bounds s Hs ltac:(fold ds; lia)) as Hks. fold ds in Hks.
  pose proof (normalized_bounds Q ltac:(lia) ltac:(fold dQ; lia)) as HkQ. fold dQ in HkQ.
  unfold float_of_small_int, Float64.mul, SFmul. fold ds.
  rewrite Pos2Z.inj_mul, Z2Pos.id by lia.
  change (Z.pos 8388608000000000) with (1953125 * 2 ^ 32).
  replace (s * 2 ^ (53 - ds) * (1953125 * 2 ^ 32))
    with ((Q * 2 ^ (53 - dQ)) * 2 ^ (32 - ds + dQ)).
  2:{ unfold Q. rewrite <- !Z.mul_assoc. f_equal.
      rewrite (Z.mul_comm (2 ^ (53 - ds))), <- !Z.mul_assoc. f_equal.
      rewrite <- !Z.pow_add_r by lia. f_equal. lia. }
  rewrite binary_round_aux_exact by lia. simpl xorb.
  unfold Float64.to_int, cond_Zopp. rewrite Z2Pos.id by lia. f_equal.
  replace (ds - 53 + -23 + (32 - ds + dQ)) with (dQ - 44) by lia.
  replace (s * 1000000000) with (Q * 2 ^ 9) by (unfold Q; change (2 ^ 9) with 512; lia).
  destruct (Z_lt_le_dec dQ 44) as [Hneg | Hpos].
  - rewrite Z.shiftl_div_pow2 by lia.
    replace (Q * 2 ^ (53 - dQ)) with (Q * 2 ^ 9 * 2 ^ (- (dQ - 44)))
      by (rewrite <- Z.mul_assoc, <- Z.pow_add_r by lia; do 2 f_equal; lia).
    apply Z.div_mul. apply Z.pow_nonzero; lia.
  - rewrite Z.shiftl_mul_pow2 by lia.
    rewrite <- Z.mul_assoc, <- Z.pow_add_r by lia. do 2 f_equal. lia.
Qed.

Lemma convert_time_exact_on_seconds (s : Z) :
  0 <= s -> s * 1000000000 < 2 ^ 62 ->
  convert_time (Some (Datetime (s * 1000000))) = Ok (s * 1000000000).
Proof.
  intros Hs Hlt. destruct (Z.eq_dec s 0) as [-> | Hne]; [reflexivity |].
  unfold convert_time, timestamp. simpl epoch_us.
  rewrite truediv_whole_seconds by lia.
  apply mul_1e9_whole_seconds; lia.
Qed.

(** ** The world only grows *)

Lemma extends_refl (w : world) : extends w w.
Proof. unfold extends. reflexivity. Qed.

Lemma extends_trans (w1 w2 w3 : world) :
  extends w1 w2 -> extends w2 w3 -> extends w1 w3.
Proof. unfold extends. intros H12 H23. etrans; eassumption. Qed.

Lemma span_at_extends (w w' : world) (h : nat) (sp : Span.t) :
  span_at w h sp -> extends w w' -> span_at w' h sp.
Proof.
  unfold span_at, extends. intros Hl [ext ->]. now apply lookup_app_l_Some.
Qed.

Lemma alter_last {A} (f : A -> A) (l : list A) (x : A) :
  alter f (length l) (l ++ [x]) = l ++ [f x].
Proof.
  induction l as [| y l IH]; [reflexivity |]. simpl. f_equal. exact IH.
Qed.

Lemma lookup_last {A} (l : list A) (x : A) : (l ++ [x]) !! length l = Some x.
Proof. induction l; simpl; auto. Qed.

Lemma appended_one (w w' : world) (h : nat) (sp : Span.t) :
  h = length (spans w) -> spans w' = spans w ++ [sp] ->
  extends w w' /\ span_at w' h sp.
Proof.
  intros -> Hs. unfold extends, span_at. rewrite Hs. split.
  - now exists [sp].
  - apply lookup_last.
Qed.

(** ** Loops *)

Section Loops.
Context {A B : Type}.
Variable body : A -> M B.
Variable R : A -> B -> world -> Prop.
Hypothesis R_stable : forall x b w w', R x b w -> extends w w' -> R x b w'.
Hypothesis body_ok :
  forall x w b w', body x w = (Ok b, w') -> extends w w' /\ R x b w'.

Lemma for_each_ok (l : list A) :
  forall w bs w',
    for_each body l w = (Ok bs, w') ->
    extends w w' /\ Forall2 (fun x b => R x b w') l bs.
Proof.
  induction l as [| x l IH]; intros w bs w' Hrun.
  - injection Hrun as <- <-. split; [apply extends_refl | constructor].
  - simpl in Hrun. unfold bind in Hrun.
    destruct (body x w) as [[b | e] w1] eqn:Hb; [| discriminate].
    destruct (for_each body l w1) as [[bs1 | e] w2] eqn:Hl; [| discriminate].
    injection Hrun as <- <-.
    apply body_ok in Hb as [Hext1 HR]. apply IH in Hl as [Hext2 Hall].
    split; [eapply extends_trans; eassumption |].
    constructor; [eapply R_stable; eassumption | exact Hall].
Qed.
End Loops.

Lemma for_each_raises {A B} (body : A -> M B) (l : list A) (x : A) :
  x ∈ l ->
  (forall w, exists e w', body x w = (Raise e, w')) ->
  forall w, exists e w', for_each body l w = (Raise e, w').
Proof.
  intros Hin Hx. induction l as [| y l IH]; intros w; [inversion Hin |].
  simpl. unfold bind.
  destruct (body y w) as [[b | e] w1] eqn:Hb; [| eauto].
  apply elem_of_cons in Hin as [-> | Hin].
  - destruct (Hx w) as (e & w' & He). congruence.
  - destruct (IH Hin w1) as (e & w' & ->). eauto.
Qed.


Lemma for_each_length {A B} (body : A -> M B) (l : list A) (w : world)
    (bs : list B) (w' : world) :
  for_each body l w = (Ok bs, w') -> length bs = length l.
Proof.
  revert w bs w'. induction l as [| x l IH]; intros w bs w' Hrun.
  - now injection Hrun as <- <-.
  - simpl in Hrun. unfold bind in Hrun.
    destruct (body x w) as [[b | e] w1]; [| discriminate].
    destruct (for_each body l w1) as [[bs1 | e] w2] eqn:Hl; [| discriminate].
    injection Hrun as <- <-. simpl. f_equal. eapply IH. eassumption.
Qed.

Lemma Forall2_concat_concat {A B} (P : A -> B -> Prop)
    (xss : list (list A)) (yss : list (list B)) :
  Forall2 (Forall2 P) xss yss -> Forall2 P (concat xss) (concat yss).
Proof.
  induction 1 as [| xs ys xss yss Hxy _ IH]; [constructor |].
  simpl. now apply Forall2_app.
Qed.

(** ** Spans under the updates of a loop body *)

Ltac unfold_py :=
  unfold bind, ret, lift, raise, sys_exit, call, touch, start_as_current_span,
    exit_context, set_attribute, set_status, add_event, end_span, update_span,
    datetime_today;
  cbn [fst snd calls spans current clock_reads].

Ltac unfold_py_but_events :=
  unfold bind, ret, lift, raise, sys_exit, call, touch, start_as_current_span,
    exit_context, set_attribute, set_status, end_span, update_span,
    datetime_today;
  cbn [fst snd calls spans current clock_reads].

Ltac span_fields :=
  cbn [Span.name Span.parent Span.start_time Span.end_time Span.attributes
       Span.events Span.status Span.start Span.set_attribute Span.set_status
       Span.add_event Span.end_].

Ltac lookup_attr :=
  repeat first [ rewrite lookup_insert_eq
               | rewrite lookup_insert_ne by discriminate
               | rewrite lookup_empty ];
  try reflexivity.

Lemma add_events_fields (evs : list Event.t) (sp : Span.t) :
  Span.name (add_events evs sp) = Span.name sp /\
  Span.start_time (add_events evs sp) = Span.start_time sp /\
  Span.end_time (add_events evs sp) = Span.end_time sp /\
  Span.attributes (add_events evs sp) = Span.attributes sp /\
  Span.status (add_events evs sp) = Span.status sp /\
  Span.events (add_events evs sp) = Span.events sp ++ evs.
Proof.
  unfold add_events. revert sp. induction evs as [| ev evs IH]; intros sp; simpl.
  - now rewrite app_nil_r.
  - destruct (IH (Span.add_event ev sp)) as (H1 & H2 & H3 & H4 & H5 & H6).
    rewrite H1, H2, H3, H4, H5, H6. span_fields.
    now rewrite <- app_assoc.
Qed.

Lemma for_each_add_event {A} (h : nat) (f : A -> Event.t) (items : list A)
    (w : world) :
  exists us,
    for_each (fun item => add_event h (f item)) items w
    = (Ok us, World (calls w) (alter (add_events (map f items)) h (spans w))
                    (current w) (clock_reads w)).
Proof.
  revert w. induction items as [| item items IH]; intros w.
  - exists []. destruct w as [c s cu k]. simpl. unfold ret. simpl.
    rewrite list_alter_id by reflexivity. reflexivity.
  - destruct (IH (World (calls w) (alter (Span.add_event (f item)) h (spans w))
                        (current w) (clock_reads w))) as [us Hus].
    cbn [for_each]. unfold bind. unfold add_event at 1, update_span at 1.
    rewrite Hus. unfold ret. eexists. cbn [calls spans current clock_reads].
    rewrite list_alter_alter_eq. reflexivity.
Qed.

Lemma fetch_annotations_run (repo : Repository.t) (job_id : Z) (w : world) :
  exists log,
    fetch_annotations repo job_id w
    = (Ok (fetched repo job_id),
       World (calls w ++ log) (spans w) (current w) (clock_reads w)).
Proof.
  unfold fetch_annotations, try_except, fetched. unfold_py.
  destruct (Repository.get_check_run repo job_id) as [check_run | msg].
  - cbn [calls]. destruct (CheckRun.get_annotations check_run) as [anns | msg];
      cbn; eexists; rewrite <- app_assoc; reflexivity.
  - cbn. eexists. reflexivity.
Qed.

(** ** The loop bodies *)

Section Bodies.
Variable execution_id : string.
Variable today_str : nat -> string.

Lemma process_step_ok (parent : nat) (step : WorkflowStep.t)
    (w : world) (h : nat) (w' : world) :
  process_step execution_id parent step w = (Ok h, w') ->
  h = length (spans w) /\
  exists sp, spans w' = spans w ++ [sp] /\ step_span_ok step sp.
Proof.
  unfold process_step. unfold_py.
  destruct (convert_time (WorkflowStep.started_at step)) as [t0 | e];
    [| discriminate].
  destruct (convert_time (WorkflowStep.completed_at step)) as [t1 | e] eqn:Ht1;
    [| discriminate].
  unfold is_failure. case_bool_decide as Hc; unfold_py; intros [= <- <-];
    (split; [reflexivity |]); rewrite !alter_last; eexists;
    (split; [reflexivity |]); unfold step_span_ok; span_fields;
    (split; [reflexivity |]); (split; [eauto |]).
  - split; [| intros; contradiction].
    intros _. unfold has_error_markers. span_fields. repeat split; lookup_attr.
  - split; [intros; contradiction |].
    intros _. unfold no_error_markers. span_fields. repeat split; lookup_attr.
Qed.

Lemma process_run_ok (workflow : Workflow.t) (run : WorkflowRun.t)
    (w : world) (h : nat) (w' : world) :
  process_run execution_id today_str workflow run w = (Ok h, w') ->
  h = length (spans w) /\
  exists sp, spans w' = spans w ++ [sp] /\ run_span_ok run sp.
Proof.
  unfold process_run, run_span_ok, run_end_time. unfold_py.
  destruct (convert_time (WorkflowRun.run_started_at run)) as [t0 | e];
    [| discriminate].
  case_bool_decide as Hst.
  - destruct (convert_time (WorkflowRun.updated_at run)) as [t1 | e];
      [| discriminate].
    unfold_py. cbn [truthy].
    destruct (WorkflowRun.run_attempt run) as [attempt |];
      unfold is_failure; case_bool_decide as Hc; destruct (t1 =? 0);
      unfold_py; intros [= <- <-]; (split; [reflexivity |]);
      rewrite !alter_last; eexists; (split; [reflexivity |]); span_fields;
      (split; [reflexivity |]); (split; [reflexivity |]);
      (split; [reflexivity |]); (split; [lookup_attr |]);
      unfold has_error_markers, no_error_markers; span_fields;
      (split; [intros Hf | intros Hf]); try contradiction;
      repeat split; lookup_attr.
  - unfold_py. cbn [truthy].
    destruct (WorkflowRun.run_attempt run) as [attempt |];
      unfold is_failure; case_bool_decide as Hc;
      unfold_py; intros [= <- <-]; (split; [reflexivity |]);
      rewrite !alter_last; eexists; (split; [reflexivity |]); span_fields;
      (split; [reflexivity |]); (split; [reflexivity |]);
      (split; [reflexivity |]); (split; [lookup_attr |]);
      unfold has_error_markers, no_error_markers; span_fields;
      (split; [intros Hf | intros Hf]); try contradiction;
      repeat split; lookup_attr.
Qed.
End Bodies.

Ltac add_events_simpl :=
  span_fields;
  repeat match goal with
         | |- context [Span.name (add_events ?evs ?sp)] =>
             rewrite (proj1 (add_events_fields evs sp))
         | |- context [Span.start_time (add_events ?evs ?sp)] =>
             rewrite (proj1 (proj2 (add_events_fields evs sp)))
         | |- context [Span.end_time (add_events ?evs ?sp)] =>
             rewrite (proj1 (proj2 (proj2 (add_events_fields evs sp))))
         | |- context [Span.attributes (add_events ?evs ?sp)] =>
             rewrite (proj1 (proj2 (proj2 (proj2 (add_events_fields evs sp)))))
         | |- context [Span.status (add_events ?evs ?sp)] =>
             rewrite (proj1 (proj2 (proj2 (proj2 (proj2 (add_events_fields evs sp))))))
         | |- context [Span.events (add_events ?evs ?sp)] =>
             rewrite (proj2 (proj2 (proj2 (proj2 (proj2 (add_events_fields evs sp))))))
         end;
  span_fields.

Section JobBody.
Variable execution_id : string.

Lemma process_job_ok (repo : Repository.t) (parent : nat)
    (job : WorkflowJob.t) (w : world) (h : nat) (w' : world) :
  process_job execution_id repo parent job w = (Ok h, w') ->
  h = length (spans w) /\
  exists sp, spans w' = spans w ++ [sp] /\ job_span_ok repo job sp.
Proof.
  unfold process_job, job_span_ok. unfold_py_but_events.
  destruct (convert_time (WorkflowJob.started_at job)) as [t0 | e];
    [| discriminate].
  destruct (convert_time (WorkflowJob.completed_at job)) as [t1 | e];
    [| discriminate].
  destruct (convert_time (WorkflowJob.created_at job)) as [t2 | e];
    [| discriminate].
  destruct (Float64.truediv (t0 - t2) 1000000000) as [q | e]; [| discriminate].
  destruct (WorkflowJob.run_attempt job) as [attempt |];
    destruct (WorkflowJob.runner_group_id job) as [group |];
    destruct (WorkflowJob.runner_name job) as [runner |];
    unfold_py_but_events;
    match goal with
    | |- context [fetch_annotations ?r ?i ?w0] =>
        destruct (fetch_annotations_run r i w0) as [log ->]
    end;
    cbn [fst snd calls spans current clock_reads];
    destruct (truthy (of_opt_str (snd (fetched repo (WorkflowJob.id job)))));
    try match goal with
    | |- context [for_each (fun item => add_event ?hh (@?f item)) ?items ?w0] =>
        destruct (for_each_add_event hh f items w0) as [us ->]
    end;
    unfold is_failure; case_bool_decide as Hc; unfold_py;
    intros [= <- <-]; (split; [reflexivity |]);
    rewrite !alter_last; eexists; (split; [reflexivity |]);
    add_events_simpl;
    span_fields;
    (split; [reflexivity |]); (split; [reflexivity |]);
    (split; [eexists; split; [reflexivity |]; split; [reflexivity | lookup_attr] |]);
    (split; [lookup_attr |]); (split; [lookup_attr |]);
    (split; [reflexivity |]);
    unfold has_error_markers, no_error_markers; add_events_simpl;
    (split; [intros Hf | intros Hf]); try contradiction;
    repeat split; lookup_attr.
Qed.
End JobBody.

(** ** The three emitters *)

Section Emitters.
Variable execution_id : string.
Variable today_str : nat -> string.

Lemma process_runs_ok (workflow : Workflow.t) (start end_ : option string)
    (w : world) (runs : list WorkflowRun.t) (hs : list nat) (w' : world) :
  process_runs execution_id today_str workflow start end_ w = (Ok (runs, hs), w') ->
  extends w w' /\
  Forall2 (fun run h => exists sp, span_at w' h sp /\ run_span_ok run sp) runs hs.
Proof.
  unfold process_runs. unfold bind at 1.
  set (listed := match start, end_ with
                 | None, None => _
                 | _, _ => _
                 end).
  assert (Hlisted : exists rs log,
             listed w = (Ok rs, World (calls w ++ log) (spans w) (current w)
                                      (clock_reads w))).
  { unfold listed. destruct start, end_; unfold call; eauto. }
  destruct Hlisted as (rs & log & ->). unfold bind.
  destruct (for_each _ rs _) as [[handles | e] w1] eqn:Hloop; [| discriminate].
  unfold ret. intros [= <- <- <-].
  eapply (for_each_ok _
            (fun run h wx => exists sp, span_at wx h sp /\ run_span_ok run sp))
    in Hloop.
  - destruct Hloop as [Hext Hall]. split; [exact Hext | exact Hall].
  - intros x b wa wb (sp & Hat & Hok) Hext.
    exists sp. split; [eapply span_at_extends; eassumption | exact Hok].
  - intros x wa b wb Hbody.
    apply process_run_ok in Hbody as (Hh & sp & Hsp & Hok).
    destruct (appended_one wa wb b sp Hh Hsp) as [Hext Hat].
    split; [exact Hext | eauto].
Qed.

Lemma process_jobs_ok (runs : list WorkflowRun.t) (run_spans : list nat)
    (repo : Repository.t) (w : world) (jobs : list WorkflowJob.t)
    (hs : list nat) (w' : world) :
  process_jobs execution_id runs run_spans repo w = (Ok (jobs, hs), w') ->
  extends w w' /\
  jobs = concat (map (fun pair => WorkflowRun.jobs (fst pair)) (zip runs run_spans)) /\
  Forall2 (fun job h => exists sp, span_at w' h sp /\ job_span_ok repo job sp)
          jobs hs.
Proof.
  unfold process_jobs. unfold bind at 1.
  destruct (for_each _ (zip runs run_spans) w) as [[per_run | e] w1] eqn:Hloop;
    [| discriminate].
  unfold ret. intros [= <- <- <-].
  eapply (for_each_ok _
            (fun (pair : WorkflowRun.t * nat) (out : list WorkflowJob.t * list nat) wx =>
               fst out = WorkflowRun.jobs (fst pair) /\
               Forall2 (fun job h => exists sp, span_at wx h sp /\ job_span_ok repo job sp)
                       (fst out) (snd out))) in Hloop.
  - destruct Hloop as [Hext Hall]. split; [exact Hext |]. split.
    + clear Hext. induction Hall as [| pair out ps outs [Hj _] _ IH];
        [reflexivity |]. simpl. now rewrite Hj, IH.
    + apply Forall2_concat_concat.
      clear Hext. induction Hall as [| pair out ps outs [_ Hf] _ IH];
        constructor; assumption.
  - intros pair out wa wb [Hj Hall] Hext. split; [exact Hj |].
    eapply Forall2_impl; [exact Hall |].
    intros job h (sp & Hat & Hok). exists sp.
    split; [eapply span_at_extends; eassumption | exact Hok].
  - intros [run parent] wa out wb. cbn [fst snd]. unfold bind, call, ret.
    destruct (for_each (process_job execution_id repo parent)
                       (WorkflowRun.jobs run) _) as [[handles | e] wc] eqn:Hin;
      [| discriminate].
    intros [= <- <-]. cbn [fst snd].
    eapply (for_each_ok _
              (fun job h wx => exists sp, span_at wx h sp /\ job_span_ok repo job sp))
      in Hin.
    + destruct Hin as [Hext Hall]. split; [exact Hext | split; [reflexivity | exact Hall]].
    + intros x b wx wy (sp & Hat & Hok) Hext.
      exists sp. split; [eapply span_at_extends; eassumption | exact Hok].
    + intros x wx b wy Hbody.
      apply process_job_ok in Hbody as (Hh & sp & Hsp & Hok).
      destruct (appended_one wx wy b sp Hh Hsp) as [Hext Hat].
      split; [exact Hext | eauto].
Qed.

Lemma process_steps_spans_ok (jobs : list WorkflowJob.t) (job_spans : list nat)
    (w : world) (steps : list WorkflowStep.t) (hs : list nat) (w' : world) :
  process_steps_spans execution_id jobs job_spans w = (Ok (steps, hs), w') ->
  extends w w' /\
  Forall2 (fun step h => exists sp, span_at w' h sp /\ step_span_ok step sp)
          steps hs.
Proof.
  unfold process_steps_spans. unfold bind at 1.
  destruct (for_each _ (zip jobs job_spans) w) as [[per_job | e] w1] eqn:Hloop;
    [| discriminate].
  unfold ret. intros [= <- <- <-].
  eapply (for_each_ok _
            (fun (pair : WorkflowJob.t * nat) (out : list WorkflowStep.t * list nat) wx =>
               Forall2 (fun step h => exists sp, span_at wx h sp /\ step_span_ok step sp)
                       (fst out) (snd out))) in Hloop.
  - destruct Hloop as [Hext Hall]. split; [exact Hext |].
    apply Forall2_concat_concat.
    clear Hext. induction Hall; constructor; assumption.
  - intros pair out wa wb Hall Hext.
    eapply Forall2_impl; [exact Hall |].
    intros step h (sp & Hat & Hok). exists sp.
    split; [eapply span_at_extends; eassumption | exact Hok].
  - intros [job parent] wa out wb. cbn [fst snd]. unfold bind, ret.
    destruct (for_each (process_step execution_id parent)
                       (WorkflowJob.steps job) wa) as [[handles | e] wc] eqn:Hin;
      [| discriminate].
    intros [= <- <-]. cbn [fst snd].
    eapply (for_each_ok _
              (fun step h wx => exists sp, span_at wx h sp /\ step_span_ok step sp))
      in Hin.
    + exact Hin.
    + intros x b wx wy (sp & Hat & Hok) Hext.
      exists sp. split; [eapply span_at_extends; eassumption | exact Hok].
    + intros x wx b wy Hbody.
      apply process_step_ok in Hbody as (Hh & sp & Hsp & Hok).
      destruct (appended_one wx wy b sp Hh Hsp) as [Hext Hat].
      split; [exact Hext | eauto].
Qed.
End Emitters.

(** ** The emitters return when the timestamps are there *)

Section Totality.
Variable execution_id : string.
Variable today_str : nat -> string.






End Totality.

(** ** The claims *)

Lemma error_contract_intro (conclusion : option string) (text : string)
    (sp : Span.t) :
  (conclusion = Some "failure" -> has_error_markers sp text) ->
  (conclusion <> Some "failure" -> no_error_markers sp) ->
  error_contract conclusion text sp.
Proof.
  intros Hyes Hno. split; [| exact Hno]. split; [| exact Hyes].
  intros (Hst & _). destruct (decide (conclusion = Some "failure")) as [| Hne];
    [assumption |].
  destruct (Hno Hne) as (Hunset & _). congruence.
Qed.

Lemma process_steps_spans_of (execution_id : string)
    (jobs : list WorkflowJob.t) (job_spans : list nat) (w : world)
    (steps : list WorkflowStep.t) (w' : world) :
  process_steps execution_id jobs job_spans w = (Ok steps, w') ->
  exists hs, process_steps_spans execution_id jobs job_spans w = (Ok (steps, hs), w').
Proof.
  unfold process_steps, bind, ret.
  destruct (process_steps_spans execution_id jobs job_spans w)
    as [[[steps0 hs] | e] w1]; [| discriminate].
  intros [= <- <-]. now exists hs.
Qed.

(** C1. For every run, job and step that [process_runs], [process_jobs]
    and [process_steps] go through, the span of the record has the error
    status, the attribute [error = true] and the attribute
    [error.message], with the text "Run <run_number> failed", "Job <name>
    failed" or "Step <name> failed", if and only if the conclusion of the
    record is "failure"; for every other conclusion none of the three is
    set. *)
Theorem error_markers_iff_failure (execution_id : string)
    (today_str : nat -> string) :
  (forall workflow start end_ w runs hs w',
      process_runs execution_id today_str workflow start end_ w
      = (Ok (runs, hs), w') ->
      Forall2 (fun run h =>
                 exists sp, span_at w' h sp /\
                   error_contract (WorkflowRun.conclusion run)
                     ("Run " +:+ pretty (WorkflowRun.run_number run) +:+ " failed")
                     sp)
              runs hs) /\
  (forall runs run_spans repo w jobs hs w',
      process_jobs execution_id runs run_spans repo w = (Ok (jobs, hs), w') ->
      Forall2 (fun job h =>
                 exists sp, span_at w' h sp /\
                   error_contract (WorkflowJob.conclusion job)
                     ("Job " +:+ WorkflowJob.name job +:+ " failed") sp)
              jobs hs) /\
  (forall jobs job_spans w steps w',
      process_steps execution_id jobs job_spans w = (Ok steps, w') ->
      exists hs,
        process_steps_spans execution_id jobs job_spans w = (Ok (steps, hs), w') /\
        Forall2 (fun step h =>
                   exists sp, span_at w' h sp /\
                     error_contract (WorkflowStep.conclusion step)
                       ("Step " +:+ WorkflowStep.name step +:+ " failed") sp)
                steps hs).
Proof.
  split; [| split].
  - intros workflow start end_ w runs hs w' Hrun.
    apply process_runs_ok in Hrun as [_ Hall].
    eapply Forall2_impl; [exact Hall |].
    intros run h (sp & Hat & _ & _ & _ & _ & Hyes & Hno).
    exists sp. split; [exact Hat | now apply error_contract_intro].
  - intros runs run_spans repo w jobs hs w' Hrun.
    apply process_jobs_ok in Hrun as (_ & _ & Hall).
    eapply Forall2_impl; [exact Hall |].
    intros job h (sp & Hat & _ & _ & _ & _ & _ & _ & Hyes & Hno).
    exists sp. split; [exact Hat | now apply error_contract_intro].
  - intros jobs job_spans w steps w' Hrun.
    apply process_steps_spans_of in Hrun as [hs Hrun]. exists hs.
    split; [exact Hrun |].
    apply process_steps_spans_ok in Hrun as [_ Hall].
    eapply Forall2_impl; [exact Hall |].
    intros step h (sp & Hat & _ & _ & Hyes & Hno).
    exists sp. split; [exact Hat | now apply error_contract_intro].
Qed.

Lemma error_markers_iff_failure_witness :
  Forall2 (fun run h =>
             exists sp, span_at (snd Examples.after_runs) h sp /\
               error_contract (WorkflowRun.conclusion run)
                 ("Run " +:+ pretty (WorkflowRun.run_number run) +:+ " failed") sp)
          Examples.runs [0%nat; 1%nat] /\
  Forall2 (fun job h =>
             exists sp, span_at (snd (Examples.after_jobs Examples.repo_annotated)) h sp /\
               error_contract (WorkflowJob.conclusion job)
                 ("Job " +:+ WorkflowJob.name job +:+ " failed") sp)
          [Examples.job_failed; Examples.job_ok] [2%nat; 3%nat] /\
  exists hs,
    process_steps_spans Examples.execution_id [Examples.job_failed; Examples.job_ok]
                        [2%nat; 3%nat] (snd (Examples.after_jobs Examples.repo_annotated))
    = (Ok ([Examples.step_ok; Examples.step_failed;
            Examples.step_ok; Examples.step_failed], hs), snd Examples.after_steps) /\
    Forall2 (fun step h =>
               exists sp, span_at (snd Examples.after_steps) h sp /\
                 error_contract (WorkflowStep.conclusion step)
                   ("Step " +:+ WorkflowStep.name step +:+ " failed") sp)
            [Examples.step_ok; Examples.step_failed;
             Examples.step_ok; Examples.step_failed] hs.
Proof.
  destruct (error_markers_iff_failure Examples.execution_id Examples.today_str)
    as (Hruns & Hjobs & Hsteps).
  split; [| split].
  - apply (Hruns (Examples.workflow Examples.runs) None None initial_world).
    vm_compute. reflexivity.
  - apply (Hjobs Examples.runs [0%nat; 1%nat] Examples.repo_annotated
                 (snd Examples.after_runs)).
    vm_compute. reflexivity.
  - apply (Hsteps [Examples.job_failed; Examples.job_ok] [2%nat; 3%nat]
                  (snd (Examples.after_jobs Examples.repo_annotated))).
    vm_compute. reflexivity.
Defined.

(** When the span of a run is ended: for a completed run whose normalized
    completion time is not the integer 0, and at that time. *)
Lemma run_end_time_spec (run : WorkflowRun.t) :
  (WorkflowRun.status run <> Some "completed" -> run_end_time run = None) /\
  (forall t, WorkflowRun.status run = Some "completed" ->
             convert_time (WorkflowRun.updated_at run) = Ok t ->
             run_end_time run = if t =? 0 then None else Some t).
Proof.
  unfold run_end_time. split.
  - intros Hne. now rewrite bool_decide_eq_false_2.
  - intros t Hst Ht. now rewrite bool_decide_eq_true_2, Ht.
Qed.

Lemma process_runs_end_time (execution_id : string) (today_str : nat -> string)
    (workflow : Workflow.t) (start end_ : option string) (w : world)
    (runs : list WorkflowRun.t) (hs : list nat) (w' : world) :
  process_runs execution_id today_str workflow start end_ w = (Ok (runs, hs), w') ->
  Forall2 (fun run h => exists sp, span_at w' h sp /\
                          Span.end_time sp = run_end_time run) runs hs.
Proof.
  intros Hrun. apply process_runs_ok in Hrun as [_ Hall].
  eapply Forall2_impl; [exact Hall |].
  intros run h (sp & Hat & _ & _ & Hend & _). eauto.
Qed.





(** C4, as the code has it.  With a half-specified date range [get_args]
    halts by [sys.exit()].  It does so without any call to the client when
    [org] is given or a required argument is missing.  When [repo] and
    [workflow] are given and [org] is absent, the client is asked for the
    login of the authenticated user first, and the halt (or the failure of
    that request) comes after these two calls. *)
Theorem get_args_half_range_halts (g : Github.t) (kwargs : gmap string value)
    (w : world) :
  half_specified kwargs ->
  (is_none (kwargs_get kwargs "repo") || is_none (kwargs_get kwargs "workflow") = true
   \/ is_none (kwargs_get kwargs "org") = false ->
   get_args g kwargs w = (Raise SystemExit, w)) /\
  (is_none (kwargs_get kwargs "repo") || is_none (kwargs_get kwargs "workflow") = false ->
   is_none (kwargs_get kwargs "org") = true ->
   get_args g kwargs w
   = (match Github.login g with
      | ApiOk _ => Raise SystemExit
      | ApiFail msg => Raise (GithubException msg)
      end,
      World (calls w ++ [Call_get_user; Call_user_login]) (spans w) (current w)
            (clock_reads w))).
Proof.
  unfold half_specified. intros Hhalf. unfold get_args.
  assert (Hrange : (is_none (kwargs_get kwargs "start")
                    && negb (is_none (kwargs_get kwargs "end")))
                   || (negb (is_none (kwargs_get kwargs "start"))
                       && is_none (kwargs_get kwargs "end")) = true).
  { destruct (is_none (kwargs_get kwargs "start")),
             (is_none (kwargs_get kwargs "end")); simpl; congruence. }
  split.
  - intros [Hreq | Horg].
    + rewrite Hreq. reflexivity.
    + destruct (is_none (kwargs_get kwargs "repo")
                || is_none (kwargs_get kwargs "workflow")); [reflexivity |].
      rewrite Horg. unfold bind, ret. rewrite Hrange. reflexivity.
  - intros Hreq Horg. rewrite Hreq, Horg. unfold_py.
    destruct (Github.login g) as [login | msg]; cbn [calls spans current clock_reads].
    + rewrite Hrange, <- app_assoc. reflexivity.
    + rewrite <- app_assoc. reflexivity.
Qed.

Lemma get_args_half_range_halts_witness :
  half_specified Examples.kwargs_start_only_org /\
  get_args Examples.client Examples.kwargs_start_only_org initial_world
  = (Raise SystemExit, initial_world).
Proof.
  assert (Hhalf : half_specified Examples.kwargs_start_only_org)
    by (vm_compute; discriminate).
  split; [exact Hhalf |].
  apply (proj1 (get_args_half_range_halts Examples.client
                  Examples.kwargs_start_only_org initial_world Hhalf)).
  right. vm_compute. reflexivity.
Defined.

(** C4 as stated fails: with [--start] alone and no [--org], the client
    has been called twice by the time [get_args] halts. *)
Lemma get_args_absent_org_asks_client :
  half_specified Examples.kwargs_start_only /\
  get_args Examples.client Examples.kwargs_start_only initial_world
  = (Raise SystemExit, World [Call_get_user; Call_user_login] [] None 0) /\
  ~ (forall g kwargs w r w',
        half_specified kwargs -> get_args g kwargs w = (r, w') ->
        r = Raise SystemExit /\ calls w' = calls w).
Proof.
  split; [vm_compute; discriminate |]. split; [vm_compute; reflexivity |].
  intros Hclaim.
  destruct (Hclaim Examples.client Examples.kwargs_start_only initial_world
              (Raise SystemExit)
              (World [Call_get_user; Call_user_login] [] None 0))
    as [_ Hcalls].
  - vm_compute. discriminate.
  - vm_compute. reflexivity.
  - discriminate Hcalls.
Qed.

(** ** The display name *)

Lemma split_nonempty (sep : Ascii.ascii) (s : string) : split sep s <> [].
Proof.
  destruct s as [| c rest]; simpl; [discriminate |].
  destruct (Ascii.eqb c sep); [discriminate |].
  destruct (split sep rest); discriminate.
Qed.

Lemma hd_split_dot (s : string) :
  hd "" (split "."%char s) = before_first_dot s.
Proof.
  induction s as [| c rest IH]; [reflexivity |]. simpl.
  destruct (Ascii.eqb c "."%char); [reflexivity |].
  pose proof (split_nonempty "."%char rest) as Hne.
  destruct (split "."%char rest) as [| piece pieces]; [contradiction |].
  simpl in *. now rewrite IH.
Qed.

Lemma has_dot_count (s : string) : has_dot s = false <-> count_dots s = 0%nat.
Proof.
  induction s as [| c rest IH]; simpl; [tauto |].
  destruct (Ascii.eqb c "."%char); simpl; [split; [discriminate | lia] | exact IH].
Qed.

Lemma before_first_dot_single (s : string) :
  (count_dots s <= 1)%nat -> before_first_dot s = strip_suffix s.
Proof.
  induction s as [| c rest IH]; [reflexivity |]. simpl.
  destruct (Ascii.eqb c "."%char); simpl; intros Hc.
  - replace (has_dot rest) with false; [reflexivity |].
    symmetry. apply has_dot_count. lia.
  - f_equal. apply IH. exact Hc.
Qed.

(** C5, as the code has it.  The name of the span of a run is the part of
    the basename of [path] before its first dot.  This is the basename
    minus its suffix when the basename has at most one dot. *)
Theorem run_name_before_first_dot (path : string) :
  run_name path = before_first_dot (basename path) /\
  ((count_dots (basename path) <= 1)%nat -> run_name path = spec_run_name path).
Proof.
  unfold run_name, spec_run_name, basename. rewrite hd_split_dot.
  split; [reflexivity |]. apply before_first_dot_single.
Qed.

Lemma run_name_before_first_dot_witness :
  (count_dots (basename "some/workflow/run/path/file.ext") <= 1)%nat /\
  run_name "some/workflow/run/path/file.ext" = "file" /\
  spec_run_name "some/workflow/run/path/file.ext" = "file".
Proof.
  assert (Hc : (count_dots (basename "some/workflow/run/path/file.ext") <= 1)%nat)
    by (vm_compute; lia).
  split; [exact Hc |].
  pose proof (proj2 (run_name_before_first_dot "some/workflow/run/path/file.ext") Hc)
    as Heq.
  split; [reflexivity | rewrite <- Heq; reflexivity].
Defined.

(** C5 as stated fails: for the basename "my.workflow.yml" the code names
    the span "my", not "my.workflow". *)
Lemma run_name_two_dots :
  run_name ".github/workflows/my.workflow.yml" = "my" /\
  spec_run_name ".github/workflows/my.workflow.yml" = "my.workflow" /\
  ~ (forall path, run_name path = spec_run_name path).
Proof.
  split; [reflexivity |]. split; [reflexivity |].
  intros Hclaim. specialize (Hclaim ".github/workflows/my.workflow.yml").
  vm_compute in Hclaim. discriminate Hclaim.
Qed.

(** ** Annotations *)






(** C7. The label normalization of [process_jobs] sends an absent
    [labels] to the empty list, a scalar to the list of that one element,
    and a list or a tuple to itself; the [runs_on] attribute of every job
    span is the concatenation of the normalized labels. *)
Theorem job_labels_normalized (execution_id : string) :
  job_labels LabelsNone = LabelsList [] /\
  (forall s, job_labels (LabelsStr s) = LabelsList [s]) /\
  (forall items, job_labels (LabelsList items) = LabelsList items) /\
  (forall items, job_labels (LabelsTuple items) = LabelsTuple items) /\
  (forall runs run_spans repo w jobs hs w',
      process_jobs execution_id runs run_spans repo w = (Ok (jobs, hs), w') ->
      Forall2 (fun job h =>
                 exists sp, span_at w' h sp /\
                   Span.attributes sp !! "runs_on"
                   = Some (VStr (String.concat ""
                                   (labels_items (job_labels (WorkflowJob.labels job))))))
              jobs hs).
Proof.
  repeat (split; [reflexivity |]).
  intros runs run_spans repo w jobs hs w' Hrun.
  apply process_jobs_ok in Hrun as (_ & _ & Hall).
  eapply Forall2_impl; [exact Hall |].
  intros job h (sp & Hat & _ & _ & _ & _ & Hon & _). eauto.
Qed.

Lemma job_labels_normalized_witness :
  Forall2 (fun job h =>
             exists sp, span_at (snd (Examples.after_jobs Examples.repo_annotated)) h sp /\
               Span.attributes sp !! "runs_on"
               = Some (VStr (String.concat ""
                               (labels_items (job_labels (WorkflowJob.labels job))))))
          [Examples.job_failed; Examples.job_ok] [2%nat; 3%nat].
Proof.
  apply (proj2 (proj2 (proj2 (proj2 (job_labels_normalized Examples.execution_id))))
           Examples.runs [0%nat; 1%nat] Examples.repo_annotated
           (snd Examples.after_runs)).
  vm_compute. reflexivity.
Defined.

Lemma attempt_attribute_intro (key : string) (attempt : option Z) (sp : Span.t) :
  Span.attributes sp !! key = Some (VInt (default 1 attempt)) ->
  attempt_attribute key attempt sp.
Proof.
  intros Hat. exists (default 1 attempt). split; [exact Hat |].
  split; [now intros -> | now intros a ->].
Qed.

(** C8. The span of every run carries [run.run_attempt] and the span of
    every job carries [job.run_attempt], as an integer: 1 when the record
    has no attempt number, the attempt number of the record otherwise. *)
Theorem run_attempt_never_null (execution_id : string) (today_str : nat -> string) :
  (forall workflow start end_ w runs hs w',
      process_runs execution_id today_str workflow start end_ w
      = (Ok (runs, hs), w') ->
      Forall2 (fun run h =>
                 exists sp, span_at w' h sp /\
                   attempt_attribute "run.run_attempt" (WorkflowRun.run_attempt run) sp)
              runs hs) /\
  (forall runs run_spans repo w jobs hs w',
      process_jobs execution_id runs run_spans repo w = (Ok (jobs, hs), w') ->
      Forall2 (fun job h =>
                 exists sp, span_at w' h sp /\
                   attempt_attribute "job.run_attempt" (WorkflowJob.run_attempt job) sp)
              jobs hs).
Proof.
  split.
  - intros workflow start end_ w runs hs w' Hrun.
    apply process_runs_ok in Hrun as [_ Hall].
    eapply Forall2_impl; [exact Hall |].
    intros run h (sp & Hat & _ & _ & _ & Hattempt & _).
    exists sp. split; [exact Hat | now apply attempt_attribute_intro].
  - intros runs run_spans repo w jobs hs w' Hrun.
    apply process_jobs_ok in Hrun as (_ & _ & Hall).
    eapply Forall2_impl; [exact Hall |].
    intros job h (sp & Hat & _ & _ & _ & Hattempt & _).
    exists sp. split; [exact Hat | now apply attempt_attribute_intro].
Qed.

Lemma run_attempt_never_null_witness :
  Forall2 (fun run h =>
             exists sp, span_at (snd Examples.after_runs) h sp /\
               attempt_attribute "run.run_attempt" (WorkflowRun.run_attempt run) sp)
          Examples.runs [0%nat; 1%nat] /\
  Forall2 (fun job h =>
             exists sp, span_at (snd (Examples.after_jobs Examples.repo_annotated)) h sp /\
               attempt_attribute "job.run_attempt" (WorkflowJob.run_attempt job) sp)
          [Examples.job_failed; Examples.job_ok] [2%nat; 3%nat].
Proof.
  destruct (run_attempt_never_null Examples.execution_id Examples.today_str)
    as [Hruns Hjobs].
  split.
  - apply (Hruns (Examples.workflow Examples.runs) None None initial_world).
    vm_compute. reflexivity.
  - apply (Hjobs Examples.runs [0%nat; 1%nat] Examples.repo_annotated
                 (snd Examples.after_runs)).
    vm_compute. reflexivity.
Defined.

(** C9, as the code has it.  On whole seconds from the epoch up to
    [2^62] nanoseconds (20 February 2116) [convert_time] is exact: it
    returns seconds times [10^9].  There it is strictly monotonic and the
    seconds are recovered by truncating the nanoseconds. *)
Theorem convert_time_whole_seconds_monotonic (a b : Z) :
  0 <= a < b -> b * 1000000000 < 2 ^ 62 ->
  exists na nb,
    convert_time (Some (at_second a)) = Ok na /\
    convert_time (Some (at_second b)) = Ok nb /\
    na = a * 1000000000 /\ nb = b * 1000000000 /\
    na < nb /\
    na / 1000000000 = a /\ nb / 1000000000 = b.
Proof.
  intros Hab Hb. exists (a * 1000000000), (b * 1000000000).
  unfold at_second. rewrite !convert_time_exact_on_seconds by lia.
  repeat split; try reflexivity; try lia;
    apply Z.div_mul; discriminate.
Qed.

Lemma convert_time_whole_seconds_monotonic_witness :
  exists na nb,
    convert_time (Some (utc 2024 1 1 12 0 0 0)) = Ok na /\
    convert_time (Some (utc 2024 1 1 12 30 0 0)) = Ok nb /\
    na = 1704110400 * 1000000000 /\ nb = 1704112200 * 1000000000 /\
    na < nb /\
    na / 1000000000 = 1704110400 /\ nb / 1000000000 = 1704112200.
Proof.
  apply (convert_time_whole_seconds_monotonic 1704110400 1704112200); lia.
Defined.

(** C9 as stated fails on the range of [datetime].  The last two
    microseconds of year 9999 are normalized to the same integer, and the
    second 2116-02-20 23:53:41 comes back as the second before it. *)
Lemma convert_time_far_future_collapses :
  ~ (forall a b na nb,
        valid_datetime a -> valid_datetime b -> epoch_us a < epoch_us b ->
        convert_time (Some a) = Ok na -> convert_time (Some b) = Ok nb ->
        na < nb) /\
  ~ (forall t n,
        valid_datetime t -> convert_time (Some t) = Ok n ->
        n / 1000000000 = epoch_us t / 1000000).
Proof.
  split.
  - intros Hclaim.
    assert (H : 253402300800000000000 < 253402300800000000000); [| lia].
    apply (Hclaim (utc 9999 12 31 23 59 59 999998) (utc 9999 12 31 23 59 59 999999)).
    + vm_compute. split; discriminate.
    + vm_compute. split; discriminate.
    + vm_compute. reflexivity.
    + vm_compute. reflexivity.
    + vm_compute. reflexivity.
  - intros Hclaim.
    assert (H : 4611686020999999488 / 1000000000 = 4611686021000000 / 1000000).
    { apply (Hclaim (utc 2116 2 20 23 53 41 0)).
      - vm_compute. split; discriminate.
      - vm_compute. reflexivity. }
    vm_compute in H. discriminate H.
Qed.

(** ** Jobs without a completion time *)

Lemma process_job_absent_completion (execution_id : string)
    (repo : Repository.t) (parent : nat) (job : WorkflowJob.t) (w : world) :
  WorkflowJob.completed_at job = None ->
  exists e, process_job execution_id repo parent job w = (Raise e, w).
Proof.
  intros Hnone. unfold process_job. unfold bind at 1. unfold lift at 1.
  destruct (convert_time (WorkflowJob.started_at job)) as [t0 | e]; [| eauto].
  unfold bind at 1. unfold lift at 1. rewrite Hnone. simpl. eauto.
Qed.

(** C10. [process_jobs] normalizes [completed_at] of every job and ends
    every job span at that time, with no other path: when it returns,
    every job span is ended at the normalized completion time; a job
    without completion time makes the job body raise ([AttributeError]
    once the start time is normalized) before any span is opened for it,
    and [process_jobs] raises instead of returning. *)
Theorem process_jobs_no_open_job_path (execution_id : string) :
  (forall runs run_spans repo w jobs hs w',
      process_jobs execution_id runs run_spans repo w = (Ok (jobs, hs), w') ->
      Forall2 (fun job h =>
                 exists sp t, span_at w' h sp /\
                   convert_time (WorkflowJob.completed_at job) = Ok t /\
                   Span.end_time sp = Some t)
              jobs hs) /\
  (forall repo parent job w t0,
      convert_time (WorkflowJob.started_at job) = Ok t0 ->
      WorkflowJob.completed_at job = None ->
      process_job execution_id repo parent job w = (Raise AttributeError, w)) /\
  (forall runs run_spans repo w run parent job,
      (run, parent) ∈ zip runs run_spans ->
      job ∈ WorkflowRun.jobs run ->
      WorkflowJob.completed_at job = None ->
      exists e w', process_jobs execution_id runs run_spans repo w = (Raise e, w')).
Proof.
  split; [| split].
  - intros runs run_spans repo w jobs hs w' Hrun.
    apply process_jobs_ok in Hrun as (_ & _ & Hall).
    eapply Forall2_impl; [exact Hall |].
    intros job h (sp & Hat & _ & _ & (t & Ht & Hend & _) & _). eauto.
  - intros repo parent job w t0 Hstart Hnone.
    unfold process_job. unfold bind at 1. unfold lift at 1. rewrite Hstart.
    unfold bind at 1. unfold lift at 1. rewrite Hnone. reflexivity.
  - intros runs run_spans repo w run parent job Hpair Hjob Hnone.
    unfold process_jobs. unfold bind at 1.
    set (body := fun pair : WorkflowRun.t * nat => _).
    destruct (for_each_raises body (zip runs run_spans) (run, parent) Hpair)
      with (w := w) as (e & w' & ->); [| eauto].
    intros w0. unfold body. cbn [fst snd]. unfold bind at 1, call.
    destruct (for_each_raises (process_job execution_id repo parent)
                              (WorkflowRun.jobs run) job Hjob)
      with (w := World (calls w0 ++ [Call_jobs (WorkflowRun.id run)]) (spans w0)
                       (current w0) (clock_reads w0)) as (e & w' & Hin).
    + intros w1. destruct (process_job_absent_completion execution_id repo parent
                             job w1 Hnone) as [e He]. eauto.
    + unfold bind. rewrite Hin. eauto.
Qed.

Lemma process_jobs_no_open_job_path_witness :
  process_job Examples.execution_id Examples.repo_annotated 0
              Examples.job_in_progress initial_world
  = (Raise AttributeError, initial_world) /\
  (exists e w',
      process_jobs Examples.execution_id [Examples.run_in_progress] [0%nat]
                   Examples.repo_annotated initial_world = (Raise e, w')) /\
  Forall2 (fun job h =>
             exists sp t,
               span_at (snd (Examples.after_jobs Examples.repo_annotated)) h sp /\
               convert_time (WorkflowJob.completed_at job) = Ok t /\
               Span.end_time sp = Some t)
          [Examples.job_failed; Examples.job_ok] [2%nat; 3%nat].
Proof.
  destruct (process_jobs_no_open_job_path Examples.execution_id)
    as (Hended & Hbody & Hloop).
  split; [| split].
  - apply (Hbody _ _ _ _ 1704111600000000000); reflexivity.
  - apply (Hloop [Examples.run_in_progress] [0%nat] Examples.repo_annotated
                 initial_world Examples.run_in_progress 0%nat
                 Examples.job_in_progress).
    + simpl. left.
    + simpl. left.
    + reflexivity.
  - apply (Hended Examples.runs [0%nat; 1%nat] Examples.repo_annotated
                  (snd Examples.after_runs)).
    vm_compute. reflexivity.
Defined.

(** * Further properties *)

(** ** What one round of each loop does to the world *)

Section BodyEffects.
Variable execution_id : string.
Variable today_str : nat -> string.

Lemma process_step_effect (parent : nat) (step : WorkflowStep.t)
    (w : world) (r : result nat) (w' : world) :
  process_step execution_id parent step w = (r, w') ->
  match r with
  | Raise _ => w' = w
  | Ok h =>
      h = length (spans w) /\
      exists sp,
        w' = World (calls w) (spans w ++ [sp]) (current w) (clock_reads w) /\
        Span.parent sp = Some parent /\
        convert_time (WorkflowStep.started_at step) = Ok (Span.start_time sp) /\
        ended sp /\
        Span.attributes sp !! "execution.id" = Some (VStr execution_id)
  end.
Proof.
  unfold process_step, ended. unfold_py.
  destruct (convert_time (WorkflowStep.started_at step)) as [t0 | e];
    [| intros [= <- <-]; reflexivity].
  destruct (convert_time (WorkflowStep.completed_at step)) as [t1 | e];
    [| intros [= <- <-]; reflexivity].
  destruct (is_failure (WorkflowStep.conclusion step)); unfold_py;
    intros [= <- <-]; (split; [reflexivity |]); rewrite !alter_last;
    eexists; (split; [reflexivity |]); span_fields; repeat split; lookup_attr;
    eauto.
Qed.

Lemma process_run_effect (workflow : Workflow.t) (run : WorkflowRun.t)
    (w : world) (r : result nat) (w' : world) :
  process_run execution_id today_str workflow run w = (r, w') ->
  match r with
  | Raise _ => w' = w
  | Ok h =>
      h = length (spans w) /\
      exists sp,
        w' = World (calls w) (spans w ++ [sp])
                   (match run_end_time run with
                    | Some _ => current w
                    | None => Some h
                    end)
                   (S (clock_reads w)) /\
        Span.parent sp = current w /\
        Span.end_time sp = run_end_time run /\
        Span.attributes sp !! "my_date" = Some (VStr (today_str (clock_reads w))) /\
        Span.attributes sp !! "execution.id" = Some (VStr execution_id)
  end.
Proof.
  unfold process_run, run_end_time. unfold_py.
  destruct (convert_time (WorkflowRun.run_started_at run)) as [t0 | e];
    [| intros [= <- <-]; reflexivity].
  case_bool_decide as Hst.
  - destruct (convert_time (WorkflowRun.updated_at run)) as [t1 | e];
      [| intros [= <- <-]; reflexivity].
    unfold_py. cbn [truthy].
    destruct (WorkflowRun.run_attempt run) as [attempt |];
      destruct (is_failure (WorkflowRun.conclusion run)); destruct (t1 =? 0);
      unfold_py; intros [= <- <-]; (split; [reflexivity |]);
      rewrite !alter_last; eexists; (split; [reflexivity |]); span_fields;
      repeat split; lookup_attr.
  - unfold_py. cbn [truthy].
    destruct (WorkflowRun.run_attempt run) as [attempt |];
      destruct (is_failure (WorkflowRun.conclusion run));
      unfold_py; intros [= <- <-]; (split; [reflexivity |]);
      rewrite !alter_last; eexists; (split; [reflexivity |]); span_fields;
      repeat split; lookup_attr.
Qed.

Lemma add_events_parent (evs : list Event.t) (sp : Span.t) :
  Span.parent (add_events evs sp) = Span.parent sp.
Proof.
  unfold add_events. revert sp.
  induction evs as [| ev evs IH]; intros sp; [reflexivity |].
  simpl. now rewrite IH.
Qed.

Lemma process_job_effect (repo : Repository.t) (parent : nat)
    (job : WorkflowJob.t) (w : world) (r : result nat) (w' : world) :
  process_job execution_id repo parent job w = (r, w') ->
  match r with
  | Raise _ => w' = w
  | Ok h =>
      h = length (spans w) /\
      exists sp log t0 t2 q,
        w' = World (calls w ++ log) (spans w ++ [sp]) (current w) (clock_reads w) /\
        Span.parent sp = Some parent /\
        convert_time (WorkflowJob.started_at job) = Ok t0 /\
        convert_time (WorkflowJob.created_at job) = Ok t2 /\
        Float64.truediv (t0 - t2) 1000000000 = Ok q /\
        Span.attributes sp !! "job.queue_time_seconds" = Some (VFloat q) /\
        Span.attributes sp !! "job.runner_group_id"
          = VInt <$> WorkflowJob.runner_group_id job /\
        Span.attributes sp !! "job.runner_group_name"
          = (fun _ => of_opt_str (WorkflowJob.runner_group_name job))
              <$> WorkflowJob.runner_group_id job /\
        Span.attributes sp !! "job.runner_name"
          = VStr <$> WorkflowJob.runner_name job /\
        ended sp /\
        Span.attributes sp !! "execution.id" = Some (VStr execution_id)
  end.
Proof.
  unfold process_job, ended. unfold_py_but_events.
  destruct (convert_time (WorkflowJob.started_at job)) as [t0 | e];
    [| intros [= <- <-]; reflexivity].
  destruct (convert_time (WorkflowJob.completed_at job)) as [t1 | e];
    [| intros [= <- <-]; reflexivity].
  destruct (convert_time (WorkflowJob.created_at job)) as [t2 | e];
    [| intros [= <- <-]; reflexivity].
  destruct (Float64.truediv (t0 - t2) 1000000000) as [q | e] eqn:Hq;
    [| intros [= <- <-]; reflexivity].
  destruct (WorkflowJob.run_attempt job) as [attempt |];
    destruct (WorkflowJob.runner_group_id job) as [group |];
    destruct (WorkflowJob.runner_name job) as [runner |];
    unfold_py_but_events;
    match goal with
    | |- context [fetch_annotations ?r ?i ?w0] =>
        destruct (fetch_annotations_run r i w0) as [log ->]
    end;
    cbn [fst snd calls spans current clock_reads];
    destruct (truthy (of_opt_str (snd (fetched repo (WorkflowJob.id job)))));
    try match goal with
    | |- context [for_each (fun item => add_event ?hh (@?f item)) ?items ?w0] =>
        destruct (for_each_add_event hh f items w0) as [us ->]
    end;
    destruct (is_failure (WorkflowJob.conclusion job)); unfold_py;
    intros [= <- <-]; (split; [reflexivity |]);
    rewrite !alter_last; eexists; exists log, t0, t2, q;
    (split; [reflexivity |]); span_fields; rewrite ?add_events_parent; add_events_simpl;
    cbn [fmap option_fmap option_map];
    repeat split; lookup_attr; eauto.
Qed.

End BodyEffects.

(** ** Loops once more: fresh handles and pairs *)

Section FreshHandles.
Context {A : Type}.
Variable body : A -> M nat.
Hypothesis body_fresh :
  forall x w h w', body x w = (Ok h, w') ->
                   h = length (spans w) /\ length (spans w') = S (length (spans w)).

Lemma for_each_fresh (l : list A) :
  forall w hs w',
    for_each body l w = (Ok hs, w') ->
    hs = seq (length (spans w)) (length l) /\
    length (spans w') = (length (spans w) + length l)%nat.
Proof.
  induction l as [| x l IH]; intros w hs w' Hrun.
  - injection Hrun as <- <-. simpl. split; [reflexivity | lia].
  - simpl in Hrun. unfold bind in Hrun.
    destruct (body x w) as [[h | e] w1] eqn:Hb; [| discriminate].
    destruct (for_each body l w1) as [[hs1 | e] w2] eqn:Hl; [| discriminate].
    injection Hrun as <- <-.
    apply body_fresh in Hb as [-> Hlen]. apply IH in Hl as [-> Hlen2].
    simpl. rewrite Hlen. split; [reflexivity | lia].
Qed.
End FreshHandles.

Section FreshHandlesNested.
Context {A C : Type}.
Variable body : A -> M (list C * list nat).
Hypothesis body_fresh :
  forall x w out w', body x w = (Ok out, w') ->
                     snd out = seq (length (spans w)) (length (fst out)) /\
                     length (spans w') = (length (spans w) + length (fst out))%nat.

Lemma for_each_fresh_nested (l : list A) :
  forall w outs w',
    for_each body l w = (Ok outs, w') ->
    concat (map snd outs)
    = seq (length (spans w)) (length (concat (map fst outs))) /\
    length (spans w')
    = (length (spans w) + length (concat (map fst outs)))%nat.
Proof.
  induction l as [| x l IH]; intros w outs w' Hrun.
  - injection Hrun as <- <-. simpl. split; [reflexivity | lia].
  - simpl in Hrun. unfold bind in Hrun.
    destruct (body x w) as [[out | e] w1] eqn:Hb; [| discriminate].
    destruct (for_each body l w1) as [[outs1 | e] w2] eqn:Hl; [| discriminate].
    injection Hrun as <- <-.
    apply body_fresh in Hb as [Hout Hlen]. apply IH in Hl as [Hrest Hlen2].
    simpl. rewrite Hout, Hrest, Hlen, length_app, seq_app.
    split; [reflexivity | lia].
Qed.
End FreshHandlesNested.

Lemma Forall2_concat_pairs {A C D} (f : A -> list C) (p : A -> D)
    (P : C * D -> nat -> Prop) (l : list A) (outs : list (list C * list nat)) :
  Forall2 (fun x out => Forall2 (fun c h => P (c, p x) h) (f x) (snd out)) l outs ->
  Forall2 P (concat (map (fun x => map (fun c => (c, p x)) (f x)) l))
          (concat (map snd outs)).
Proof.
  induction 1 as [| x out l outs Hx _ IH]; [constructor |].
  simpl. apply Forall2_app; [| exact IH].
  apply Forall2_fmap_l. exact Hx.
Qed.

Lemma map_fst_zip_take {A B C} (f : A -> C) (l : list A) (k : list B) :
  map (fun pair : A * B => f (fst pair)) (zip l k) = map f (take (length k) l).
Proof.
  revert k. induction l as [| x l IH]; intros [| y k]; simpl; try reflexivity.
  now rewrite IH.
Qed.

Lemma map_fst_concat_pairs {A C D} (f : A -> list C) (p : A -> D) (l : list A) :
  map fst (concat (map (fun x => map (fun c => (c, p x)) (f x)) l))
  = concat (map f l).
Proof.
  induction l as [| x l IH]; [reflexivity |].
  simpl. rewrite List.map_app, IH, List.map_map. simpl. now rewrite List.map_id.
Qed.

Lemma last_span_inj (l : list Span.t) (a b : Span.t) :
  l ++ [a] = l ++ [b] -> a = b.
Proof. intros H. apply app_inv_head in H. now injection H. Qed.

(** ** The emitters, span by span *)

Section EmittersDetail.
Variable execution_id : string.
Variable today_str : nat -> string.

Lemma process_job_detail (repo : Repository.t) (parent : nat)
    (job : WorkflowJob.t) (w : world) (h : nat) (w' : world) :
  process_job execution_id repo parent job w = (Ok h, w') ->
  extends w w' /\
  exists sp, span_at w' h sp /\ job_span_ok repo job sp /\
             job_span_more parent job sp.
Proof.
  intros Hrun.
  pose proof (process_job_ok execution_id repo parent job w h w' Hrun)
    as (Hh & sp & Hsp & Hok).
  apply process_job_effect in Hrun
    as (_ & sp' & log & t0 & t2 & q & -> & Hpar & Ht0 & Ht2 & Hq & Hqa & Hg & Hgn & Hrn & _).
  cbn [spans] in Hsp. apply last_span_inj in Hsp as <-.
  destruct (appended_one w (World (calls w ++ log) (spans w ++ [sp']) (current w)
                                  (clock_reads w)) h sp' Hh eq_refl) as [Hext Hat].
  split; [exact Hext |]. exists sp'. split; [exact Hat |]. split; [exact Hok |].
  unfold job_span_more. repeat split; eauto 10.
Qed.

Lemma process_step_detail (parent : nat) (step : WorkflowStep.t)
    (w : world) (h : nat) (w' : world) :
  process_step execution_id parent step w = (Ok h, w') ->
  extends w w' /\
  exists sp, span_at w' h sp /\ step_span_ok step sp /\
             step_span_more parent step sp.
Proof.
  intros Hrun.
  pose proof (process_step_ok execution_id parent step w h w' Hrun)
    as (Hh & sp & Hsp & Hok).
  apply process_step_effect in Hrun as (_ & sp' & -> & Hpar & Ht0 & _).
  cbn [spans] in Hsp. apply last_span_inj in Hsp as <-.
  destruct (appended_one w (World (calls w) (spans w ++ [sp']) (current w)
                                  (clock_reads w)) h sp' Hh eq_refl) as [Hext Hat].
  split; [exact Hext |]. exists sp'. split; [exact Hat |]. split; [exact Hok |].
  split; assumption.
Qed.

Lemma process_jobs_detail (runs : list WorkflowRun.t) (run_spans : list nat)
    (repo : Repository.t) (w : world) (jobs : list WorkflowJob.t)
    (hs : list nat) (w' : world) :
  process_jobs execution_id runs run_spans repo w = (Ok (jobs, hs), w') ->
  jobs = map fst (jobs_with_parents runs run_spans) /\
  Forall2 (fun jp h =>
             exists sp, span_at w' h sp /\ job_span_ok repo (fst jp) sp /\
                        job_span_more (snd jp) (fst jp) sp)
          (jobs_with_parents runs run_spans) hs.
Proof.
  intros Hrun.
  pose proof (process_jobs_ok execution_id runs run_spans repo w jobs hs w' Hrun)
    as (_ & Hjobs & _).
  split.
  { rewrite Hjobs. unfold jobs_with_parents.
    now rewrite (map_fst_concat_pairs (fun pair : WorkflowRun.t * nat =>
                                         WorkflowRun.jobs (fst pair)) snd). }
  revert Hrun. unfold process_jobs. unfold bind at 1.
  destruct (for_each _ (zip runs run_spans) w) as [[per_run | e] w1] eqn:Hloop;
    [| discriminate].
  unfold ret. intros [= _ <- <-].
  eapply (for_each_ok _
            (fun (pair : WorkflowRun.t * nat) (out : list WorkflowJob.t * list nat) wx =>
               Forall2 (fun job h =>
                          exists sp, span_at wx h sp /\ job_span_ok repo job sp /\
                                     job_span_more (snd pair) job sp)
                       (WorkflowRun.jobs (fst pair)) (snd out))) in Hloop.
  - destruct Hloop as [_ Hall]. unfold jobs_with_parents.
    apply (Forall2_concat_pairs (fun pair : WorkflowRun.t * nat =>
                                   WorkflowRun.jobs (fst pair)) snd
             (fun jp h => exists sp, span_at w1 h sp /\ job_span_ok repo (fst jp) sp /\
                                     job_span_more (snd jp) (fst jp) sp)).
    exact Hall.
  - intros pair out wa wb Hall Hext.
    eapply Forall2_impl; [exact Hall |].
    intros job h (sp & Hat & Hok). exists sp.
    split; [eapply span_at_extends; eassumption | exact Hok].
  - intros [run parent] wa out wb. cbn [fst snd]. unfold bind, call, ret.
    destruct (for_each (process_job execution_id repo parent)
                       (WorkflowRun.jobs run) _) as [[handles | e] wc] eqn:Hin;
      [| discriminate].
    intros [= <- <-]. cbn [fst snd].
    eapply (for_each_ok _
              (fun job h wx => exists sp, span_at wx h sp /\ job_span_ok repo job sp /\
                                          job_span_more parent job sp))
      in Hin.
    + exact Hin.
    + intros x b wx wy (sp & Hat & Hok) Hext.
      exists sp. split; [eapply span_at_extends; eassumption | exact Hok].
    + intros x wx b wy Hbody. now apply process_job_detail.
Qed.

Lemma process_steps_detail (jobs : list WorkflowJob.t) (job_spans : list nat)
    (w : world) (steps : list WorkflowStep.t) (hs : list nat) (w' : world) :
  process_steps_spans execution_id jobs job_spans w = (Ok (steps, hs), w') ->
  steps = map fst (steps_with_parents jobs job_spans) /\
  Forall2 (fun sp_ h =>
             exists sp, span_at w' h sp /\ step_span_ok (fst sp_) sp /\
                        step_span_more (snd sp_) (fst sp_) sp)
          (steps_with_parents jobs job_spans) hs.
Proof.
  unfold process_steps_spans. unfold bind at 1.
  destruct (for_each _ (zip jobs job_spans) w) as [[per_job | e] w1] eqn:Hloop;
    [| discriminate].
  unfold ret. intros [= <- <- <-].
  eapply (for_each_ok _
            (fun (pair : WorkflowJob.t * nat) (out : list WorkflowStep.t * list nat) wx =>
               fst out = WorkflowJob.steps (fst pair) /\
               Forall2 (fun step h =>
                          exists sp, span_at wx h sp /\ step_span_ok step sp /\
                                     step_span_more (snd pair) step sp)
                       (WorkflowJob.steps (fst pair)) (snd out))) in Hloop.
  - destruct Hloop as [_ Hall]. split.
    + unfold steps_with_parents.
      rewrite (map_fst_concat_pairs (fun pair : WorkflowJob.t * nat =>
                                       WorkflowJob.steps (fst pair)) snd).
      f_equal. clear -Hall.
      induction Hall as [| pair out l outs [Hx _] _ IH]; [reflexivity |].
      simpl. now rewrite Hx, IH.
    + unfold steps_with_parents.
      apply (Forall2_concat_pairs (fun pair : WorkflowJob.t * nat =>
                                     WorkflowJob.steps (fst pair)) snd
               (fun sp_ h => exists sp, span_at w1 h sp /\ step_span_ok (fst sp_) sp /\
                                        step_span_more (snd sp_) (fst sp_) sp)).
      eapply Forall2_impl; [exact Hall |]. intros pair out [_ H]. exact H.
  - intros pair out wa wb [Hx Hall] Hext. split; [exact Hx |].
    eapply Forall2_impl; [exact Hall |].
    intros step h (sp & Hat & Hok). exists sp.
    split; [eapply span_at_extends; eassumption | exact Hok].
  - intros [job parent] wa out wb. cbn [fst snd]. unfold bind, ret.
    destruct (for_each (process_step execution_id parent)
                       (WorkflowJob.steps job) wa) as [[handles | e] wc] eqn:Hin;
      [| discriminate].
    intros [= <- <-]. cbn [fst snd].
    eapply (for_each_ok _
              (fun step h wx => exists sp, span_at wx h sp /\ step_span_ok step sp /\
                                           step_span_more parent step sp))
      in Hin.
    + destruct Hin as [Hext Hall]. split; [exact Hext | split; [reflexivity | exact Hall]].
    + intros x b wx wy (sp & Hat & Hok) Hext.
      exists sp. split; [eapply span_at_extends; eassumption | exact Hok].
    + intros x wx b wy Hbody. now apply process_step_detail.
Qed.

End EmittersDetail.

(** ** One span per record *)

Lemma process_runs_listing (execution_id : string) (today_str : nat -> string)
    (workflow : Workflow.t) (start end_ : option string) (w : world) :
  exists log,
    process_runs execution_id today_str workflow start end_ w
    = (runs <- for_each (process_run execution_id today_str workflow)
                        (Workflow.get_runs workflow (created_filter start end_)) ;;
       ret (Workflow.get_runs workflow (created_filter start end_), runs))
        (World (calls w ++ log) (spans w) (current w) (clock_reads w)).
Proof.
  unfold process_runs, created_filter.
  destruct start, end_; unfold bind at 1, call; eexists; reflexivity.
Qed.

Section Fresh.
Variable execution_id : string.
Variable today_str : nat -> string.

Lemma process_runs_fresh (workflow : Workflow.t) (start end_ : option string)
    (w : world) (runs : list WorkflowRun.t) (hs : list nat) (w' : world) :
  process_runs execution_id today_str workflow start end_ w = (Ok (runs, hs), w') ->
  runs = Workflow.get_runs workflow (created_filter start end_) /\
  hs = seq (length (spans w)) (length runs) /\
  length (spans w') = (length (spans w) + length runs)%nat /\
  extends w w'.
Proof.
  revert workflow start end_ w runs hs w'.
  intros workflow start end_ w runs hs w' Hrun.
  pose proof (process_runs_ok _ _ _ _ _ _ _ _ _ Hrun) as [Hext _].
  destruct (process_runs_listing execution_id today_str workflow start end_ w)
    as [log Heq].
  rewrite Heq in Hrun. unfold bind, ret in Hrun.
  destruct (for_each _ _ _) as [[handles | e] w1] eqn:Hloop; [| discriminate].
  injection Hrun as <- <- <-.
  apply for_each_fresh in Hloop.
  + destruct Hloop as [Hhs Hlen]. cbn [spans] in Hhs, Hlen. auto.
  + intros x wa h wb Hb. apply process_run_effect in Hb as (-> & sp & -> & _).
    cbn [spans]. rewrite length_app. simpl. split; [reflexivity | lia].
Qed.

Lemma process_jobs_fresh (runs : list WorkflowRun.t) (run_spans : list nat)
    (repo : Repository.t) (w : world) (jobs : list WorkflowJob.t)
    (hs : list nat) (w' : world) :
  process_jobs execution_id runs run_spans repo w = (Ok (jobs, hs), w') ->
  jobs = concat (map WorkflowRun.jobs (take (length run_spans) runs)) /\
  hs = seq (length (spans w)) (length jobs) /\
  length (spans w') = (length (spans w) + length jobs)%nat /\
  extends w w'.
Proof.
  revert runs run_spans repo w jobs hs w'.
  intros runs run_spans repo w jobs hs w' Hrun.
  pose proof (process_jobs_ok _ _ _ _ _ _ _ _ Hrun) as (Hext & Hjobs & _).
  rewrite map_fst_zip_take in Hjobs.
  revert Hrun. unfold process_jobs. unfold bind at 1.
  destruct (for_each _ (zip runs run_spans) w) as [[per_run | e] w1] eqn:Hloop;
    [| discriminate].
  unfold ret. intros [= Hj <- <-].
  apply for_each_fresh_nested in Hloop.
  + destruct Hloop as [Hhs Hlen]. rewrite Hj in Hhs, Hlen. auto.
  + intros [run parent] wa out wb. cbn [fst snd]. unfold bind, call, ret.
    destruct (for_each (process_job execution_id repo parent)
                       (WorkflowRun.jobs run) _) as [[handles | e] wc] eqn:Hin;
      [| discriminate].
    intros [= <- <-]. cbn [fst snd].
    apply for_each_fresh in Hin; [exact Hin |].
    intros x wx h wy Hb.
    apply process_job_effect in Hb as (-> & sp & log & t0 & t2 & q & -> & _).
    cbn [spans]. rewrite length_app. simpl. split; [reflexivity | lia].
Qed.

Lemma process_steps_spans_fresh (jobs : list WorkflowJob.t) (job_spans : list nat)
    (w : world) (steps : list WorkflowStep.t) (hs : list nat) (w' : world) :
  process_steps_spans execution_id jobs job_spans w = (Ok (steps, hs), w') ->
  steps = concat (map WorkflowJob.steps (take (length job_spans) jobs)) /\
  hs = seq (length (spans w)) (length steps) /\
  length (spans w') = (length (spans w) + length steps)%nat /\
  extends w w'.
Proof.
  revert jobs job_spans w steps hs w'.
  intros jobs job_spans w steps hs w' Hrun.
  pose proof (process_steps_spans_ok _ _ _ _ _ _ _ Hrun) as [Hext _].
  revert Hrun. unfold process_steps_spans. unfold bind at 1.
  destruct (for_each _ (zip jobs job_spans) w) as [[per_job | e] w1] eqn:Hloop;
    [| discriminate].
  unfold ret. intros [= Hj <- <-].
  assert (Hsteps : concat (map fst per_job)
                   = concat (map WorkflowJob.steps (take (length job_spans) jobs))).
  { rewrite <- map_fst_zip_take. f_equal. clear -Hloop.
    revert w per_job w1 Hloop.
    induction (zip jobs job_spans) as [| [job parent] l IH];
      intros w per_job w1 Hloop.
    - now injection Hloop as <- <-.
    - simpl in Hloop. unfold bind, ret in Hloop. cbn [fst snd] in Hloop.
      destruct (for_each (process_step execution_id parent) _ w)
        as [[handles | e] wa]; [| discriminate].
      destruct (for_each _ l wa) as [[rest | e] wb] eqn:Hrest; [| discriminate].
      injection Hloop as <- <-. simpl. f_equal. eapply IH. exact Hrest. }
  apply for_each_fresh_nested in Hloop.
  + destruct Hloop as [Hhs Hlen]. rewrite Hj in Hhs, Hlen. rewrite <- Hj, Hsteps.
    rewrite <- Hsteps, Hj. auto.
  + intros [job parent] wa out wb. cbn [fst snd]. unfold bind, ret.
    destruct (for_each (process_step execution_id parent)
                       (WorkflowJob.steps job) wa) as [[handles | e] wc] eqn:Hin;
      [| discriminate].
    intros [= <- <-]. cbn [fst snd].
    apply for_each_fresh in Hin; [exact Hin |].
    intros x wx h wy Hb.
    apply process_step_effect in Hb as (-> & sp & -> & _).
    cbn [spans]. rewrite length_app. simpl. split; [reflexivity | lia].
Qed.

End Fresh.

(** X1. Each emitter opens exactly one span per record and touches no
    older span: a returning call hands back the next free handles, in the
    order of the records, and the span store has grown by their number.
    [process_runs] goes through the runs the workflow lists for the
    [created] filter; [process_jobs] and [process_steps] go through the
    records that have a partner in the list of span handles, so records
    beyond the length of that list are skipped without an error. *)
Theorem emitters_open_one_span_per_record (execution_id : string)
    (today_str : nat -> string) :
  (forall workflow start end_ w runs hs w',
      process_runs execution_id today_str workflow start end_ w
      = (Ok (runs, hs), w') ->
      runs = Workflow.get_runs workflow (created_filter start end_) /\
      hs = seq (length (spans w)) (length runs) /\
      length (spans w') = (length (spans w) + length runs)%nat /\
      extends w w') /\
  (forall runs run_spans repo w jobs hs w',
      process_jobs execution_id runs run_spans repo w = (Ok (jobs, hs), w') ->
      jobs = concat (map WorkflowRun.jobs (take (length run_spans) runs)) /\
      hs = seq (length (spans w)) (length jobs) /\
      length (spans w') = (length (spans w) + length jobs)%nat /\
      extends w w') /\
  (forall jobs job_spans w steps hs w',
      process_steps_spans execution_id jobs job_spans w = (Ok (steps, hs), w') ->
      steps = concat (map WorkflowJob.steps (take (length job_spans) jobs)) /\
      hs = seq (length (spans w)) (length steps) /\
      length (spans w') = (length (spans w) + length steps)%nat /\
      extends w w').
Proof.
  split; [| split].
  - intros *. apply process_runs_fresh.
  - intros *. apply process_jobs_fresh.
  - intros *. apply process_steps_spans_fresh.
Qed.

Lemma emitters_open_one_span_per_record_witness :
  (Examples.runs
   = Workflow.get_runs (Examples.workflow Examples.runs) (created_filter None None) /\
   [0%nat; 1%nat] = seq (length (spans initial_world)) (length Examples.runs) /\
   length (spans (snd Examples.after_runs))
   = (length (spans initial_world) + length Examples.runs)%nat /\
   extends initial_world (snd Examples.after_runs)) /\
  ([Examples.job_failed; Examples.job_ok]
   = concat (map WorkflowRun.jobs (take (length [0%nat; 1%nat]) Examples.runs)) /\
   [2%nat; 3%nat] = seq (length (spans (snd Examples.after_runs)))
                        (length [Examples.job_failed; Examples.job_ok]) /\
   length (spans (snd (Examples.after_jobs Examples.repo_annotated)))
   = (length (spans (snd Examples.after_runs))
      + length [Examples.job_failed; Examples.job_ok])%nat /\
   extends (snd Examples.after_runs)
           (snd (Examples.after_jobs Examples.repo_annotated))) /\
  ([Examples.step_ok; Examples.step_failed; Examples.step_ok; Examples.step_failed]
   = concat (map WorkflowJob.steps
                 (take (length [2%nat; 3%nat])
                       [Examples.job_failed; Examples.job_ok])) /\
   [4%nat; 5%nat; 6%nat; 7%nat]
   = seq (length (spans (snd (Examples.after_jobs Examples.repo_annotated))))
         (length [Examples.step_ok; Examples.step_failed;
                  Examples.step_ok; Examples.step_failed]) /\
   length (spans (snd Examples.after_steps))
   = (length (spans (snd (Examples.after_jobs Examples.repo_annotated)))
      + length [Examples.step_ok; Examples.step_failed;
                Examples.step_ok; Examples.step_failed])%nat /\
   extends (snd (Examples.after_jobs Examples.repo_annotated))
           (snd Examples.after_steps)).
Proof.
  destruct (emitters_open_one_span_per_record Examples.execution_id Examples.today_str)
    as (Hruns & Hjobs & Hsteps).
  split; [| split].
  - apply (Hruns (Examples.workflow Examples.runs) None None initial_world
                 Examples.runs [0%nat; 1%nat] (snd Examples.after_runs)).
    vm_compute. reflexivity.
  - apply (Hjobs Examples.runs [0%nat; 1%nat] Examples.repo_annotated
                 (snd Examples.after_runs) [Examples.job_failed; Examples.job_ok]
                 [2%nat; 3%nat] (snd (Examples.after_jobs Examples.repo_annotated))).
    vm_compute. reflexivity.
  - apply (Hsteps [Examples.job_failed; Examples.job_ok] [2%nat; 3%nat]
                  (snd (Examples.after_jobs Examples.repo_annotated))
                  [Examples.step_ok; Examples.step_failed;
                   Examples.step_ok; Examples.step_failed]
                  [4%nat; 5%nat; 6%nat; 7%nat] (snd Examples.after_steps)).
    vm_compute. reflexivity.
Defined.

(** ** The tree of spans *)

Lemma elem_of_concat_pairs {A C D} (f : A -> list C) (p : A -> D) (l : list A)
    (x : C) (d : D) :
  (x, d) ∈ concat (map (fun a => map (fun c => (c, p a)) (f a)) l) ->
  exists a, a ∈ l /\ x ∈ f a /\ d = p a.
Proof.
  induction l as [| a l IH]; simpl; intros Hin.
  - inversion Hin.
  - apply elem_of_app in Hin as [Hin | Hin].
    + apply list_elem_of_fmap in Hin as (c & [= -> ->] & Hc).
      exists a. split; [left | split; [exact Hc | reflexivity]].
    + destruct (IH Hin) as (a' & Ha' & Hx & Hd).
      exists a'. split; [now right | split; assumption].
Qed.

Lemma Forall2_zip_elem {A B} (P : A -> B -> Prop) (l : list A) (k : list B)
    (x : A) (y : B) :
  Forall2 P l k -> (x, y) ∈ zip l k -> P x y.
Proof.
  intros Hall. induction Hall as [| a b l k Hab Hall IH]; simpl; intros Hin.
  - inversion Hin.
  - apply elem_of_cons in Hin as [[= -> ->] | Hin]; [exact Hab | now apply IH].
Qed.

Lemma Forall2_left_facts {A B} (P : A -> B -> Prop) (R : A -> Prop)
    (l : list A) (k : list B) :
  Forall2 P l k -> (forall x, x ∈ l -> R x) ->
  Forall2 (fun x y => P x y /\ R x) l k.
Proof.
  intros Hall. induction Hall as [| a b l k Hab Hall IH]; intros HR.
  - constructor.
  - constructor.
    + split; [exact Hab | apply HR; left].
    + apply IH. intros x Hx. apply HR. now right.
Qed.

Lemma Forall2_extends {A} (P : A -> Span.t -> Prop) (l : list A) (hs : list nat)
    (w w' : world) :
  extends w w' ->
  Forall2 (fun x h => exists sp, span_at w h sp /\ P x sp) l hs ->
  Forall2 (fun x h => exists sp, span_at w' h sp /\ P x sp) l hs.
Proof.
  intros Hext Hall. eapply Forall2_impl; [exact Hall |].
  intros x h (sp & Hat & HP). exists sp.
  split; [eapply span_at_extends; eassumption | exact HP].
Qed.

Section Each.
Variable execution_id : string.

(** Every job with the span opened for it. *)
Lemma process_jobs_each (runs : list WorkflowRun.t) (run_spans : list nat)
    (repo : Repository.t) (w : world) (jobs : list WorkflowJob.t)
    (hs : list nat) (w' : world) :
  process_jobs execution_id runs run_spans repo w = (Ok (jobs, hs), w') ->
  Forall2 (fun job h =>
             exists sp parent, span_at w' h sp /\ job_span_ok repo job sp /\
                               job_span_more parent job sp)
          jobs hs.
Proof.
  intros Hrun. apply process_jobs_detail in Hrun as [-> Hall].
  apply Forall2_fmap_l. eapply Forall2_impl; [exact Hall |].
  intros [job parent] h (sp & Hat & Hok & Hmore). exists sp, parent. auto.
Qed.

Lemma process_steps_each (jobs : list WorkflowJob.t) (job_spans : list nat)
    (w : world) (steps : list WorkflowStep.t) (hs : list nat) (w' : world) :
  process_steps_spans execution_id jobs job_spans w = (Ok (steps, hs), w') ->
  Forall2 (fun step h =>
             exists sp parent, span_at w' h sp /\ step_span_ok step sp /\
                               step_span_more parent step sp)
          steps hs.
Proof.
  intros Hrun. apply process_steps_detail in Hrun as [-> Hall].
  apply Forall2_fmap_l. eapply Forall2_impl; [exact Hall |].
  intros [step parent] h (sp & Hat & Hok & Hmore). exists sp, parent. auto.
Qed.

End Each.

(** X2. The span of a job (of a step) is opened under the handle its run
    (its job) was paired with by [zip], whatever the ambient context is,
    and carries the record's name. *)
Theorem child_spans_hang_under_paired_handle (execution_id : string) :
  (forall runs run_spans repo w jobs hs w',
      process_jobs execution_id runs run_spans repo w = (Ok (jobs, hs), w') ->
      jobs = map fst (jobs_with_parents runs run_spans) /\
      Forall2 (fun jp h =>
                 exists sp, span_at w' h sp /\
                            Span.name sp = WorkflowJob.name (fst jp) /\
                            Span.parent sp = Some (snd jp))
              (jobs_with_parents runs run_spans) hs) /\
  (forall jobs job_spans w steps hs w',
      process_steps_spans execution_id jobs job_spans w = (Ok (steps, hs), w') ->
      steps = map fst (steps_with_parents jobs job_spans) /\
      Forall2 (fun sp_ h =>
                 exists sp, span_at w' h sp /\
                            Span.name sp = WorkflowStep.name (fst sp_) /\
                            Span.parent sp = Some (snd sp_))
              (steps_with_parents jobs job_spans) hs).
Proof.
  split.
  - intros runs run_spans repo w jobs hs w' Hrun.
    apply process_jobs_detail in Hrun as [Hjobs Hall].
    split; [exact Hjobs |]. eapply Forall2_impl; [exact Hall |].
    intros [job parent] h (sp & Hat & Hok & Hmore). exists sp.
    split; [exact Hat |]. split; [apply Hok | apply Hmore].
  - intros jobs job_spans w steps hs w' Hrun.
    apply process_steps_detail in Hrun as [Hsteps Hall].
    split; [exact Hsteps |]. eapply Forall2_impl; [exact Hall |].
    intros [step parent] h (sp & Hat & Hok & Hmore). exists sp.
    split; [exact Hat |]. split; [apply Hok | apply Hmore].
Qed.

Lemma child_spans_hang_under_paired_handle_witness :
  [Examples.job_failed; Examples.job_ok]
  = map fst (jobs_with_parents Examples.runs [0%nat; 1%nat]) /\
  Forall2 (fun jp h =>
             exists sp, span_at (snd (Examples.after_jobs Examples.repo_annotated)) h sp /\
                        Span.name sp = WorkflowJob.name (fst jp) /\
                        Span.parent sp = Some (snd jp))
          (jobs_with_parents Examples.runs [0%nat; 1%nat]) [2%nat; 3%nat].
Proof.
  apply (proj1 (child_spans_hang_under_paired_handle Examples.execution_id)
               Examples.runs [0%nat; 1%nat] Examples.repo_annotated
               (snd Examples.after_runs) [Examples.job_failed; Examples.job_ok]
               [2%nat; 3%nat] (snd (Examples.after_jobs Examples.repo_annotated))).
  vm_compute. reflexivity.
Defined.

(** X3. The three emitters run one after the other, as [main] runs them,
    build a tree that follows the records: the span of every job hangs
    under the span of the run that lists the job, and the span of every
    step under the span of the job that lists the step; the spans of the
    runs and of the jobs are still as their emitter left them. *)
Theorem trace_tree_follows_records (execution_id : string)
    (today_str : nat -> string) (workflow : Workflow.t)
    (start end_ : option string) (repo : Repository.t) (w : world)
    (runs : list WorkflowRun.t) (run_spans : list nat) (w1 : world)
    (jobs : list WorkflowJob.t) (job_spans : list nat) (w2 : world)
    (steps : list WorkflowStep.t) (step_spans : list nat) (w3 : world) :
  process_runs execution_id today_str workflow start end_ w
  = (Ok (runs, run_spans), w1) ->
  process_jobs execution_id runs run_spans repo w1 = (Ok (jobs, job_spans), w2) ->
  process_steps_spans execution_id jobs job_spans w2 = (Ok (steps, step_spans), w3) ->
  Forall2 (fun jp h =>
             exists sp run rsp,
               span_at w3 h sp /\ Span.parent sp = Some (snd jp) /\
               run ∈ runs /\ fst jp ∈ WorkflowRun.jobs run /\
               span_at w3 (snd jp) rsp /\ run_span_ok run rsp)
          (jobs_with_parents runs run_spans) job_spans /\
  Forall2 (fun sp_ h =>
             exists sp job jsp,
               span_at w3 h sp /\ Span.parent sp = Some (snd sp_) /\
               job ∈ jobs /\ fst sp_ ∈ WorkflowJob.steps job /\
               span_at w3 (snd sp_) jsp /\ job_span_ok repo job jsp)
          (steps_with_parents jobs job_spans) step_spans.
Proof.
  intros Hruns Hjobs Hsteps.
  pose proof (process_runs_ok _ _ _ _ _ _ _ _ _ Hruns) as [_ Hrun_spans].
  pose proof (process_jobs_ok _ _ _ _ _ _ _ _ Hjobs) as (Hext12 & _ & Hjob_spans).
  pose proof (process_steps_spans_ok _ _ _ _ _ _ _ Hsteps) as [Hext23 _].
  apply process_jobs_detail in Hjobs as [_ Hjd].
  apply process_steps_detail in Hsteps as [_ Hsd].
  split.
  - apply (Forall2_left_facts _
             (fun jp => exists run rsp,
                  run ∈ runs /\ fst jp ∈ WorkflowRun.jobs run /\
                  span_at w3 (snd jp) rsp /\ run_span_ok run rsp)) in Hjd.
    + eapply Forall2_impl; [exact Hjd |].
      intros [job parent] h [(sp & Hat & _ & Hmore) (run & rsp & Hin & Hj & Hr & Hok)].
      exists sp, run, rsp.
      split; [eapply span_at_extends; eassumption |].
      split; [apply Hmore | auto].
    + intros [job parent] Hin. unfold jobs_with_parents in Hin.
      apply (elem_of_concat_pairs (fun pair => WorkflowRun.jobs (fst pair)) snd)
        in Hin as ([run h] & Hz & Hj & ->).
      destruct (Forall2_zip_elem _ _ _ _ _ Hrun_spans Hz) as (rsp & Hat & Hok).
      exists run, rsp. cbn [fst snd] in *.
      split; [eapply elem_of_zip_l; exact Hz |]. split; [exact Hj |].
      split; [| exact Hok].
      eapply span_at_extends; [| exact Hext23].
      eapply span_at_extends; eassumption.
  - apply (Forall2_left_facts _
             (fun sp_ => exists job jsp,
                  job ∈ jobs /\ fst sp_ ∈ WorkflowJob.steps job /\
                  span_at w3 (snd sp_) jsp /\ job_span_ok repo job jsp)) in Hsd.
    + eapply Forall2_impl; [exact Hsd |].
      intros [step parent] h [(sp & Hat & _ & Hmore) (job & jsp & Hin & Hs & Hj & Hok)].
      exists sp, job, jsp.
      split; [exact Hat |]. split; [apply Hmore | auto].
    + intros [step parent] Hin. unfold steps_with_parents in Hin.
      apply (elem_of_concat_pairs (fun pair => WorkflowJob.steps (fst pair)) snd)
        in Hin as ([job h] & Hz & Hs & ->).
      destruct (Forall2_zip_elem _ _ _ _ _ Hjob_spans Hz) as (jsp & Hat & Hok).
      exists job, jsp. cbn [fst snd] in *.
      split; [eapply elem_of_zip_l; exact Hz |]. split; [exact Hs |].
      split; [| exact Hok].
      eapply span_at_extends; eassumption.
Qed.

Lemma trace_tree_follows_records_witness :
  Forall2 (fun jp h =>
             exists sp run rsp,
               span_at (snd Examples.after_steps) h sp /\
               Span.parent sp = Some (snd jp) /\
               run ∈ Examples.runs /\ fst jp ∈ WorkflowRun.jobs run /\
               span_at (snd Examples.after_steps) (snd jp) rsp /\
               run_span_ok run rsp)
          (jobs_with_parents Examples.runs [0%nat; 1%nat]) [2%nat; 3%nat] /\
  Forall2 (fun sp_ h =>
             exists sp job jsp,
               span_at (snd Examples.after_steps) h sp /\
               Span.parent sp = Some (snd sp_) /\
               job ∈ [Examples.job_failed; Examples.job_ok] /\
               fst sp_ ∈ WorkflowJob.steps job /\
               span_at (snd Examples.after_steps) (snd sp_) jsp /\
               job_span_ok Examples.repo_annotated job jsp)
          (steps_with_parents [Examples.job_failed; Examples.job_ok] [2%nat; 3%nat])
          [4%nat; 5%nat; 6%nat; 7%nat].
Proof.
  apply (trace_tree_follows_records Examples.execution_id Examples.today_str
           (Examples.workflow Examples.runs) None None Examples.repo_annotated
           initial_world Examples.runs [0%nat; 1%nat] (snd Examples.after_runs)
           [Examples.job_failed; Examples.job_ok] [2%nat; 3%nat]
           (snd (Examples.after_jobs Examples.repo_annotated))
           [Examples.step_ok; Examples.step_failed; Examples.step_ok; Examples.step_failed]
           [4%nat; 5%nat; 6%nat; 7%nat] (snd Examples.after_steps));
    vm_compute; reflexivity.
Defined.

(** ** The ambient context *)

Section Frames.
Context {A B : Type}.
Variable body : A -> M B.
Variable R : world -> world -> Prop.
Hypothesis R_refl : forall w, R w w.
Hypothesis R_trans : forall w1 w2 w3, R w1 w2 -> R w2 w3 -> R w1 w3.
Hypothesis body_frame : forall x w r w', body x w = (r, w') -> R w w'.

Lemma for_each_frame (l : list A) :
  forall w r w', for_each body l w = (r, w') -> R w w'.
Proof.
  induction l as [| x l IH]; intros w r w' Hrun.
  - injection Hrun as <- <-. apply R_refl.
  - simpl in Hrun. unfold bind in Hrun.
    destruct (body x w) as [[b | e] w1] eqn:Hb.
    + apply body_frame in Hb.
      destruct (for_each body l w1) as [[bs | e] w2] eqn:Hrest.
      * injection Hrun as <- <-. eapply R_trans; [exact Hb | eapply IH; exact Hrest].
      * injection Hrun as <- <-. eapply R_trans; [exact Hb | eapply IH; exact Hrest].
    + injection Hrun as <- <-. eapply body_frame; exact Hb.
Qed.

End Frames.


Section BindFrame.
Context {A B : Type}.
Variable R : world -> world -> Prop.
Hypothesis R_trans : forall w1 w2 w3, R w1 w2 -> R w2 w3 -> R w1 w3.

Lemma bind_frame (m : M A) (k : A -> M B) (w : world) (r : result B) (w' : world) :
  (forall r1 w1, m w = (r1, w1) -> R w w1) ->
  (forall a w1 r2 w2, k a w1 = (r2, w2) -> R w1 w2) ->
  bind m k w = (r, w') -> R w w'.
Proof.
  intros Hm Hk. unfold bind.
  destruct (m w) as [[a | e] w1] eqn:Hrun.
  - intros Hrest. eapply R_trans; [eapply Hm; reflexivity | eapply Hk; exact Hrest].
  - intros [= <- <-]. eapply Hm. reflexivity.
Qed.

End BindFrame.

Lemma adds_spans_refl (Q : Span.t -> Prop) (w : world) : adds_spans Q w w.
Proof. exists []. split; [now rewrite app_nil_r | constructor]. Qed.

Lemma adds_spans_trans (Q : Span.t -> Prop) (w1 w2 w3 : world) :
  adds_spans Q w1 w2 -> adds_spans Q w2 w3 -> adds_spans Q w1 w3.
Proof.
  intros (sps1 & Hs1 & Hall1) (sps2 & Hs2 & Hall2).
  exists (sps1 ++ sps2). split.
  - rewrite Hs2, Hs1. now rewrite app_assoc.
  - apply Forall_app. split; assumption.
Qed.

Lemma adds_spans_impl (Q Q' : Span.t -> Prop) (w w' : world) :
  (forall sp, Q sp -> Q' sp) -> adds_spans Q w w' -> adds_spans Q' w w'.
Proof.
  intros HQ (sps & Hs & Hall). exists sps. split; [exact Hs |].
  eapply Forall_impl; eassumption.
Qed.

Lemma adds_spans_same (Q : Span.t -> Prop) (w w' : world) :
  spans w' = spans w -> adds_spans Q w w'.
Proof. intros Hs. exists []. split; [now rewrite app_nil_r | constructor]. Qed.

Lemma adds_spans_one (Q : Span.t -> Prop) (w w' : world) (sp : Span.t) :
  spans w' = spans w ++ [sp] -> Q sp -> adds_spans Q w w'.
Proof. intros Hs HQ. exists [sp]. split; [exact Hs | repeat constructor; exact HQ]. Qed.

Lemma keeps_context_trans (w1 w2 w3 : world) :
  keeps_context w1 w2 -> keeps_context w2 w3 -> keeps_context w1 w3.
Proof. unfold keeps_context. intros [? ?] [? ?]. split; congruence. Qed.

Section AmbientContext.
Variable execution_id : string.
Variable today_str : nat -> string.

Lemma quiet_refl (w : world) : quiet execution_id w w.
Proof. split; [split; reflexivity | apply adds_spans_refl]. Qed.

Lemma quiet_trans (w1 w2 w3 : world) :
  quiet execution_id w1 w2 -> quiet execution_id w2 w3 -> quiet execution_id w1 w3.
Proof.
  intros [Hk1 Ha1] [Hk2 Ha2].
  split; [eapply keeps_context_trans | eapply adds_spans_trans]; eassumption.
Qed.

Lemma process_job_frame (repo : Repository.t) (parent : nat)
    (job : WorkflowJob.t) (w : world) (r : result nat) (w' : world) :
  process_job execution_id repo parent job w = (r, w') -> quiet execution_id w w'.
Proof.
  intros Hrun. apply process_job_effect in Hrun. destruct r as [h | e].
  - destruct Hrun as (_ & sp & log & t0 & t2 & q & -> & Hrest).
    split; [split; reflexivity |].
    eapply adds_spans_one; [reflexivity |]. split; apply Hrest.
  - subst w'. apply quiet_refl.
Qed.

Lemma process_step_frame (parent : nat) (step : WorkflowStep.t)
    (w : world) (r : result nat) (w' : world) :
  process_step execution_id parent step w = (r, w') ->
  quiet execution_id w w' /\ calls w' = calls w.
Proof.
  intros Hrun. apply process_step_effect in Hrun. destruct r as [h | e].
  - destruct Hrun as (_ & sp & -> & Hrest).
    split; [| reflexivity]. split; [split; reflexivity |].
    eapply adds_spans_one; [reflexivity |]. split; apply Hrest.
  - subst w'. split; [apply quiet_refl | reflexivity].
Qed.

Lemma process_run_frame (workflow : Workflow.t) (run : WorkflowRun.t)
    (w : world) (r : result nat) (w' : world) :
  process_run execution_id today_str workflow run w = (r, w') ->
  adds_spans (carries_execution_id execution_id) w w'.
Proof.
  intros Hrun. apply process_run_effect in Hrun. destruct r as [h | e].
  - destruct Hrun as (_ & sp & -> & Hrest).
    eapply adds_spans_one; [reflexivity |]. apply Hrest.
  - subst w'. apply adds_spans_refl.
Qed.

Lemma process_jobs_frame (runs : list WorkflowRun.t) (run_spans : list nat)
    (repo : Repository.t) (w : world) (r : result (list WorkflowJob.t * list nat))
    (w' : world) :
  process_jobs execution_id runs run_spans repo w = (r, w') ->
  quiet execution_id w w'.
Proof.
  unfold process_jobs. unfold bind at 1.
  destruct (for_each _ (zip runs run_spans) w) as [r1 w1] eqn:Hloop.
  assert (Hframe : quiet execution_id w w1).
  { eapply (for_each_frame _ (quiet execution_id) quiet_refl quiet_trans);
      [| exact Hloop].
    intros [run parent] wa r' wb. cbn [fst snd]. unfold bind, call, ret.
    destruct (for_each (process_job execution_id repo parent)
                       (WorkflowRun.jobs run) _) as [r'' wc] eqn:Hin.
    intros Hb.
    assert (wb = wc) as ->.
    { destruct r'' as [handles | e]; congruence. }
    eapply (for_each_frame _ (quiet execution_id) quiet_refl quiet_trans) in Hin.
    - destruct Hin as [[Hc Hk] Hadd]. split; [split |]; assumption.
    - intros job wx rx wy. apply process_job_frame. }
  destruct r1 as [per_run | e]; unfold ret; intros [= <- <-]; exact Hframe.
Qed.

Lemma process_steps_frame (jobs : list WorkflowJob.t) (job_spans : list nat)
    (w : world) (r : result (list WorkflowStep.t)) (w' : world) :
  process_steps execution_id jobs job_spans w = (r, w') ->
  quiet execution_id w w' /\ calls w' = calls w.
Proof.
  unfold process_steps, process_steps_spans. unfold bind at 1 2.
  destruct (for_each _ (zip jobs job_spans) w) as [r1 w1] eqn:Hloop.
  assert (Hframe : quiet execution_id w w1 /\ calls w1 = calls w).
  { eapply (for_each_frame _ (fun wa wb => quiet execution_id wa wb /\
                                          calls wb = calls wa));
      [| | | exact Hloop].
    - intros wa. split; [apply quiet_refl | reflexivity].
    - intros wa wb wc [H1 H1'] [H2 H2'].
      split; [eapply quiet_trans; eassumption | congruence].
    - intros [job parent] wa r' wb. cbn [fst snd]. unfold bind at 1.
      destruct (for_each (process_step execution_id parent)
                         (WorkflowJob.steps job) wa) as [r'' wc] eqn:Hin.
      intros Hb.
      assert (wb = wc) as ->.
      { destruct r'' as [handles | e]; unfold ret in Hb; congruence. }
      eapply (for_each_frame _ (fun wa wb => quiet execution_id wa wb /\
                                            calls wb = calls wa));
        [| | | exact Hin].
      + intros wx. split; [apply quiet_refl | reflexivity].
      + intros wx wy wz [H1 H1'] [H2 H2'].
        split; [eapply quiet_trans; eassumption | congruence].
      + intros step wx rx wy. apply process_step_frame. }
  destruct r1 as [per_job | e]; unfold ret; intros [= <- <-]; exact Hframe.
Qed.

Lemma process_runs_frame (workflow : Workflow.t) (start end_ : option string)
    (w : world) (r : result (list WorkflowRun.t * list nat)) (w' : world) :
  process_runs execution_id today_str workflow start end_ w = (r, w') ->
  adds_spans (carries_execution_id execution_id) w w'.
Proof.
  destruct (process_runs_listing execution_id today_str workflow start end_ w)
    as [log ->].
  unfold bind, ret.
  destruct (for_each _ _ _) as [r1 w1] eqn:Hloop.
  eapply (for_each_frame _ (adds_spans (carries_execution_id execution_id))) in Hloop.
  - destruct r1 as [hs | e]; intros [= <- <-]; exact Hloop.
  - apply adds_spans_refl.
  - apply adds_spans_trans.
  - intros run wx rx wy. apply process_run_frame.
Qed.

(** The loop of [process_runs] over runs whose spans are all ended. *)
Lemma run_loop_all_ended (workflow : Workflow.t) (runs : list WorkflowRun.t) :
  (forall run, run ∈ runs -> is_Some (run_end_time run)) ->
  forall w hs w',
    for_each (process_run execution_id today_str workflow) runs w = (Ok hs, w') ->
    current w' = current w /\
    Forall2 (fun run h => exists sp, span_at w' h sp /\
                            Span.parent sp = current w /\ ended sp)
            runs hs.
Proof.
  induction runs as [| run runs IH]; intros Hended w hs w' Hrun.
  - injection Hrun as <- <-. split; [reflexivity | constructor].
  - simpl in Hrun. unfold bind in Hrun.
    destruct (process_run execution_id today_str workflow run w)
      as [[h | e] w1] eqn:Hb; [| discriminate].
    destruct (for_each _ runs w1) as [[rest | e] w2] eqn:Hrest; [| discriminate].
    injection Hrun as <- <-.
    apply process_run_effect in Hb as (Hh & sp & Hw1 & Hpar & Hend & _).
    destruct (Hended run ltac:(left)) as [t Ht]. rewrite Ht in Hw1, Hend.
    assert (Hext : extends w1 w2).
    { eapply (for_each_ok _ (fun _ _ _ => True)); [auto | | exact Hrest].
      intros x wa b wb Hx. split; [| exact I].
      apply process_run_ok in Hx as (Hxh & spx & Hxs & _).
      eapply appended_one; eassumption. }
    destruct (IH ltac:(intros r Hr; apply Hended; now right) w1 rest w2 Hrest)
      as [Hcur Hall].
    assert (Hc1 : current w1 = current w) by (subst w1; reflexivity).
    split; [congruence |]. constructor.
    + exists sp. split; [| split; [exact Hpar | unfold ended; rewrite Hend; eauto]].
      eapply span_at_extends; [| exact Hext].
      eapply (appended_one w w1 h sp Hh). subst w1. reflexivity.
    + eapply Forall2_impl; [exact Hall |].
      intros x hx (spx & Hat & Hp & He). exists spx. rewrite <- Hc1. auto.
Qed.


End AmbientContext.


(** X5. When every run is ended by [process_runs] (it is completed, and
    its last update is not the epoch), the emitter restores the ambient
    context, and every span of a run is opened under the span that was the
    ambient one at the call: from a context without a span, the spans of
    the runs are roots. *)
Theorem ended_runs_share_the_ambient_parent (execution_id : string)
    (today_str : nat -> string) (workflow : Workflow.t)
    (start end_ : option string) (w : world) (runs : list WorkflowRun.t)
    (hs : list nat) (w' : world) :
  process_runs execution_id today_str workflow start end_ w = (Ok (runs, hs), w') ->
  (forall run, run ∈ runs -> is_Some (run_end_time run)) ->
  current w' = current w /\
  Forall2 (fun run h => exists sp, span_at w' h sp /\
                          Span.parent sp = current w /\ ended sp)
          runs hs.
Proof.
  intros Hrun Hended.
  destruct (process_runs_listing execution_id today_str workflow start end_ w)
    as [log Heq].
  rewrite Heq in Hrun. unfold bind, ret in Hrun.
  destruct (for_each _ _ _) as [[handles | e] w1] eqn:Hloop; [| discriminate].
  injection Hrun as <- <- <-.
  eapply run_loop_all_ended in Hloop; [exact Hloop | exact Hended].
Qed.

Lemma ended_runs_share_the_ambient_parent_witness :
  current (snd Examples.after_runs) = current initial_world /\
  Forall2 (fun run h => exists sp, span_at (snd Examples.after_runs) h sp /\
                          Span.parent sp = current initial_world /\ ended sp)
          Examples.runs [0%nat; 1%nat].
Proof.
  apply (ended_runs_share_the_ambient_parent Examples.execution_id
           Examples.today_str (Examples.workflow Examples.runs) None None
           initial_world Examples.runs [0%nat; 1%nat] (snd Examples.after_runs)).
  - vm_compute. reflexivity.
  - intros run Hin. unfold Examples.runs in Hin.
    apply elem_of_cons in Hin as [-> | Hin]; [vm_compute; eauto |].
    apply elem_of_cons in Hin as [-> | Hin]; [vm_compute; eauto | inversion Hin].
Defined.



(** ** The attributes of a job span *)

(** A whole number of seconds, as nanoseconds, divided by [10^9]: the
    quotient is exact. *)
Lemma div_1e9_rounds_exactly (s : bool) (m : Z) :
  0 < m -> m < 2 ^ 53 ->
  (let '(q, e, l) := SFdiv_core_binary Float64.prec Float64.emax
                       (m * 1000000000) 0 1000000000 0 in
   binary_round_aux Float64.prec Float64.emax s q e l)
  = S754_finite s (Z.to_pos (m * 2 ^ (53 - Zdigits2 m))) (Zdigits2 m - 53).
Proof.
  intros Hm Hlt.
  set (ds := Zdigits2 m). set (d1 := Zdigits2 (m * 1000000000)).
  assert (Hds : ds <= 53) by (apply Zdigits2_le; lia).
  assert (Hds1 : 1 <= ds).
  { unfold ds. rewrite Zdigits2_log2 by lia. pose proof (Z.log2_nonneg m). lia. }
  assert (Hd1 : ds <= d1 <= ds + 30).
  { split.
    - unfold ds. apply Zdigits2_le; [unfold d1; apply Zdigits2_nonneg | lia |].
      pose proof (Zdigits2_bound (m * 1000000000) ltac:(lia)) as Hb.
      fold d1 in Hb. lia.
    - unfold d1. apply Zdigits2_le; [lia | lia |].
      rewrite Z.pow_add_r by lia. pose proof (Zdigits2_bound m ltac:(lia)) as Hb.
      fold ds in Hb. change (2 ^ 30) with 1073741824. lia. }
  assert (Hcore : SFdiv_core_binary Float64.prec Float64.emax
                    (m * 1000000000) 0 1000000000 0
                  = (m * 2 ^ (83 - d1), d1 - 83, loc_Exact)).
  { unfold SFdiv_core_binary, Float64.prec, Float64.emax. fold d1.
    change (Zdigits2 1000000000) with 30. rewrite fexp64.
    replace (Z.min (Z.max (d1 + 0 - (30 + 0) - 53) (-1074)) (0 - 0)) with (d1 - 83)
      by lia.
    assert (Hshift : match 0 - 0 - (d1 - 83) with
                     | Z.pos _ => Z.shiftl (m * 1000000000) (0 - 0 - (d1 - 83))
                     | 0 => m * 1000000000
                     | Z.neg _ => 0
                     end = m * 1000000000 * 2 ^ (83 - d1)).
    { destruct (0 - 0 - (d1 - 83)) as [| p | p] eqn:Hsh.
      - replace (83 - d1) with 0 by lia. lia.
      - rewrite Z.shiftl_mul_pow2 by lia. do 2 f_equal. lia.
      - lia. }
    rewrite Hshift.
    pose proof (Z_div_mod (m * 1000000000 * 2 ^ (83 - d1)) 1000000000 ltac:(lia))
      as Hdm.
    destruct (Z.div_eucl (m * 1000000000 * 2 ^ (83 - d1)) 1000000000) as [q r].
    destruct Hdm as [Hdm Hr].
    assert (q = m * 2 ^ (83 - d1) /\ r = 0) as [-> ->].
    { generalize dependent (2 ^ (83 - d1)). intros X HX. nia. }
    reflexivity. }
  rewrite Hcore.
  replace (m * 2 ^ (83 - d1)) with ((m * 2 ^ (53 - ds)) * 2 ^ (30 + ds - d1))
    by (rewrite <- Z.mul_assoc, <- Z.pow_add_r by lia; do 2 f_equal; lia).
  unfold Float64.prec, Float64.emax.
  rewrite binary_round_aux_exact;
    [| apply normalized_bounds; [lia | exact Hds] | lia | lia].
  do 2 f_equal. lia.
Qed.

Lemma truediv_1e9_exact (d : Z) :
  Z.abs d < 2 ^ 53 ->
  Float64.truediv (d * 1000000000) 1000000000 = Ok (float_of_exact_int d).
Proof.
  intros Hd. unfold Float64.truediv.
  change (1000000000 =? 0) with false. change (1000000000 <? 0) with false.
  cbv iota. destruct d as [| p | p].
  - reflexivity.
  - replace (Z.pos p * 1000000000 <? 0) with false by (symmetry; apply Z.ltb_ge; lia).
    replace (Z.pos p * 1000000000 =? 0) with false by (symmetry; apply Z.eqb_neq; lia).
    rewrite Z.abs_eq by lia. change (Z.abs 1000000000) with 1000000000.
    pose proof (div_1e9_rounds_exactly (xorb false false) (Z.pos p)
                  ltac:(lia) ltac:(lia)) as Hq.
    destruct (SFdiv_core_binary _ _ _ _ _ _) as [[q e] l].
    rewrite Hq. reflexivity.
  - replace (Z.neg p * 1000000000 <? 0) with true by (symmetry; apply Z.ltb_lt; lia).
    replace (Z.neg p * 1000000000 =? 0) with false by (symmetry; apply Z.eqb_neq; lia).
    replace (Z.abs (Z.neg p * 1000000000)) with (Z.pos p * 1000000000) by lia.
    change (Z.abs 1000000000) with 1000000000.
    pose proof (div_1e9_rounds_exactly (xorb true false) (Z.pos p)
                  ltac:(lia) ltac:(lia)) as Hq.
    destruct (SFdiv_core_binary _ _ _ _ _ _) as [[q e] l].
    rewrite Hq. reflexivity.
Qed.

(** The float of an integer below [2^53] is that integer. *)
Lemma float_of_exact_int_value (d : Z) :
  Z.abs d < 2 ^ 53 -> Float64.to_int (float_of_exact_int d) = Ok d.
Proof.
  intros Hd.
  assert (Hpos : forall m, 0 < m -> m < 2 ^ 53 ->
                 Z.shiftl (Z.pos (Z.to_pos (m * 2 ^ (53 - Zdigits2 m))))
                          (Zdigits2 m - 53) = m).
  { intros m Hm Hlt.
    assert (Hds : Zdigits2 m <= 53) by (apply Zdigits2_le; lia).
    assert (Hp : 0 < 2 ^ (53 - Zdigits2 m)) by (apply Z.pow_pos_nonneg; lia).
    rewrite Z2Pos.id by nia.
    rewrite Z.shiftl_div_pow2 by lia.
    replace (- (Zdigits2 m - 53)) with (53 - Zdigits2 m) by lia.
    apply Z.div_mul. lia. }
  destruct d as [| p | p]; [reflexivity | |].
  - simpl float_of_exact_int. unfold float_of_small_int, Float64.to_int.
    rewrite Hpos by lia. reflexivity.
  - simpl float_of_exact_int. unfold float_of_small_int, Float64.to_int, SFopp.
    change (- Z.neg p) with (Z.pos p). rewrite Hpos by lia. reflexivity.
Qed.

Lemma events_mirror (job : WorkflowJob.t) (sp : Span.t)
    (annotations : list Annotation.t) :
  Forall2 (event_of_annotation job sp) annotations
          (map (annotation_event job (Span.start_time sp)) annotations).
Proof.
  induction annotations as [| item rest IH]; simpl; constructor; [| exact IH].
  unfold event_of_annotation, annotation_event. cbn [Event.name Event.timestamp
    Event.attributes].
  repeat split.
Qed.

(** X7. For a job whose three timestamps are whole seconds between the
    epoch and [2^62] nanoseconds, the span starts and ends at exactly
    seconds times [10^9], and [job.queue_time_seconds] is exactly the
    number of seconds from creation to start, as a float: the division by
    [1000000000] loses nothing, also when the job started before it was
    created. *)
Theorem job_span_times_exact_on_whole_seconds (execution_id : string)
    (runs : list WorkflowRun.t) (run_spans : list nat) (repo : Repository.t)
    (w : world) (jobs : list WorkflowJob.t) (hs : list nat) (w' : world) :
  process_jobs execution_id runs run_spans repo w = (Ok (jobs, hs), w') ->
  Forall2 (fun job h =>
             forall s0 s1 s2,
               WorkflowJob.started_at job = Some (at_second s0) ->
               WorkflowJob.completed_at job = Some (at_second s1) ->
               WorkflowJob.created_at job = Some (at_second s2) ->
               0 <= s0 -> s0 * 1000000000 < 2 ^ 62 ->
               0 <= s1 -> s1 * 1000000000 < 2 ^ 62 ->
               0 <= s2 -> s2 * 1000000000 < 2 ^ 62 ->
               exists sp q,
                 span_at w' h sp /\
                 Span.start_time sp = s0 * 1000000000 /\
                 Span.end_time sp = Some (s1 * 1000000000) /\
                 Span.attributes sp !! "job.queue_time_seconds" = Some (VFloat q) /\
                 q = float_of_exact_int (s0 - s2) /\
                 Float64.to_int q = Ok (s0 - s2))
          jobs hs.
Proof.
  intros Hrun. apply process_jobs_each in Hrun.
  eapply Forall2_impl; [exact Hrun |].
  intros job h (sp & parent & Hat & Hok & Hmore) s0 s1 s2 H0 H1 H2 ? ? ? ? ? ?.
  destruct Hok as (_ & Hstart & (t1 & Ht1 & Hend & _) & _).
  destruct Hmore as (_ & (t0 & t2 & q & Ht0 & Ht2 & Hq & Hqa) & _).
  unfold at_second in *.
  rewrite H0, convert_time_exact_on_seconds in Hstart, Ht0 by assumption.
  rewrite H1, convert_time_exact_on_seconds in Ht1 by assumption.
  rewrite H2, convert_time_exact_on_seconds in Ht2 by assumption.
  injection Hstart as Hstart. injection Ht0 as <-. injection Ht1 as <-.
  injection Ht2 as <-.
  replace (s0 * 1000000000 - s2 * 1000000000) with ((s0 - s2) * 1000000000)
    in Hq by lia.
  assert (Hsmall : Z.abs (s0 - s2) < 2 ^ 53).
  { change (2 ^ 62) with 4611686018427387904 in *.
    change (2 ^ 53) with 9007199254740992. lia. }
  rewrite truediv_1e9_exact in Hq by exact Hsmall. injection Hq as <-.
  exists sp, (float_of_exact_int (s0 - s2)).
  split; [exact Hat |]. split; [now symmetry |]. split; [exact Hend |].
  split; [exact Hqa |]. split; [reflexivity |].
  apply float_of_exact_int_value. exact Hsmall.
Qed.

Lemma job_span_times_exact_on_whole_seconds_witness :
  exists sp q,
    span_at (snd (Examples.after_jobs Examples.repo_annotated)) 2%nat sp /\
    Span.start_time sp = 1704110405 * 1000000000 /\
    Span.end_time sp = Some (1704111600 * 1000000000) /\
    Span.attributes sp !! "job.queue_time_seconds" = Some (VFloat q) /\
    q = float_of_exact_int (1704110405 - 1704110400) /\
    Float64.to_int q = Ok (1704110405 - 1704110400).
Proof.
  pose proof (job_span_times_exact_on_whole_seconds Examples.execution_id
                Examples.runs [0%nat; 1%nat] Examples.repo_annotated
                (snd Examples.after_runs) [Examples.job_failed; Examples.job_ok]
                [2%nat; 3%nat] (snd (Examples.after_jobs Examples.repo_annotated))
                ltac:(vm_compute; reflexivity)) as Hall.
  apply Forall2_cons_1 in Hall as [Hjob _].
  apply (Hjob 1704110405 1704111600 1704110400);
    first [reflexivity | lia | vm_compute; reflexivity].
Defined.

(** X8. The events of a job span are the annotations [fetch_annotations]
    handed back, one event each and in their order: the event is named
    after the job's conclusion, is stamped with the start of the job, and
    carries the message, the level and the title of the annotation and
    nothing else.  A fetch that failed hands back no annotation, and the
    span has no event. *)
Theorem job_events_mirror_annotations (execution_id : string)
    (runs : list WorkflowRun.t) (run_spans : list nat) (repo : Repository.t)
    (w : world) (jobs : list WorkflowJob.t) (hs : list nat) (w' : world) :
  process_jobs execution_id runs run_spans repo w = (Ok (jobs, hs), w') ->
  Forall2 (fun job h =>
             exists sp,
               span_at w' h sp /\
               Forall2 (event_of_annotation job sp)
                       (fst (fetched repo (WorkflowJob.id job)))
                       (Span.events sp) /\
               (fetch_failed repo (WorkflowJob.id job) -> Span.events sp = []))
          jobs hs.
Proof.
  intros Hrun. apply process_jobs_each in Hrun.
  eapply Forall2_impl; [exact Hrun |].
  intros job h (sp & parent & Hat & Hok & _).
  destruct Hok as (_ & _ & _ & _ & _ & Hev & _).
  exists sp. split; [exact Hat |].
  assert (Hevents : Span.events sp
                    = map (annotation_event job (Span.start_time sp))
                          (fst (fetched repo (WorkflowJob.id job)))).
  { rewrite Hev. unfold fetched.
    destruct (Repository.get_check_run repo (WorkflowJob.id job)) as [cr | msg];
      [destruct (CheckRun.get_annotations cr) as [anns | msg] |];
      cbn [fst snd of_opt_str truthy]; try reflexivity;
      destruct (negb (msg =? "")%string); reflexivity. }
  split.
  - rewrite Hevents. apply events_mirror.
  - intros [msg Hfail]. rewrite Hevents, Hfail. reflexivity.
Qed.

Lemma job_events_mirror_annotations_witness :
  Forall2 (fun job h =>
             exists sp,
               span_at (snd (Examples.after_jobs Examples.repo_annotated)) h sp /\
               Forall2 (event_of_annotation job sp)
                       (fst (fetched Examples.repo_annotated (WorkflowJob.id job)))
                       (Span.events sp) /\
               (fetch_failed Examples.repo_annotated (WorkflowJob.id job) ->
                Span.events sp = []))
          [Examples.job_failed; Examples.job_ok] [2%nat; 3%nat].
Proof.
  apply (job_events_mirror_annotations Examples.execution_id Examples.runs
           [0%nat; 1%nat] Examples.repo_annotated (snd Examples.after_runs)).
  vm_compute. reflexivity.
Defined.

(** X9. The runner attributes of a job span: [job.runner_group_name] is
    written exactly when the job has a runner group ID (with a null value
    when the group has no name, and not at all when only the name is
    there), [job.runner_group_id] and [job.runner_name] exactly when the
    job has them. *)
Theorem runner_attributes_follow_group_id (execution_id : string)
    (runs : list WorkflowRun.t) (run_spans : list nat) (repo : Repository.t)
    (w : world) (jobs : list WorkflowJob.t) (hs : list nat) (w' : world) :
  process_jobs execution_id runs run_spans repo w = (Ok (jobs, hs), w') ->
  Forall2 (fun job h =>
             exists sp,
               span_at w' h sp /\
               (WorkflowJob.runner_group_id job = None ->
                Span.attributes sp !! "job.runner_group_id" = None /\
                Span.attributes sp !! "job.runner_group_name" = None) /\
               (forall group,
                   WorkflowJob.runner_group_id job = Some group ->
                   Span.attributes sp !! "job.runner_group_id" = Some (VInt group) /\
                   Span.attributes sp !! "job.runner_group_name"
                   = Some (of_opt_str (WorkflowJob.runner_group_name job))) /\
               Span.attributes sp !! "job.runner_name"
               = VStr <$> WorkflowJob.runner_name job)
          jobs hs.
Proof.
  intros Hrun. apply process_jobs_each in Hrun.
  eapply Forall2_impl; [exact Hrun |].
  intros job h (sp & parent & Hat & _ & Hmore).
  destruct Hmore as (_ & _ & Hid & Hname & Hrunner).
  exists sp. split; [exact Hat |].
  split; [| split; [| exact Hrunner]].
  - intros Hnone. rewrite Hid, Hname, Hnone. split; reflexivity.
  - intros group Hsome. rewrite Hid, Hname, Hsome. split; reflexivity.
Qed.

Lemma runner_attributes_follow_group_id_witness :
  exists sp,
    span_at (snd (Examples.after_jobs Examples.repo_annotated)) 2%nat sp /\
    Span.attributes sp !! "job.runner_group_id" = None /\
    Span.attributes sp !! "job.runner_group_name" = None /\
    Span.attributes sp !! "job.runner_name" = Some (VStr "runner-1").
Proof.
  pose proof (runner_attributes_follow_group_id Examples.execution_id
                Examples.runs [0%nat; 1%nat] Examples.repo_annotated
                (snd Examples.after_runs) [Examples.job_failed; Examples.job_ok]
                [2%nat; 3%nat] (snd (Examples.after_jobs Examples.repo_annotated))
                ltac:(vm_compute; reflexivity)) as Hall.
  apply Forall2_cons_1 in Hall as [(sp & Hat & Hnone & _ & Hrunner) _].
  exists sp. split; [exact Hat |].
  destruct (Hnone eq_refl) as [Hid Hname].
  split; [exact Hid |]. split; [exact Hname | exact Hrunner].
Defined.

(** ** The arguments, the lookups and the name of a run *)

Lemma is_none_true (v : value) : is_none v = true <-> v = VNone.
Proof. destruct v; simpl; split; congruence. Qed.

Lemma is_none_false (v : value) : is_none v = false <-> v <> VNone.
Proof. destruct v; simpl; split; congruence. Qed.

Lemma str_eq_value_spec (name : string) (v : value) :
  str_eq_value name v = true <-> v = VStr name.
Proof.
  destruct v as [| b | n | x | s]; simpl; try (split; [discriminate | discriminate]).
  rewrite String.eqb_eq. split; [intros ->; reflexivity | intros [= ->]; reflexivity].
Qed.

Lemma first_named_spec (workflow_name : value) (workflows : list Workflow.t) :
  match first_named workflow_name workflows with
  | Some wf =>
      exists pre post,
        workflows = pre ++ wf :: post /\
        workflow_name = VStr (Workflow.name wf) /\
        Forall (fun x => workflow_name <> VStr (Workflow.name x)) pre
  | None => Forall (fun x => workflow_name <> VStr (Workflow.name x)) workflows
  end.
Proof.
  induction workflows as [| wf rest IH]; simpl; [constructor |].
  destruct (str_eq_value (Workflow.name wf) workflow_name) eqn:Heq.
  - apply str_eq_value_spec in Heq. exists [], rest. auto.
  - assert (Hne : workflow_name <> VStr (Workflow.name wf)).
    { intros Hv. apply str_eq_value_spec in Hv. congruence. }
    destruct (first_named workflow_name rest) as [found |].
    + destruct IH as (pre & post & -> & Hname & Hpre).
      exists (wf :: pre), post. auto.
    + constructor; assumption.
Qed.

Lemma first_match_unique (workflow_name : value) (pre post pre' post' : list Workflow.t)
    (wf wf' : Workflow.t) :
  pre ++ wf :: post = pre' ++ wf' :: post' ->
  workflow_name = VStr (Workflow.name wf) ->
  workflow_name = VStr (Workflow.name wf') ->
  Forall (fun x => workflow_name <> VStr (Workflow.name x)) pre ->
  Forall (fun x => workflow_name <> VStr (Workflow.name x)) pre' ->
  wf = wf'.
Proof.
  revert pre'. induction pre as [| x pre IH]; intros pre' Heq Hwf Hwf' Hpre Hpre'.
  - destruct pre' as [| y pre']; simpl in Heq.
    + congruence.
    + injection Heq as <- _. apply Forall_cons in Hpre' as [Hy _]. contradiction.
  - destruct pre' as [| y pre']; simpl in Heq.
    + injection Heq as <- _. apply Forall_cons in Hpre as [Hx _]. contradiction.
    + injection Heq as <- Heq. apply Forall_cons in Hpre as [_ Hpre].
      apply Forall_cons in Hpre' as [_ Hpre']. eapply IH; eassumption.
Qed.

Lemma get_args_fields (g : Github.t) (kwargs : gmap string value)
    (w : world) (org repo_name workflow_name start end_ : value) (skip : bool)
    (w' : world) :
  get_args g kwargs w = (Ok (org, repo_name, workflow_name, start, end_, skip), w') ->
  repo_name = kwargs_get kwargs "repo" /\
  workflow_name = kwargs_get kwargs "workflow" /\
  start = kwargs_get kwargs "start" /\
  end_ = kwargs_get kwargs "end" /\
  skip = truthy (kwargs_get kwargs "skipsteps") /\
  spans w' = spans w.
Proof.
  unfold get_args.
  destruct (is_none (kwargs_get kwargs "repo") || is_none (kwargs_get kwargs "workflow"));
    [intros [=] |].
  destruct (is_none (kwargs_get kwargs "org")); unfold_py;
    [destruct (Github.login g) as [login | msg]; [| intros [=]] |];
    (destruct ((is_none (kwargs_get kwargs "start")
                && negb (is_none (kwargs_get kwargs "end")))
               || (negb (is_none (kwargs_get kwargs "start"))
                   && is_none (kwargs_get kwargs "end"))); [intros [=] |]);
    intros [= <- <- <- <- <- <- <-]; cbn [spans];
    repeat split; destruct (truthy _); reflexivity.
Qed.

(** X10. What [get_args] returns: the repository and the workflow as
    given, neither of them [None]; an organisation that is never [None]
    (the one given, else the login of the authenticated user, asked of the
    client by two calls); [start] and [end] as given, both [None] or
    neither; and the truth value of [skipsteps].  No span is touched. *)
Theorem get_args_returned_tuple (g : Github.t) (kwargs : gmap string value)
    (w : world) (org repo_name workflow_name start end_ : value) (skip : bool)
    (w' : world) :
  get_args g kwargs w = (Ok (org, repo_name, workflow_name, start, end_, skip), w') ->
  (repo_name = kwargs_get kwargs "repo" /\ repo_name <> VNone) /\
  (workflow_name = kwargs_get kwargs "workflow" /\ workflow_name <> VNone) /\
  org <> VNone /\
  (start = kwargs_get kwargs "start" /\ end_ = kwargs_get kwargs "end" /\
   (start = VNone <-> end_ = VNone)) /\
  skip = truthy (kwargs_get kwargs "skipsteps") /\
  (spans w' = spans w /\ current w' = current w /\ clock_reads w' = clock_reads w) /\
  match kwargs_get kwargs "org" with
  | VNone => exists login, Github.login g = ApiOk login /\ org = VStr login /\
                           calls w' = calls w ++ [Call_get_user; Call_user_login]
  | given => org = given /\ calls w' = calls w
  end.
Proof.
  unfold get_args.
  destruct (is_none (kwargs_get kwargs "repo")) eqn:Hrepo; [intros [=] |].
  destruct (is_none (kwargs_get kwargs "workflow")) eqn:Hwf; [intros [=] |].
  cbn [orb]. apply is_none_false in Hrepo, Hwf.
  destruct (is_none (kwargs_get kwargs "org")) eqn:Horg; unfold_py.
  - apply is_none_true in Horg. rewrite Horg.
    destruct (Github.login g) as [login | msg]; [| intros [=]].
    destruct (is_none (kwargs_get kwargs "start")) eqn:Hstart,
             (is_none (kwargs_get kwargs "end")) eqn:Hend;
      cbn [negb andb orb]; try (intros [=]; fail);
      intros [= <- <- <- <- <- <- <-]; cbn [spans current clock_reads calls];
      (split; [auto |]); (split; [auto |]); (split; [discriminate |]);
      (split; [split; [reflexivity | split; [reflexivity |]];
               rewrite <- !is_none_true, Hstart, Hend; tauto |]);
      (split; [destruct (truthy _); reflexivity |]);
      (split; [auto |]);
      exists login; rewrite <- app_assoc; auto.
  - apply is_none_false in Horg.
    destruct (is_none (kwargs_get kwargs "start")) eqn:Hstart,
             (is_none (kwargs_get kwargs "end")) eqn:Hend;
      cbn [negb andb orb]; try (intros [=]; fail);
      intros [= <- <- <- <- <- <- <-]; cbn [spans current clock_reads calls];
      (split; [auto |]); (split; [auto |]); (split; [exact Horg |]);
      (split; [split; [reflexivity | split; [reflexivity |]];
               rewrite <- !is_none_true, Hstart, Hend; tauto |]);
      (split; [destruct (truthy _); reflexivity |]);
      (split; [auto |]);
      (destruct (kwargs_get kwargs "org");
       [exfalso; apply Horg; reflexivity | auto ..]).
Qed.

Lemma get_args_returned_tuple_witness :
  (VStr "gha-otel" = kwargs_get Scenarios.kwargs "repo" /\ VStr "gha-otel" <> VNone) /\
  (VStr "CI" = kwargs_get Scenarios.kwargs "workflow" /\ VStr "CI" <> VNone) /\
  VStr "isismoura" <> VNone /\
  (VNone = kwargs_get Scenarios.kwargs "start" /\
   VNone = kwargs_get Scenarios.kwargs "end" /\
   (VNone = VNone <-> VNone = VNone)) /\
  true = truthy (kwargs_get Scenarios.kwargs "skipsteps") /\
  (spans initial_world = spans initial_world /\
   current initial_world = current initial_world /\
   clock_reads initial_world = clock_reads initial_world) /\
  VStr "isismoura" = VStr "isismoura" /\ calls initial_world = calls initial_world.
Proof.
  apply (get_args_returned_tuple Examples.client Scenarios.kwargs initial_world
           (VStr "isismoura") (VStr "gha-otel") (VStr "CI") VNone VNone true
           initial_world).
  vm_compute. reflexivity.
Defined.

(** X11. [get_args] returns exactly when [repo] and [workflow] are
    given, [start] and [end] are both given or both absent, and, [org]
    being absent, the client answers the request for the login.  Else it
    halts the process or passes on the failure of that request. *)
Theorem get_args_returns_iff (g : Github.t) (kwargs : gmap string value)
    (w : world) :
  (exists args w', get_args g kwargs w = (Ok args, w')) <->
  (kwargs_get kwargs "repo" <> VNone /\
   kwargs_get kwargs "workflow" <> VNone /\
   ~ half_specified kwargs /\
   (kwargs_get kwargs "org" = VNone -> exists login, Github.login g = ApiOk login)).
Proof.
  unfold get_args, half_specified.
  rewrite <- !is_none_false, <- is_none_true.
  destruct (is_none (kwargs_get kwargs "repo")) eqn:Hrepo;
    [split; [intros (args & w' & [=]) | intros ([=] & _)] |].
  destruct (is_none (kwargs_get kwargs "workflow")) eqn:Hwf;
    [split; [intros (args & w' & [=]) | intros (_ & [=] & _)] |].
  cbn [orb].
  destruct (is_none (kwargs_get kwargs "org")) eqn:Horg; unfold_py;
    [destruct (Github.login g) as [login | msg] |];
    destruct (is_none (kwargs_get kwargs "start")) eqn:Hstart,
             (is_none (kwargs_get kwargs "end")) eqn:Hend;
    cbn [negb andb orb];
    (split;
     [ intros (args & w' & Heq); try discriminate Heq;
       (split; [reflexivity |]); (split; [reflexivity |]);
       (split; [intros Hhalf; apply Hhalf; reflexivity |]);
       intros Hnone; try discriminate Hnone; eauto
     | intros (_ & _ & Hhalf & Hlogin);
       try (exfalso; apply Hhalf; discriminate);
       try (destruct (Hlogin eq_refl) as [login' [=]]);
       eauto ]).
Qed.

(** X12. [get_workflow] returns the first workflow of the repository
    whose name is the one asked for, leaving later workflows of the same
    name aside; when no workflow has that name (as when the name is not a
    string) it halts the process.  It changes nothing. *)
Theorem get_workflow_returns_first_match (hosting : Hosting.t)
    (workflow_name : value) (repo : Repository.t) (w : world) :
  (forall wf,
      get_workflow hosting workflow_name repo w = (Ok wf, w) <->
      exists pre post,
        Hosting.get_workflows hosting repo = pre ++ wf :: post /\
        workflow_name = VStr (Workflow.name wf) /\
        Forall (fun x => workflow_name <> VStr (Workflow.name x)) pre) /\
  (get_workflow hosting workflow_name repo w = (Raise SystemExit, w) <->
   Forall (fun x => workflow_name <> VStr (Workflow.name x))
          (Hosting.get_workflows hosting repo)) /\
  ((exists wf, get_workflow hosting workflow_name repo w = (Ok wf, w)) \/
   get_workflow hosting workflow_name repo w = (Raise SystemExit, w)).
Proof.
  unfold get_workflow.
  pose proof (first_named_spec workflow_name (Hosting.get_workflows hosting repo))
    as Hspec.
  destruct (first_named workflow_name (Hosting.get_workflows hosting repo))
    as [found |].
  - destruct Hspec as (pre & post & Hlist & Hname & Hpre).
    split; [| split].
    + intros wf. split.
      * intros [= <-]. exists pre, post. auto.
      * intros (pre' & post' & Hlist' & Hname' & Hpre').
        rewrite Hlist in Hlist'.
        rewrite (first_match_unique workflow_name pre post pre' post' found wf);
          auto.
    + split; [discriminate |].
      intros Hall. rewrite Hlist in Hall. apply Forall_app in Hall as [_ Hall].
      apply Forall_cons in Hall as [Hne _]. contradiction.
    + left. exists found. reflexivity.
  - split; [| split].
    + intros wf. split; [discriminate |].
      intros (pre & post & Hlist & Hname & _).
      rewrite Hlist in Hspec. apply Forall_app in Hspec as [_ Hall].
      apply Forall_cons in Hall as [Hne _]. contradiction.
    + split; [intros _; exact Hspec | reflexivity].
    + right. reflexivity.
Qed.

Lemma has_char_before_first_dot (c : Ascii.ascii) (s : string) :
  has_char c s = false -> has_char c (before_first_dot s) = false.
Proof.
  induction s as [| x rest IH]; [reflexivity |]. simpl.
  intros Hc. apply orb_false_iff in Hc as [Hx Hrest].
  destruct (Ascii.eqb x "."%char); [reflexivity |].
  simpl. rewrite Hx. simpl. now apply IH.
Qed.

Lemma no_dot_before_first_dot (s : string) :
  has_char "."%char (before_first_dot s) = false.
Proof.
  induction s as [| x rest IH]; [reflexivity |]. simpl.
  destruct (Ascii.eqb x "."%char) eqn:Hx; [reflexivity |].
  simpl. rewrite Hx. exact IH.
Qed.

Lemma split_pieces_without_sep (sep : Ascii.ascii) (s : string) :
  Forall (fun piece => has_char sep piece = false) (split sep s).
Proof.
  induction s as [| x rest IH]; simpl.
  - repeat constructor.
  - destruct (Ascii.eqb x sep) eqn:Hx.
    + constructor; [reflexivity | exact IH].
    + destruct (split sep rest) as [| piece pieces].
      * repeat constructor. simpl. now rewrite Hx.
      * apply Forall_cons in IH as [Hp Hps].
        constructor; [| exact Hps]. simpl. now rewrite Hx, Hp.
Qed.

Lemma Forall_last {A} (P : A -> Prop) (l : list A) (d : A) :
  Forall P l -> P d -> P (List.last l d).
Proof.
  intros Hall Hd. induction Hall as [| x l Hx Hall IH]; [exact Hd |].
  simpl. destruct l; [exact Hx | exact IH].
Qed.

(** X13. The name [process_runs] gives the span of a run holds neither
    a slash nor a dot, whatever the path of the run is. *)
Theorem run_name_has_no_separator (path : string) :
  has_char "/"%char (run_name path) = false /\
  has_char "."%char (run_name path) = false.
Proof.
  unfold run_name. rewrite hd_split_dot. split.
  - apply has_char_before_first_dot.
    apply (Forall_last (fun piece => has_char "/"%char piece = false)).
    + apply split_pieces_without_sep.
    + reflexivity.
  - apply no_dot_before_first_dot.
Qed.

(** ** [main] *)

Section Main.
Variable execution_id : string.
Variable g : Github.t.
Variable today_str : nat -> string.
Variable hosting : Hosting.t.
Variable float_repr : Float64.float -> string.

Lemma get_args_spans (kwargs : gmap string value) (w : world)
    (r : result (value * value * value * value * value * bool)) (w1 : world) :
  get_args g kwargs w = (r, w1) -> spans w1 = spans w.
Proof.
  unfold get_args.
  destruct (is_none (kwargs_get kwargs "repo") || is_none (kwargs_get kwargs "workflow"));
    [intros [= <- <-]; reflexivity |].
  destruct (is_none (kwargs_get kwargs "org")); unfold_py;
    [destruct (Github.login g) as [login | msg] |];
    try (intros [= <- <-]; reflexivity);
    destruct ((is_none (kwargs_get kwargs "start")
               && negb (is_none (kwargs_get kwargs "end")))
              || (negb (is_none (kwargs_get kwargs "start"))
                  && is_none (kwargs_get kwargs "end")));
    intros [= <- <-]; reflexivity.
Qed.

(** [main] once its arguments and the two lookups are through. *)
Lemma main_after_lookups (kwargs : gmap string value) (w : world)
    (org repo_name workflow_name start end_ : value) (skip : bool) (w1 : world)
    (repo : Repository.t) (workflow : Workflow.t) :
  get_args g kwargs w = (Ok (org, repo_name, workflow_name, start, end_, skip), w1) ->
  Hosting.get_repo hosting (format_value float_repr org +:+ "/"
                            +:+ format_value float_repr repo_name) = Ok repo ->
  first_named workflow_name (Hosting.get_workflows hosting repo) = Some workflow ->
  main execution_id g today_str hosting float_repr kwargs w
  = (emitted_runs <- process_runs execution_id today_str workflow
                                  (as_opt_str float_repr start)
                                  (as_opt_str float_repr end_) ;;
     emitted_jobs <- process_jobs execution_id (fst emitted_runs) (snd emitted_runs)
                                  repo ;;
     (if negb skip then
        steps <- process_steps execution_id (fst emitted_jobs) (snd emitted_jobs) ;;
        ret tt
      else ret tt) ;;
     ret tt) w1.
Proof.
  intros Hargs Hrepo Hwf. unfold main. unfold bind at 1. rewrite Hargs.
  unfold bind at 1. unfold get_repo, try_except_github. unfold bind at 1.
  unfold lift. rewrite Hrepo. unfold ret at 1.
  unfold bind at 1. unfold get_workflow. rewrite Hwf. reflexivity.
Qed.

(** [main] when a lookup fails. *)
Lemma main_lookup_failure (kwargs : gmap string value) (w : world)
    (org repo_name workflow_name start end_ : value) (skip : bool) (w1 : world) :
  get_args g kwargs w = (Ok (org, repo_name, workflow_name, start, end_, skip), w1) ->
  match Hosting.get_repo hosting (format_value float_repr org +:+ "/"
                                  +:+ format_value float_repr repo_name) with
  | Raise e =>
      main execution_id g today_str hosting float_repr kwargs w
      = (Raise (if is_GithubException e then SystemExit else e), w1)
  | Ok repo =>
      first_named workflow_name (Hosting.get_workflows hosting repo) = None ->
      main execution_id g today_str hosting float_repr kwargs w
      = (Raise SystemExit, w1)
  end.
Proof.
  intros Hargs.
  destruct (Hosting.get_repo hosting _) as [repo | e] eqn:Hrepo.
  - intros Hwf. unfold main. unfold bind at 1. rewrite Hargs.
    unfold bind at 1. unfold get_repo, try_except_github. unfold bind at 1.
    unfold lift. rewrite Hrepo. unfold ret at 1. unfold bind at 1.
    unfold get_workflow. rewrite Hwf. reflexivity.
  - unfold main. unfold bind at 1. rewrite Hargs.
    unfold bind at 1. unfold get_repo, try_except_github. unfold bind at 1.
    unfold lift. rewrite Hrepo. destruct e; reflexivity.
Qed.

Lemma main_ok_inv (kwargs : gmap string value) (w w' : world) :
  main execution_id g today_str hosting float_repr kwargs w = (Ok tt, w') ->
  exists org repo_name workflow_name start end_ skip w1 repo workflow
         runs run_spans w2 jobs job_spans w3,
    get_args g kwargs w
    = (Ok (org, repo_name, workflow_name, start, end_, skip), w1) /\
    Hosting.get_repo hosting (format_value float_repr org +:+ "/"
                              +:+ format_value float_repr repo_name) = Ok repo /\
    first_named workflow_name (Hosting.get_workflows hosting repo) = Some workflow /\
    process_runs execution_id today_str workflow (as_opt_str float_repr start)
                 (as_opt_str float_repr end_) w1 = (Ok (runs, run_spans), w2) /\
    process_jobs execution_id runs run_spans repo w2 = (Ok (jobs, job_spans), w3) /\
    (if skip then w' = w3
     else exists steps,
         process_steps execution_id jobs job_spans w3 = (Ok steps, w')).
Proof.
  intros Hmain.
  destruct (get_args g kwargs w) as [[args | e] w1] eqn:Hargs;
    [| unfold main, bind in Hmain; rewrite Hargs in Hmain; discriminate].
  destruct args as [[[[[org repo_name] workflow_name] start] end_] skip].
  pose proof (main_lookup_failure kwargs w org repo_name workflow_name start end_
                skip w1 Hargs) as Hfail.
  destruct (Hosting.get_repo hosting _) as [repo | e] eqn:Hrepo; [| congruence].
  destruct (first_named workflow_name (Hosting.get_workflows hosting repo))
    as [workflow |] eqn:Hwf; [| rewrite Hfail in Hmain by reflexivity; discriminate].
  rewrite (main_after_lookups kwargs w org repo_name workflow_name start end_ skip
             w1 repo workflow Hargs Hrepo Hwf) in Hmain.
  unfold bind at 1 in Hmain.
  destruct (process_runs _ _ _ _ _ w1) as [[[runs run_spans] | e] w2] eqn:Hruns;
    [| discriminate].
  unfold bind at 1 in Hmain. cbn [fst snd] in Hmain.
  destruct (process_jobs _ _ _ _ w2) as [[[jobs job_spans] | e] w3] eqn:Hjobs;
    [| discriminate].
  cbn [fst snd] in Hmain.
  exists org, repo_name, workflow_name, start, end_, skip, w1, repo, workflow,
         runs, run_spans, w2, jobs, job_spans, w3.
  repeat (split; [assumption || reflexivity |]).
  destruct skip; cbn [negb] in Hmain; unfold bind, ret in Hmain.
  - congruence.
  - destruct (process_steps _ _ _ w3) as [[steps | e] w4] eqn:Hsteps;
      [| discriminate].
    exists steps. congruence.
Qed.

End Main.


Lemma extends_same_spans (w w' : world) : spans w' = spans w -> extends w w'.
Proof. unfold extends. intros ->. reflexivity. Qed.

(** X14. When a lookup fails, [main] stops before any span is opened,
    in the world [get_args] left: a [GithubException] of the repository
    lookup halts the process, any other exception of that lookup is passed
    on as it is, and a repository without a workflow of the name asked for
    halts the process. *)
Theorem main_stops_on_failed_lookup (execution_id : string) (g : Github.t)
    (today_str : nat -> string) (hosting : Hosting.t)
    (float_repr : Float64.float -> string) (kwargs : gmap string value)
    (w : world) (org repo_name workflow_name start end_ : value) (skip : bool)
    (w1 : world) :
  get_args g kwargs w = (Ok (org, repo_name, workflow_name, start, end_, skip), w1) ->
  (forall msg,
      Hosting.get_repo hosting (format_value float_repr org +:+ "/"
                                +:+ format_value float_repr repo_name)
      = Raise (GithubException msg) ->
      main execution_id g today_str hosting float_repr kwargs w
      = (Raise SystemExit, w1)) /\
  (forall e,
      Hosting.get_repo hosting (format_value float_repr org +:+ "/"
                                +:+ format_value float_repr repo_name) = Raise e ->
      is_GithubException e = false ->
      main execution_id g today_str hosting float_repr kwargs w = (Raise e, w1)) /\
  (forall repo,
      Hosting.get_repo hosting (format_value float_repr org +:+ "/"
                                +:+ format_value float_repr repo_name) = Ok repo ->
      Forall (fun wf => workflow_name <> VStr (Workflow.name wf))
             (Hosting.get_workflows hosting repo) ->
      main execution_id g today_str hosting float_repr kwargs w
      = (Raise SystemExit, w1)) /\
  spans w1 = spans w.
Proof.
  intros Hargs.
  pose proof (main_lookup_failure execution_id g today_str hosting float_repr
                kwargs w org repo_name workflow_name start end_ skip w1 Hargs)
    as Hfail.
  split; [| split; [| split]].
  - intros msg Hrepo. rewrite Hrepo in Hfail. exact Hfail.
  - intros e Hrepo He. rewrite Hrepo, He in Hfail. exact Hfail.
  - intros repo Hrepo Hall. rewrite Hrepo in Hfail. apply Hfail.
    pose proof (first_named_spec workflow_name (Hosting.get_workflows hosting repo))
      as Hspec.
    destruct (first_named workflow_name (Hosting.get_workflows hosting repo))
      as [found |]; [| reflexivity].
    destruct Hspec as (pre & post & Hlist & Hname & _).
    rewrite Hlist in Hall. apply Forall_app in Hall as [_ Hall].
    apply Forall_cons in Hall as [Hne _]. contradiction.
  - apply (get_args_spans g kwargs w _ w1 Hargs).
Qed.

Lemma main_stops_on_failed_lookup_witness :
  Scenarios.run_main Scenarios.kwargs_unknown_repo = (Raise SystemExit, initial_world).
Proof.
  apply (proj1 (main_stops_on_failed_lookup Examples.execution_id Examples.client
                  Examples.today_str Scenarios.hosting Scenarios.float_repr
                  Scenarios.kwargs_unknown_repo initial_world
                  (VStr "isismoura") (VStr "nowhere") (VStr "CI") VNone VNone true
                  initial_world ltac:(vm_compute; reflexivity))
               "404 Not Found").
  vm_compute. reflexivity.
Defined.

Section MainTheorems.
Variable execution_id : string.
Variable g : Github.t.
Variable today_str : nat -> string.
Variable hosting : Hosting.t.
Variable float_repr : Float64.float -> string.

(** X15. A returning [main] has opened one span for every run the
    workflow lists for the date range, one for every job of these runs and,
    unless [skipsteps] is set, one for every step of these jobs, and no
    other span; with [skipsteps] set, no step is looked at. *)
Theorem main_emits_one_span_per_record (kwargs : gmap string value) (w w' : world) :
  main execution_id g today_str hosting float_repr kwargs w = (Ok tt, w') ->
  exists org w1 repo workflow,
    get_args g kwargs w
    = (Ok (org, kwargs_get kwargs "repo", kwargs_get kwargs "workflow",
           kwargs_get kwargs "start", kwargs_get kwargs "end",
           truthy (kwargs_get kwargs "skipsteps")), w1) /\
    Hosting.get_repo hosting
      (format_value float_repr org +:+ "/"
       +:+ format_value float_repr (kwargs_get kwargs "repo")) = Ok repo /\
    first_named (kwargs_get kwargs "workflow") (Hosting.get_workflows hosting repo)
    = Some workflow /\
    exists runs jobs steps,
      runs = Workflow.get_runs workflow
               (created_filter (as_opt_str float_repr (kwargs_get kwargs "start"))
                               (as_opt_str float_repr (kwargs_get kwargs "end"))) /\
      jobs = concat (map WorkflowRun.jobs runs) /\
      steps = concat (map WorkflowJob.steps jobs) /\
      length (spans w')
      = (length (spans w) + length runs + length jobs
         + (if truthy (kwargs_get kwargs "skipsteps") then 0 else length steps))%nat /\
      extends w w'.
Proof.
  intros Hmain.
  apply main_ok_inv in Hmain
    as (org & repo_name & workflow_name & start & end_ & skip & w1 & repo & workflow
        & runs & run_spans & w2 & jobs & job_spans & w3
        & Hargs & Hrepo & Hwf & Hruns & Hjobs & Hsteps).
  pose proof (get_args_fields _ _ _ _ _ _ _ _ _ _ Hargs)
    as (-> & -> & -> & -> & -> & Hspans).
  exists org, w1, repo, workflow.
  split; [exact Hargs |]. split; [exact Hrepo |]. split; [exact Hwf |].
  apply process_runs_fresh in Hruns as (Hr & Hhs & Hlen2 & Hext2).
  apply process_jobs_fresh in Hjobs as (Hj & Hjs & Hlen3 & Hext3).
  assert (Hall : take (length run_spans) runs = runs).
  { apply take_ge. rewrite Hhs, length_seq. lia. }
  rewrite Hall in Hj.
  exists runs, jobs, (concat (map WorkflowJob.steps jobs)).
  split; [exact Hr |]. split; [exact Hj |]. split; [reflexivity |].
  assert (Hext1 : extends w w3).
  { eapply extends_trans; [apply extends_same_spans; exact Hspans |].
    eapply extends_trans; eassumption. }
  destruct (truthy (kwargs_get kwargs "skipsteps")).
  - subst w'. split; [rewrite Hlen3, Hlen2, Hspans; lia | exact Hext1].
  - destruct Hsteps as [steps Hsteps].
    apply process_steps_spans_of in Hsteps as [hs Hsteps].
    apply process_steps_spans_fresh in Hsteps as (Hs & _ & Hlen4 & Hext4).
    assert (Hallj : take (length job_spans) jobs = jobs).
    { apply take_ge. rewrite Hjs, length_seq. lia. }
    rewrite Hallj in Hs. subst steps.
    split; [rewrite Hlen4, Hlen3, Hlen2, Hspans; lia |].
    eapply extends_trans; eassumption.
Qed.


(** X17. Every span [main] adds to the span store carries the ID of the
    execution, whatever the outcome of [main]; spans that were there are
    left as they were. *)
Theorem main_spans_carry_execution_id (kwargs : gmap string value) (w : world) :
  adds_spans (carries_execution_id execution_id) w
             (snd (main execution_id g today_str hosting float_repr kwargs w)).
Proof.
  destruct (get_args g kwargs w) as [[args | e] w1] eqn:Hargs.
  - pose proof (get_args_spans g kwargs w _ w1 Hargs) as Hspans.
    destruct args as [[[[[org repo_name] workflow_name] start] end_] skip].
    pose proof (main_lookup_failure execution_id g today_str hosting float_repr
                  kwargs w org repo_name workflow_name start end_ skip w1 Hargs)
      as Hfail.
    destruct (Hosting.get_repo hosting _) as [repo | e] eqn:Hrepo;
      [| rewrite Hfail; now apply adds_spans_same].
    destruct (first_named workflow_name (Hosting.get_workflows hosting repo))
      as [workflow |] eqn:Hwf;
      [| rewrite Hfail by reflexivity; now apply adds_spans_same].
    rewrite (main_after_lookups execution_id g today_str hosting float_repr kwargs w
               org repo_name workflow_name start end_ skip w1 repo workflow
               Hargs Hrepo Hwf).
    eapply adds_spans_trans; [apply adds_spans_same; exact Hspans |].
    match goal with
    | |- adds_spans _ _ (snd (?m w1)) => destruct (m w1) as [r w'] eqn:Hrun
    end.
    cbn [snd]. revert Hrun.
    apply (bind_frame _ (adds_spans_trans (carries_execution_id execution_id))).
    { intros r1 w2. apply process_runs_frame. }
    intros emitted_runs w2 r2 w3.
    apply (bind_frame _ (adds_spans_trans (carries_execution_id execution_id))).
    { intros r1 w4 Hjobs. apply process_jobs_frame in Hjobs as [_ Hadd].
      eapply adds_spans_impl; [| exact Hadd]. now intros sp [_ ?]. }
    intros emitted_jobs w4 r3 w5.
    apply (bind_frame _ (adds_spans_trans (carries_execution_id execution_id))).
    { intros r1 w6. destruct skip; cbn [negb].
      - intros [= <- <-]. apply adds_spans_refl.
      - apply (bind_frame _ (adds_spans_trans (carries_execution_id execution_id))).
        + intros r4 w7 Hsteps. apply process_steps_frame in Hsteps as [[_ Hadd] _].
          eapply adds_spans_impl; [| exact Hadd]. now intros sp [_ ?].
        + intros steps w7 r4 w8 [= <- <-]. apply adds_spans_refl. }
    intros u w6 r4 w7 [= <- <-]. apply adds_spans_refl.
  - assert (Hmain : main execution_id g today_str hosting float_repr kwargs w
                    = (Raise e, w1)).
    { unfold main, bind. rewrite Hargs. reflexivity. }
    rewrite Hmain. apply adds_spans_same.
    apply (get_args_spans g kwargs w _ w1 Hargs).
Qed.

End MainTheorems.

Lemma main_emits_one_span_per_record_witness :
  length (spans (snd (Scenarios.run_main Scenarios.kwargs))) = 4%nat /\
  length (spans (snd (Scenarios.run_main Scenarios.kwargs_all_steps))) = 8%nat.
Proof.
  split.
  - destruct (main_emits_one_span_per_record Examples.execution_id Examples.client
                Examples.today_str Scenarios.hosting Scenarios.float_repr
                Scenarios.kwargs initial_world
                (snd (Scenarios.run_main Scenarios.kwargs))
                ltac:(vm_compute; reflexivity))
      as (org & w1 & repo & workflow & _ & Hrepo & Hwf & runs & jobs & steps
          & -> & -> & _ & Hlen & _).
    rewrite Hlen. clear Hlen.
    change (Some (Examples.workflow Examples.runs) = Some workflow) in Hwf.
    injection Hwf as <-. reflexivity.
  - destruct (main_emits_one_span_per_record Examples.execution_id Examples.client
                Examples.today_str Scenarios.hosting Scenarios.float_repr
                Scenarios.kwargs_all_steps initial_world
                (snd (Scenarios.run_main Scenarios.kwargs_all_steps))
                ltac:(vm_compute; reflexivity))
      as (org & w1 & repo & workflow & _ & Hrepo & Hwf & runs & jobs & steps
          & -> & -> & -> & Hlen & _).
    rewrite Hlen. clear Hlen.
    change (Some (Examples.workflow Examples.runs) = Some workflow) in Hwf.
    injection Hwf as <-. reflexivity.
Defined.



(** ** When the emitters return, and what [process_runs] reads *)

Section ReturnsIff.
Context {A B : Type}.
Variable body : A -> M B.
Variable P : A -> Prop.
Hypothesis body_returns_iff :
  forall x w, (exists b w', body x w = (Ok b, w')) <-> P x.


End ReturnsIff.



Section Returns.
Variable execution_id : string.
Variable today_str : nat -> string.







(** The loop of [process_runs]: the clock is read once a round. *)
Lemma run_loop_reads (workflow : Workflow.t) (runs : list WorkflowRun.t) :
  forall w hs w',
    for_each (process_run execution_id today_str workflow) runs w = (Ok hs, w') ->
    calls w' = calls w /\
    clock_reads w' = (clock_reads w + length runs)%nat /\
    extends w w' /\
    forall i h,
      hs !! i = Some h ->
      exists sp, span_at w' h sp /\
                 Span.attributes sp !! "my_date"
                 = Some (VStr (today_str (clock_reads w + i)%nat)).
Proof.
  induction runs as [| run runs IH]; intros w hs w' Hrun.
  - injection Hrun as <- <-. simpl.
    split; [reflexivity |]. split; [lia |]. split; [apply extends_refl |].
    intros i h Hi. rewrite lookup_nil in Hi. discriminate.
  - simpl in Hrun. unfold bind in Hrun.
    destruct (process_run execution_id today_str workflow run w)
      as [[h | e] w1] eqn:Hb; [| discriminate].
    destruct (for_each _ runs w1) as [[rest | e] w2] eqn:Hrest; [| discriminate].
    injection Hrun as <- <-.
    apply process_run_effect in Hb as (Hh & sp & Hw1 & _ & _ & Hdate & _).
    destruct (IH w1 rest w2 Hrest) as (Hcalls & Hclock & Hext & Hall).
    destruct (appended_one w w1 h sp Hh ltac:(subst w1; reflexivity))
      as [Hext1 Hat1].
    assert (Hc1 : calls w1 = calls w /\ clock_reads w1 = S (clock_reads w))
      by (subst w1; split; reflexivity).
    destruct Hc1 as [Hc1 Hk1].
    split; [congruence |]. split; [simpl; lia |].
    split; [eapply extends_trans; eassumption |].
    intros [| i] h' Hi; simpl in Hi.
    + injection Hi as <-. exists sp.
      split; [eapply span_at_extends; eassumption |].
      rewrite Nat.add_0_r. exact Hdate.
    + destruct (Hall i h' Hi) as (sp' & Hat' & Hdate').
      exists sp'. split; [exact Hat' |].
      rewrite Hdate', Hk1. do 3 f_equal. lia.
Qed.

End Returns.


(** X19. A returning [process_runs] has made one request to the client,
    for the runs of the workflow under the [created] filter, and has read
    the clock once for every run: [my_date] of the span of the i-th run is
    what the clock gave at the i-th reading, not one date for the whole
    execution. *)
Theorem process_runs_reads_the_clock_per_run (execution_id : string)
    (today_str : nat -> string) (workflow : Workflow.t)
    (start end_ : option string) (w : world) (runs : list WorkflowRun.t)
    (hs : list nat) (w' : world) :
  process_runs execution_id today_str workflow start end_ w = (Ok (runs, hs), w') ->
  calls w' = calls w ++ [Call_get_runs (created_filter start end_)] /\
  clock_reads w' = (clock_reads w + length runs)%nat /\
  forall i h,
    hs !! i = Some h ->
    exists sp, span_at w' h sp /\
               Span.attributes sp !! "my_date"
               = Some (VStr (today_str (clock_reads w + i)%nat)).
Proof.
  intros Hrun.
  assert (Hloop : for_each (process_run execution_id today_str workflow) runs
                    (World (calls w ++ [Call_get_runs (created_filter start end_)])
                           (spans w) (current w) (clock_reads w))
                  = (Ok hs, w')).
  { revert Hrun. unfold process_runs, created_filter.
    destruct start, end_; unfold bind at 1, call;
      unfold bind, ret;
      (destruct (for_each _ _ _) as [[handles | e] w1] eqn:Hl; [| discriminate]);
      intros [= <- <- <-]; first [exact Hl | reflexivity]. }
  apply run_loop_reads in Hloop as (Hcalls & Hclock & _ & Hall).
  cbn [calls clock_reads] in Hcalls, Hclock, Hall. auto.
Qed.

Lemma process_runs_reads_the_clock_per_run_witness :
  calls (snd Examples.after_runs)
  = calls initial_world ++ [Call_get_runs (created_filter None None)] /\
  clock_reads (snd Examples.after_runs)
  = (clock_reads initial_world + length Examples.runs)%nat.
Proof.
  destruct (process_runs_reads_the_clock_per_run Examples.execution_id
              Examples.today_str (Examples.workflow Examples.runs) None None
              initial_world Examples.runs [0%nat; 1%nat] (snd Examples.after_runs)
              ltac:(vm_compute; reflexivity))
    as (Hcalls & Hclock & _).
  split; assumption.
Defined.
